(** * DigitalAvator: image-to-ASCII converter and text-to-bitmap renderer

    A shallow embedding of [AsciiArtGenerator] (main.py) and of the two
    functions of the stand-alone script (test.py), followed by the
    properties of the pipeline.

    - NumPy [float32] arrays and Python [float]s are IEEE-754 binary32 and
      binary64 values, modelled with the standard library's [spec_float]
      and its correctly rounded operations.
    - Python exceptions are an error monad; [try ... except Exception]
      is [py_try].
    - The font cache and the output files are finite maps. *)

From Stdlib Require Import ZArith List Bool Lia Ascii String.
From Stdlib Require Import Floats.SpecFloat.
From stdpp Require Import gmap strings pretty.

Local Open Scope Z_scope.

(** ** Python exceptions *)

Inductive py_exn : Type :=
| ZeroDivisionError
| OverflowError
| MemoryError
| ValueError (msg : string)
| IndexError
| OSError (path : string)
| UnidentifiedImageError (path : string)
| SystemError (msg : string)
| RuntimeError (prefix : string) (cause : py_exn).

Inductive result (A : Type) : Type :=
| Ok (a : A)
| Raise (e : py_exn).
Arguments Ok {A} a.
Arguments Raise {A} e.

#[global] Instance result_ret : MRet result := @Ok.
#[global] Instance result_bind : MBind result := λ A B f m,
  match m with Ok a => f a | Raise e => Raise e end.

(** [try: body except Exception as e: handler e] *)
Definition py_try {A} (body : result A) (handler : py_exn → result A) : result A :=
  match body with Ok a => Ok a | Raise e => handler e end.

Definition is_ok {A} (r : result A) : bool :=
  match r with Ok _ => true | Raise _ => false end.

(** ** IEEE-754 formats *)

Module F32.
Definition prec : Z := 24.
Definition emax : Z := 128.
Definition of_Z (z : Z) : spec_float := binary_normalize prec emax z 0 false.
Definition add := SFadd prec emax.
Definition sub := SFsub prec emax.
Definition mul := SFmul prec emax.
Definition div := SFdiv prec emax.
Definition ltb := SFltb.
Definition leb := SFleb.
Definition valid := valid_binary prec emax.
(** A Python [float] scalar meeting a [float32] array is cast to [float32]
    (round to nearest even). *)
Definition of_double (x : spec_float) : spec_float :=
  match x with
  | S754_finite s m e => binary_round prec emax s m e
  | _ => x
  end.
End F32.

Module F64.
Definition prec : Z := 53.
Definition emax : Z := 1024.
Definition of_Z (z : Z) : spec_float := binary_normalize prec emax z 0 false.
Definition mul := SFmul prec emax.
Definition div := SFdiv prec emax.
Definition valid := valid_binary prec emax.
(** The literal [0.5]. *)
Definition half : spec_float := S754_finite false 4503599627370496 (-53).
End F64.

Definition is_nan (x : spec_float) : bool :=
  match x with S754_nan => true | _ => false end.

(** Truncation toward zero of a finite value. *)
Definition Ztrunc (x : spec_float) : option Z :=
  match x with
  | S754_zero _ => Some 0
  | S754_finite s m e =>
      let a := if 0 <=? e then Z.pos m * 2 ^ e else Z.pos m / 2 ^ (- e) in
      Some (if s then - a else a)
  | _ => None
  end.

(** Python [int(x)] on a float. *)
Definition py_int (x : spec_float) : result Z :=
  match x with
  | S754_nan => Raise (ValueError "cannot convert float NaN to integer")
  | S754_infinity _ => Raise OverflowError
  | _ => match Ztrunc x with Some z => Ok z | None => Raise OverflowError end
  end.

(** Python [float(n)] for an [int]; the conversion is correctly rounded and
    raises when the magnitude exceeds the binary64 range. *)
Definition py_float (n : Z) : result spec_float :=
  match F64.of_Z n with
  | S754_infinity _ => Raise OverflowError
  | x => Ok x
  end.

(** Python [a / b] on two [int]s: the correctly rounded quotient. *)
Definition py_truediv (a b : Z) : result spec_float :=
  if b =? 0 then Raise ZeroDivisionError
  else
    let q :=
      match a, b with
      | 0, _ => S754_zero (b <? 0)
      | Z.pos ma, Z.pos mb => F64.div (S754_finite false ma 0) (S754_finite false mb 0)
      | Z.pos ma, Z.neg mb => F64.div (S754_finite false ma 0) (S754_finite true mb 0)
      | Z.neg ma, Z.pos mb => F64.div (S754_finite true ma 0) (S754_finite false mb 0)
      | Z.neg ma, Z.neg mb => F64.div (S754_finite true ma 0) (S754_finite true mb 0)
      | _, 0 => S754_nan
      end in
    match q with
    | S754_infinity _ => Raise OverflowError
    | _ => Ok q
    end.

(** [ndarray.astype(np.int32)] on a [float32]: truncation toward zero; a
    value that does not fit (NaN and the infinities included) converts to
    the "integer indefinite" [-2^31] of the x86 conversion instruction. *)
Definition astype_int32 (x : spec_float) : Z :=
  match Ztrunc x with
  | Some z => if (- 2 ^ 31 <=? z) && (z <? 2 ^ 31) then z else - 2 ^ 31
  | None => - 2 ^ 31
  end.

(** [ndarray.astype(np.uint8)] on a [float32]: the C conversion, which
    keeps the low byte of the truncated value. *)
Definition astype_uint8 (x : spec_float) : Z := astype_int32 x mod 256.

(** [np.maximum] / [np.minimum] as used by [np.clip]: a NaN first operand
    is propagated. *)
Definition np_max (a b : spec_float) : spec_float :=
  if is_nan a then a else if F32.ltb b a then a else b.
Definition np_min (a b : spec_float) : spec_float :=
  if is_nan a then a else if F32.ltb a b then a else b.
Definition np_clip (x lo hi : spec_float) : spec_float := np_min (np_max x lo) hi.

(** ** Images and text *)

Abbreviation text := (list ascii).

(** A single-channel 8-bit image (PIL mode ['L']); [im_pixels] is the
    row-major sample buffer, which is also the order of [ndarray.flatten]. *)
Record image : Type := {
  im_width : nat;
  im_height : nat;
  im_pixels : list Z
}.

Definition wf_image (img : image) : Prop :=
  length (im_pixels img) = (im_width img * im_height img)%nat ∧
  Forall (λ p, 0 ≤ p ≤ 255) (im_pixels img).

Definition clip8 (z : Z) : Z := Z.max 0 (Z.min 255 z).

(** [seq[i]] with Python's negative indices. *)
Definition py_getitem {A} (s : list A) (i : Z) : result A :=
  let n := Z.of_nat (length s) in
  let j := if i <? 0 then i + n else i in
  if (0 <=? j) && (j <? n)
  then match s !! Z.to_nat j with Some a => Ok a | None => Raise IndexError end
  else Raise IndexError.

(** [s[lo:hi]] for [0 <= lo <= hi]. *)
Definition py_slice {A} (s : list A) (lo hi : nat) : list A :=
  take (hi - lo) (drop lo s).

(** [len(range(0, stop, step))] for [stop >= 0]. *)
Definition py_range_len (stop step : Z) : result nat :=
  if step =? 0 then Raise (ValueError "range() arg 3 must not be zero")
  else if step <? 0 then Ok 0%nat
  else Ok (Z.to_nat ((stop + step - 1) / step)).

(** [[s[i:i+w] for i in range(0, len(s), w)]] *)
Definition split_lines (ascii_str : text) (output_width : Z) : result (list text) :=
  n ← py_range_len (Z.of_nat (length ascii_str)) output_width;
  let w := Z.to_nat output_width in
  mret (map (λ k, py_slice ascii_str (k * w) (k * w + w)) (seq 0 n)).

(** The ramp of main.py line 24 and test.py line 6.  In the Python literal
    the backslash before the bar is kept and the escaped quote is one
    character. *)
Definition ASCII_CHARS : text :=
  list_ascii_of_string
    ("@$B%8&WM#*oahkbdpqwmZO0QLCJUYXzcvunxrjft/\|()1{}[]?-_+~<>i!lI;:,"
       +:+ String "034"%char "^`'. ").

Definition char_length : Z := Z.of_nat (length ASCII_CHARS).

(** main.py line 69 for one gamma-corrected sample:
    [(normalized * (char_length - 1)).astype(np.int32)]. *)
Definition ramp_index (y : spec_float) : Z :=
  astype_int32 (F32.mul y (F32.of_Z (char_length - 1))).

(** The C resampler behind [Image.resize(..., Image.LANCZOS)]:
    [resample_alloc img xsize ysize] tells whether it can allocate the
    output and its coefficient tables for that size (it cannot when the
    size exceeds the limits of the imaging core or the memory at hand),
    and [resample_value img w h x y] is the value of the output sample at
    column [x], row [y] before it is clipped to 8 bits. *)
Record resampler : Type := {
  resample_alloc : image → Z → Z → bool;
  resample_value : image → nat → nat → nat → nat → Z
}.

(** Whether a Python [int] fits the C [int] that the imaging core takes. *)
Definition c_int (z : Z) : bool := (- 2 ^ 31 <=? z) && (z <? 2 ^ 31).

Section Converter.

Variable lanczos : resampler.

(** The C library's [powf]. *)
Variable powf : spec_float → spec_float → spec_float.

(** [Image.open(path).convert('L')] *)
Variable Image_open : string → result image.

(** [Image.resize(size, resample)]: a request for the image's own size
    returns a copy; otherwise the size is handed to the imaging core, which
    takes two C [int]s ([OverflowError] beyond them), refuses a size below
    1, and raises [MemoryError] when the resampler cannot allocate the
    output; every output sample is the clipped value of the filter. *)
Definition Image_resize (img : image) (size : Z * Z) : result image :=
  let '(xsize, ysize) := size in
  if (xsize =? Z.of_nat (im_width img)) && (ysize =? Z.of_nat (im_height img))
  then Ok img
  else if negb (c_int xsize && c_int ysize)
  then Raise OverflowError
  else if (xsize <? 1) || (ysize <? 1)
  then Raise (ValueError "height and width must be > 0")
  else if negb (resample_alloc lanczos img xsize ysize)
  then Raise MemoryError
  else
    let w := Z.to_nat xsize in
    let h := Z.to_nat ysize in
    Ok {| im_width := w; im_height := h;
          im_pixels := map (λ i, clip8 (resample_value lanczos img w h (i mod w) (i / w)))
                           (seq 0 (w * h)) |}.

(** main.py lines 44-47: one sample through the contrast stretch, up to
    [np.clip] and then through the cast to [uint8]. *)
Definition contrast_clipped (contrast : spec_float) (v : Z) : spec_float :=
  let x := F32.of_Z v in
  let y := F32.add (F32.mul (F32.sub x (F32.of_Z 128)) (F32.of_double contrast))
                   (F32.of_Z 128) in
  np_clip y (F32.of_Z 0) (F32.of_Z 255).

Definition adjust_contrast (contrast : spec_float) (v : Z) : Z :=
  astype_uint8 (contrast_clipped contrast v).

Definition apply_contrast (contrast : spec_float) (img : image) : image :=
  {| im_width := im_width img; im_height := im_height img;
     im_pixels := map (adjust_contrast contrast) (im_pixels img) |}.

(** main.py lines 51-54: [output_width * aspect_ratio * 0.5] ... *)
Definition scaled_height (width height output_width : Z) : result spec_float :=
  aspect_ratio ← py_truediv height width;
  w ← py_float output_width;
  mret (F64.mul (F64.mul w aspect_ratio) F64.half).

(** ... and [int(...)] of it. *)
Definition new_height (width height output_width : Z) : result Z :=
  x ← scaled_height width height output_width;
  py_int x.

(** main.py line 65. *)
Definition normalized (p : Z) : spec_float :=
  F32.div (F32.of_Z p) (F32.of_Z 255).

(** main.py line 67; the Python scalar [gamma] is cast to [float32]. *)
Definition gamma_corrected (gamma : spec_float) (p : Z) : spec_float :=
  powf (normalized p) (F32.of_double gamma).

(** main.py lines 65-69 for one sample. *)
Definition char_index (gamma : spec_float) (p : Z) : Z :=
  ramp_index (gamma_corrected gamma p).

(** main.py lines 41-72 and test.py lines 12-43, after the image is open:
    the character stream [ascii_str]. *)
Definition ascii_stream (img : image) (output_width : Z)
    (contrast gamma : spec_float) : result text :=
  let img := apply_contrast contrast img in
  let width := Z.of_nat (im_width img) in
  let height := Z.of_nat (im_height img) in
  nh ← new_height width height output_width;
  img ← Image_resize img (output_width, nh);
  let pixels := im_pixels img in
  let indices := map (char_index gamma) pixels in
  mapM (py_getitem ASCII_CHARS) indices.

(** main.py lines 41-75 and test.py lines 12-46. *)
Definition ascii_of_image (img : image) (output_width : Z)
    (contrast gamma : spec_float) : result (list text) :=
  ascii_str ← ascii_stream img output_width contrast gamma;
  split_lines ascii_str output_width.

(** test.py [high_precision_image_to_ascii]: exceptions propagate. *)
Definition high_precision_image_to_ascii (image_path : string)
    (output_width : Z) (contrast gamma : spec_float) : result (list text) :=
  img ← Image_open image_path;
  ascii_of_image img output_width contrast gamma.

(** main.py [AsciiArtGenerator.generate_ascii_art]: every exception is
    re-raised as a [RuntimeError]. *)
Definition generate_ascii_art (image_path : string)
    (output_width : Z) (contrast gamma : spec_float) : result (list text) :=
  py_try (img ← Image_open image_path;
          ascii_of_image img output_width contrast gamma)
         (λ e, Raise (RuntimeError "generate_ascii_art" e)).

End Converter.

(** ** Fonts, bitmaps and the file system *)

(** A loaded font.  [font_getsize] is the [getsize] method, absent on font
    objects that do not offer it ([hasattr(font, 'getsize')]). *)
Record font : Type := {
  font_source : string;
  font_px : Z;
  font_getsize : option (text → nat * nat)
}.

Definition color : Type := Z * Z * Z.

(** [ImageDraw.text(xy, text, fill, font)] *)
Inductive draw_op : Type :=
| DrawText (xy : nat * nat) (s : text) (fill : color) (f : font).

(** An image under construction: its mode and size, the fill colour it
    was allocated with, the draw mode and the text drawn so far. *)
Record bitmap : Type := {
  bm_mode : string;
  bm_width : nat;
  bm_height : nat;
  bm_background : color;
  bm_fontmode : string;
  bm_ops : list draw_op
}.

(** [Image.new(mode, size, color)] *)
Definition Image_new (mode : string) (size : nat * nat) (c : color) : bitmap :=
  {| bm_mode := mode; bm_width := fst size; bm_height := snd size;
     bm_background := c; bm_fontmode := "1"; bm_ops := [] |}.

Definition set_fontmode (m : string) (img : bitmap) : bitmap :=
  {| bm_mode := bm_mode img; bm_width := bm_width img; bm_height := bm_height img;
     bm_background := bm_background img; bm_fontmode := m; bm_ops := bm_ops img |}.

Definition draw_text (img : bitmap) (xy : nat * nat) (s : text) (fill : color)
    (f : font) : bitmap :=
  {| bm_mode := bm_mode img; bm_width := bm_width img; bm_height := bm_height img;
     bm_background := bm_background img; bm_fontmode := bm_fontmode img;
     bm_ops := bm_ops img ++ [DrawText xy s fill f] |}.

(** Files hold bytes; directories are a set of paths. *)
Record world : Type := {
  fs_files : gmap string string;
  fs_dirs : gset string
}.

Definition os_path_exists (w : world) (path : string) : bool :=
  bool_decide (is_Some (fs_files w !! path)) || bool_decide (path ∈ fs_dirs w).

Definition write_file (w : world) (path data : string) : world :=
  {| fs_files := <[path := data]> (fs_files w); fs_dirs := fs_dirs w |}.

(** [os.mkdir(path)], once the system permits it. *)
Definition os_mkdir (w : world) (path : string) : world :=
  {| fs_files := fs_files w; fs_dirs := {[path]} ∪ fs_dirs w |}.

(** [os.makedirs(name)]: [heads] are the directories above [name], nearest
    first (the successive heads of [os.path.split]).  The recursion climbs
    while the head does not exist, then creates the directories from the
    outermost missing one down to [name]; the first [os.mkdir] that the
    system refuses ([can_mkdir]) raises and leaves behind what was created
    before it. *)
Fixpoint os_makedirs (can_mkdir : world → string → bool) (w : world) (name : string)
    (heads : list string) : result unit * world :=
  let '(r, w) :=
    match heads with
    | [] => (Ok (), w)
    | head :: rest =>
        if os_path_exists w head then (Ok (), w)
        else os_makedirs can_mkdir w head rest
    end in
  match r with
  | Raise e => (Raise e, w)
  | Ok _ =>
      if can_mkdir w name then (Ok (), os_mkdir w name)
      else (Raise (OSError name), w)
  end.

(** ['\n'.join(lines)] *)
Fixpoint join_lines (lines : list text) : string :=
  match lines with
  | [] => ""
  | [l] => string_of_list_ascii l
  | l :: rest => string_of_list_ascii l +:+ String "010"%char (join_lines rest)
  end.

Definition default_font_paths : list string :=
  [ "/System/Library/Fonts/Menlo.ttc";
    "/usr/share/fonts/truetype/ubuntu/UbuntuMono-R.ttf";
    "C:/Windows/Fonts/consola.ttf";
    "C:/Windows/Fonts/lucon.ttf";
    "C:/Windows/Fonts/CascadiaMono.ttf" ].

Definition common_fonts : list string :=
  [ "consola"; "cour"; "menlo"; "dejavusansmono"; "ubuntumono" ].

Section Renderer.

(** [ImageFont.truetype(name_or_path, size)] and [ImageFont.load_default()]. *)
Variable ImageFont_truetype : string → Z → result font.
Variable ImageFont_load_default : result font.

(** The PNG encoder behind [img.save(path, 'PNG', compress_level=1)], and
    the bytes it has put into the file by the time it raises. *)
Variable png_encode : bitmap → result string.
Variable png_partial : bitmap → string.

(** Whether [open(path, 'w')] succeeds. *)
Variable can_write : world → string → bool.

(** main.py lines 144-150: the first existing path that loads wins. *)
Fixpoint try_paths (w : world) (paths : list string) (font_size : Z) : option font :=
  match paths with
  | [] => None
  | path :: rest =>
      if os_path_exists w path then
        match ImageFont_truetype path font_size with
        | Ok f => Some f
        | Raise _ => try_paths w rest font_size
        end
      else try_paths w rest font_size
  end.

(** main.py lines 155-160: the first family name that loads wins. *)
Fixpoint try_names (names : list string) (font_size : Z) : option font :=
  match names with
  | [] => None
  | name :: rest =>
      match ImageFont_truetype name font_size with
      | Ok f => Some f
      | Raise _ => try_names rest font_size
      end
  end.

(** main.py lines 141-164, test.py lines 61-83. *)
Definition resolve_font (w : world) (font_size : Z) : result font :=
  let font := try_paths w default_font_paths font_size in
  let font := match font with
              | None => try_names common_fonts font_size
              | Some _ => font
              end in
  match font with
  | None => ImageFont_load_default
  | Some f => Ok f
  end.

(** main.py [_get_font]: the cache is keyed by the decimal text of the
    size and is filled on the first resolution. *)
Definition _get_font (w : world) (font_size : Z) (font_cache : gmap string font)
    : result font * gmap string font :=
  let cache_key := pretty font_size in
  match font_cache !! cache_key with
  | Some f => (Ok f, font_cache)
  | None =>
      match resolve_font w font_size with
      | Ok f => (Ok f, <[cache_key := f]> font_cache)
      | Raise e => (Raise (RuntimeError "_get_font" e), font_cache)
      end
  end.

(** main.py lines 97-101, test.py lines 89-93. *)
Definition glyph_metrics (f : font) : nat * nat :=
  match font_getsize f with
  | Some getsize => getsize (list_ascii_of_string "A")
  | None => (6, 12)%nat
  end.

(** The drawing loop of main.py lines 120-123. *)
Definition draw_lines (f : font) (fill : color) (char_height : nat)
    (ascii_lines : list text) (img : bitmap) : bitmap :=
  snd (fold_left
         (λ '(y, img) line, ((y + char_height)%nat, draw_text img (0%nat, y) line fill f))
         ascii_lines (0%nat, img)).

(** main.py lines 96-123, test.py lines 88-115: measure, allocate, draw. *)
Definition render_canvas (f : font) (ascii_lines : list text)
    (bg_color text_color : color) : result bitmap :=
  let '(char_width, char_height) := glyph_metrics f in
  first ← py_getitem ascii_lines 0;
  let img_width := (char_width * length first)%nat in
  let img_height := (char_height * length ascii_lines)%nat in
  let img := Image_new "RGB" (img_width, img_height) bg_color in
  let img := set_fontmode "L" img in
  mret (draw_lines f text_color char_height ascii_lines img).

(** [img.save(output_path, 'PNG', compress_level=1)]: the file is opened
    for writing, which creates or truncates it, before the encoder runs.
    When the encoder raises, a file that [save] created itself is removed
    again, while a file that was there before is left with the bytes
    written so far: its old content is lost. *)
Definition Image_save (w : world) (img : bitmap) (output_path : string)
    : result unit * world :=
  if can_write w output_path then
    let created := negb (os_path_exists w output_path) in
    match png_encode img with
    | Ok data => (Ok (), write_file w output_path data)
    | Raise e =>
        (Raise e, if created then w else write_file w output_path (png_partial img))
    end
  else (Raise (OSError output_path), w).

(** main.py [save_ascii_text]. *)
Definition save_ascii_text (w : world) (ascii_lines : list text)
    (output_path : string) : result bool * world :=
  if can_write w output_path
  then (Ok true, write_file w output_path (join_lines ascii_lines))
  else (Raise (RuntimeError "save_ascii_text" (OSError output_path)), w).

(** main.py [save_ascii_image]. *)
Definition save_ascii_image (w : world) (font_cache : gmap string font)
    (ascii_lines : list text) (output_path : string) (font_size : Z)
    (bg_color text_color : color)
    : result bool * gmap string font * world :=
  let wrap e := Raise (RuntimeError "save_ascii_image" e) in
  match _get_font w font_size font_cache with
  | (Raise e, font_cache) => (wrap e, font_cache, w)
  | (Ok f, font_cache) =>
      match render_canvas f ascii_lines bg_color text_color with
      | Raise e => (wrap e, font_cache, w)
      | Ok img =>
          match Image_save w img output_path with
          | (Ok _, w) => (Ok true, font_cache, w)
          | (Raise e, w) => (wrap e, font_cache, w)
          end
      end
  end.

(** test.py [save_high_res_ascii]: the font chain is inlined and guarded by
    one more fallback to the built-in font; the image is returned. *)
Definition save_high_res_ascii (w : world) (ascii_lines : list text)
    (output_path : string) (font_size : Z) (bg_color text_color : color)
    : result bitmap * world :=
  match py_try (resolve_font w font_size) (λ _, ImageFont_load_default) with
  | Raise e => (Raise e, w)
  | Ok f =>
      match render_canvas f ascii_lines bg_color text_color with
      | Raise e => (Raise e, w)
      | Ok img =>
          match Image_save w img output_path with
          | (Ok _, w) => (Ok img, w)
          | (Raise e, w) => (Raise e, w)
          end
      end
  end.

End Renderer.

(** ** The settings of the form and the opening of an image *)

Record settings : Type := {
  input_path : string;
  output_dir : string;
  width_var : Z;
  contrast_var : spec_float;
  gamma_var : spec_float;
  font_size_var : Z;
  preview_var : bool;
  save_text_var : bool;
  save_image_var : bool
}.

Section Opening.

(** The image decoders followed by [convert('L')]. *)
Variable Image_decode : string → result image.

(** [Image.open(path).convert('L')] on the file system. *)
Definition Image_open (w : world) (path : string) : result image :=
  match fs_files w !! path with
  | Some data => Image_decode data
  | None => Raise (OSError path)
  end.

End Opening.

(** ** Definitions used to state and prove the properties *)

(** *** Rounding *)

(** [mrs] is what is left of the non-negative integer [X] after [k] right
    shifts: the quotient, the round bit and the sticky bit. *)
Definition shr_inv (X k : Z) (mrs : shr_record) : Prop :=
  0 ≤ X ∧ 0 ≤ k ∧
  shr_m mrs = X / 2 ^ k ∧
  shr_r mrs = (2 ^ k <=? 2 * (X mod 2 ^ k)) ∧
  shr_s mrs = negb ((2 * (X mod 2 ^ k)) mod 2 ^ k =? 0).

(** The shape of every rounded result: the sign is the one that was asked
    for, a finite mantissa fits the precision, and the exponent is at most
    [B]; the result overflows only when [B] is out of range. *)
Definition rounded (prec emax : Z) (sx : bool) (B : Z) (r : spec_float) : Prop :=
  r = S754_zero sx ∨
  (r = S754_infinity sx ∧ emax - prec < B) ∨
  ∃ m e, r = S754_finite sx m e ∧ Z.pos m < 2 ^ prec ∧ e ≤ B ∧ e ≤ emax - prec.

Definition finite_or_zero (x : spec_float) : bool :=
  match x with S754_zero _ | S754_finite _ _ _ => true | _ => false end.

(** Not a NaN, and a finite mantissa fits the format. *)
Definition shaped (prec : Z) (r : spec_float) : Prop :=
  match r with
  | S754_nan => False
  | S754_finite _ m _ => Z.pos m < 2 ^ prec
  | _ => True
  end.

(** A non-negative finite binary64 value whose exponent is at most [B]. *)
Definition nonneg_le (B : Z) (x : spec_float) : Prop :=
  x = S754_zero false ∨
  ∃ m e, x = S754_finite false m e ∧ Z.pos m < 2 ^ 53 ∧ e ≤ B.

(** Round-to-nearest-even of [V / 2^k]. *)
Definition rne_shift (V k : Z) : Z :=
  let q := V / 2 ^ k in
  let R := V mod 2 ^ k in
  if 2 * R <? 2 ^ k then q
  else if 2 ^ k <? 2 * R then q + 1
  else if Z.even q then q else q + 1.

(** Round [V] to the nearest multiple of [2^k], ties to the even multiple. *)
Definition round_grid (V k : Z) : Z := rne_shift V k * 2 ^ k.

(** Rounding to [p] significant bits, with a finest grid of [2^k0]. *)
Definition round_sig (p k0 V : Z) : Z := round_grid V (Z.max (Zdigits2 V - p) k0).

(** The last step of [binary_round_aux]: pack a mantissa and an exponent. *)
Definition finish (prec emax : Z) (sx : bool) (m e : Z) : spec_float :=
  match m with
  | 0 => S754_zero sx
  | Z.pos p => if e <=? emax - prec then S754_finite sx p e else S754_infinity sx
  | Z.neg _ => S754_nan
  end.

(** The value of a non-negative [float32] in units of [2^-149]. *)
Definition f32_scaled (x : spec_float) : Z :=
  match x with
  | S754_finite false m e => Z.pos m * 2 ^ (e + 149)
  | _ => 0
  end.

(** A valid [float32] in the closed interval from 0 to 1. *)
Definition unit_f32 (x : spec_float) : bool :=
  F32.valid x && SFleb (S754_zero false) x && SFleb x (F32.of_Z 1).

(** *** Parameters of the converter *)

Definition f64_tenth : spec_float := F64.div (F64.of_Z 1) (F64.of_Z 10).
Definition f64_one : spec_float := F64.of_Z 1.
Definition f64_two : spec_float := F64.of_Z 2.
Definition f64_five : spec_float := F64.of_Z 5.

(** The contrast [k / 4], which binary64 and binary32 both hold exactly. *)
Definition quarter (k : Z) : spec_float := F64.div (F64.of_Z k) (F64.of_Z 4).

(** The contrast stretch at [k / 4] in integer arithmetic, rounding down. *)
Definition exact_stretch (k v : Z) : Z := clip8 (((v - 128) * k + 512) / 4).

(** What [powf] is asked to guarantee on the 256 sample values: results
    in the unit interval, and results ordered like the samples. *)
Definition samples_in_unit (powf : spec_float → spec_float → spec_float)
    (gamma : spec_float) : Prop :=
  ∀ p, 0 ≤ p ≤ 255 → unit_f32 (gamma_corrected powf gamma p) = true.

Definition samples_monotone (powf : spec_float → spec_float → spec_float)
    (gamma : spec_float) : Prop :=
  ∀ p, 0 ≤ p → p < 255 →
    SFleb (gamma_corrected powf gamma p) (gamma_corrected powf gamma (p + 1)) = true.

(** The error of [Image.resize] on a size below 1. *)
Definition resize_error : py_exn := ValueError "height and width must be > 0".

(** Whether [Image.resize] can produce the size [(xsize, ysize)] from
    [img]: the size is the image's own, or it fits two C [int]s and the
    resampler can allocate the output. *)
Definition resizable (lanczos : resampler) (img : image) (xsize ysize : Z) : bool :=
  ((xsize =? Z.of_nat (im_width img)) && (ysize =? Z.of_nat (im_height img)))
  || (c_int xsize && c_int ysize && resample_alloc lanczos img xsize ysize).

(** What the decoders guarantee: an image that opens has at least one
    column and one row, and one sample for each of its positions. *)
Definition decodes_sized (Image_decode : string → result image) : Prop :=
  ∀ data img, Image_decode data = Ok img →
    (1 ≤ im_width img)%nat ∧ (1 ≤ im_height img)%nat ∧
    length (im_pixels img) = (im_width img * im_height img)%nat.

(** What the PNG encoder does with a bitmap that has no pixels. *)
Definition empty_bitmap_error : py_exn := SystemError "tile cannot extend outside image".
Definition png_refuses_empty (png_encode : bitmap → result string) : Prop :=
  ∀ img, bm_width img = 0%nat ∨ bm_height img = 0%nat →
    png_encode img = Raise empty_bitmap_error.

(** *** Font lookup *)





(** *** The formulas of the specification, in exact arithmetic *)

(** The integer nearest to [n / d] for [d > 0], ties to even. *)
Definition round_half_even (n d : Z) : Z :=
  let q := n / d in
  let r := n mod d in
  if 2 * r <? d then q
  else if d <? 2 * r then q + 1
  else if Z.even q then q else q + 1.

(** [round(outputWidth * (sourceHeight / sourceWidth) * 0.5)] *)
Definition spec_new_height (width height output_width : Z) : Z :=
  round_half_even (output_width * height) (2 * width).

(** [clamp((v - 128) * contrast + 128, 0, 255)] rounded to the nearest
    integer, for the contrast [cn / cd]. *)
Definition spec_adjust_contrast (cn cd v : Z) : Z :=
  let x := (v - 128) * cn + 128 * cd in
  round_half_even (Z.max 0 (Z.min (255 * cd) x)) cd.

(** *** Reference instances of the environment *)

(** [powf] on the exponents 0, 1 and 2, where its result is exact or a
    single correctly rounded product; other exponents are not covered. *)
Definition powf_upto2 (x y : spec_float) : spec_float :=
  if SFeqb y (F32.of_Z 0) then F32.of_Z 1
  else if SFeqb y (F32.of_Z 1) then x
  else if SFeqb y (F32.of_Z 2) then F32.mul x x
  else S754_nan.

(** A resampler that picks the nearest source sample, and that can
    allocate an output of up to [2^31 - 1] samples. *)
Definition nearest_filter : resampler :=
  {| resample_alloc := λ _ xsize ysize, xsize * ysize <? 2 ^ 31;
     resample_value := λ img w h x y,
       nth ((y * im_height img / h) * im_width img + x * im_width img / w)%nat
           (im_pixels img) 0 |}.

(** The solid mid-gray 100 x 50 image of the specification's scenario, and
    an image 100 samples wide and 1 sample tall. *)
Definition gray_100x50 : image :=
  {| im_width := 100; im_height := 50; im_pixels := replicate 5000 128 |}.
Definition gray_100x1 : image :=
  {| im_width := 100; im_height := 1; im_pixels := replicate 100 128 |}.

(** A host without any TrueType font, the built-in bitmap font (which has
    no [getsize]), and a monospace font that reports 6 x 11 cells. *)
Definition no_truetype (name : string) (font_size : Z) : result font :=
  Raise (OSError name).
Definition builtin_font : font :=
  {| font_source := "default"; font_px := 10; font_getsize := None |}.
Definition mono_font (name : string) (font_size : Z) : font :=
  {| font_source := name; font_px := font_size;
     font_getsize := Some (λ s, (6 * length s, 11)%nat) |}.
Definition only_dejavu (name : string) (font_size : Z) : result font :=
  if bool_decide (name = "dejavusansmono") then Ok (mono_font name font_size)
  else Raise (OSError name).

(** An encoder that accepts every bitmap, and one that refuses an empty
    bitmap the way the PNG plugin does. *)
Definition png_encode_any (img : bitmap) : result string := Ok "PNG".
Definition png_encode_strict (img : bitmap) : result string :=
  if ((bm_width img =? 0) || (bm_height img =? 0))%nat
  then Raise empty_bitmap_error
  else Ok "PNG".

(** The signature and header chunks, as the bytes of an unfinished file. *)
Definition png_partial_header (img : bitmap) : string := "PNG-header".

Definition can_write_all (w : world) (path : string) : bool := true.

Definition empty_world : world := {| fs_files := ∅; fs_dirs := ∅ |}.

(** A file system in which [old.png] is already there. *)
Definition old_png_world : world :=
  {| fs_files := {[ "old.png" := "OLD" ]}; fs_dirs := ∅ |}.

(** The settings of a run on [photo.png] with a given width slider. *)
Definition run_settings (width : Z) : settings :=
  {| input_path := "photo.png"; output_dir := "out"; width_var := width;
     contrast_var := quarter 4; gamma_var := f64_one; font_size_var := 8;
     preview_var := true; save_text_var := true; save_image_var := true |}.

(** ** The script of test.py (lines 123-154) *)


Section Script.

Variable lanczos : resampler.
Variable powf : spec_float → spec_float → spec_float.
Variable ImageFont_truetype : string → Z → result font.
Variable ImageFont_load_default : result font.
Variable png_encode : bitmap → result string.
Variable png_partial : bitmap → string.
Variable can_write : world → string → bool.
Variable Image_decode : string → result image.


End Script.

(** ** The window (main.py lines 189-583) *)

Module AsciiArtUI.

(** The widget classes that [create_widgets] instantiates. *)
Inductive widget_class : Type :=
| Frame | LabelFrame | Label | Separator | Entry | Scale | Checkbutton
| Button | ModernButton | Scrollbar | Text.

Inductive widget_state : Type := NORMAL | DISABLED.

(** A widget with its [state] option and its children in creation order. *)
#[warnings="-register-all"]
Inductive widget : Type :=
| Widget (cls : widget_class) (state : widget_state) (children : list widget).

Definition widget_cls (x : widget) : widget_class :=
  match x with Widget cls _ _ => cls end.

(** [widget.config(state=st)] *)
Definition config_state (st : widget_state) (x : widget) : widget :=
  match x with Widget cls _ children => Widget cls st children end.

(** [isinstance(widget, (ttk.Button, ModernButton))] *)
Definition isinstance_button (x : widget) : bool :=
  match widget_cls x with Button | ModernButton => true | _ => false end.

(** The states of the buttons of a widget tree, the widget first. *)
Fixpoint button_states (x : widget) : list widget_state :=
  match x with
  | Widget cls st children =>
      (match cls with Button | ModernButton => [st] | _ => [] end)
      ++ flat_map button_states children
  end.

(** A label, a value label and a slider: one row of the parameter box. *)
Definition slider_row : widget :=
  Widget Frame NORMAL
    [Widget Label NORMAL []; Widget Label NORMAL []; Widget Scale NORMAL []].

(** A label, an entry and a "browse" button. *)
Definition path_row : widget :=
  Widget Frame NORMAL
    [Widget Label NORMAL []; Widget Entry NORMAL []; Widget ModernButton NORMAL []].

(** main.py [create_widgets]: the children of the window.  Every widget
    is created inside [main_frame] or below it. *)
Definition create_widgets : list widget :=
  let title_frame := Widget Frame NORMAL [Widget Label NORMAL []] in
  let sep := Widget Separator NORMAL [] in
  let params_frame := Widget Frame NORMAL [slider_row; slider_row; slider_row; slider_row] in
  let options_frame :=
    Widget LabelFrame NORMAL
      [Widget Frame NORMAL
         [Widget Checkbutton NORMAL []; Widget Checkbutton NORMAL [];
          Widget Checkbutton NORMAL []]] in
  let button_frame :=
    Widget Frame NORMAL
      [Widget ModernButton NORMAL []; Widget ModernButton NORMAL [];
       Widget ModernButton NORMAL []] in
  let status_frame := Widget Frame NORMAL [Widget Label NORMAL []] in
  let left_panel :=
    Widget LabelFrame NORMAL
      [path_row; path_row; params_frame; options_frame; button_frame; status_frame] in
  let preview_frame :=
    Widget Frame NORMAL
      [Widget Frame NORMAL [Widget Scrollbar NORMAL []; Widget Text NORMAL []]] in
  let right_panel := Widget LabelFrame NORMAL [preview_frame] in
  let main_frame := Widget Frame NORMAL [title_frame; sep; left_panel; right_panel] in
  [main_frame].

(** What the status bar shows. *)
Inductive status : Type :=
| Status_ready
| Status_selected (basename : string)
| Status_processing
| Status_invalid_input
| Status_done (output_dir : string)
| Status_error (e : py_exn).

(** The message boxes. *)
Inductive dialog : Type :=
| Showwarning_invalid_image
| Showwarning_no_output_dir
| Showerror (e : py_exn)
| Showerror_open_dir (e : py_exn).

(** The window: the Tk variables, the status bar, the preview box, the
    children of the window ([self.winfo_children()]) and the message boxes
    shown so far, oldest first. *)
Record ui : Type := {
  vars : settings;
  status_var : status;
  preview_text : string;
  preview_state : widget_state;
  winfo_children : list widget;
  dialogs : list dialog
}.

Definition set_vars (s : settings) (u : ui) : ui :=
  {| vars := s; status_var := status_var u; preview_text := preview_text u;
     preview_state := preview_state u; winfo_children := winfo_children u;
     dialogs := dialogs u |}.

(** [self.status_var.set(st)] *)
Definition set_status (st : status) (u : ui) : ui :=
  {| vars := vars u; status_var := st; preview_text := preview_text u;
     preview_state := preview_state u; winfo_children := winfo_children u;
     dialogs := dialogs u |}.

(** [messagebox.showwarning] / [messagebox.showerror] *)
Definition show (d : dialog) (u : ui) : ui :=
  {| vars := vars u; status_var := status_var u; preview_text := preview_text u;
     preview_state := preview_state u; winfo_children := winfo_children u;
     dialogs := dialogs u ++ [d] |}.

(** main.py lines 546-550: the preview box is unlocked, emptied, filled
    and locked again. *)
Definition show_preview (s : string) (u : ui) : ui :=
  {| vars := vars u; status_var := status_var u; preview_text := s;
     preview_state := DISABLED; winfo_children := winfo_children u;
     dialogs := dialogs u |}.

(** main.py lines 505-507 and 573-575: the loop over the children of the
    window that sets the state of the buttons among them. *)
Definition config_buttons (st : widget_state) (u : ui) : ui :=
  {| vars := vars u; status_var := status_var u; preview_text := preview_text u;
     preview_state := preview_state u;
     winfo_children :=
       map (λ x, if isinstance_button x then config_state st x else x)
           (winfo_children u);
     dialogs := dialogs u |}.

(** main.py [__init__] and the variables that [create_widgets] declares:
    the window as it opens in the directory [cwd]. *)
Definition init (cwd : string) : ui :=
  {| vars := {| input_path := ""; output_dir := cwd; width_var := 200;
                contrast_var := F64.div (F64.of_Z 12) (F64.of_Z 10);
                gamma_var := F64.div (F64.of_Z 8) (F64.of_Z 10);
                font_size_var := 8; preview_var := true;
                save_text_var := true; save_image_var := true |};
     status_var := Status_ready; preview_text := ""; preview_state := NORMAL;
     winfo_children := create_widgets; dialogs := [] |}.

(** main.py lines 464-472: [file_path] is the answer of the file dialog,
    empty when it was cancelled. *)
Definition browse_image (os_path_basename : string → string) (file_path : string)
    (u : ui) : ui :=
  if bool_decide (file_path = "") then u
  else
    let s := vars u in
    let s := {| input_path := file_path; output_dir := output_dir s;
                width_var := width_var s; contrast_var := contrast_var s;
                gamma_var := gamma_var s; font_size_var := font_size_var s;
                preview_var := preview_var s; save_text_var := save_text_var s;
                save_image_var := save_image_var s |} in
    set_status (Status_selected (os_path_basename file_path)) (set_vars s u).

(** main.py lines 474-478. *)
Definition browse_output (dir_path : string) (u : ui) : ui :=
  if bool_decide (dir_path = "") then u
  else
    let s := vars u in
    let s := {| input_path := input_path s; output_dir := dir_path;
                width_var := width_var s; contrast_var := contrast_var s;
                gamma_var := gamma_var s; font_size_var := font_size_var s;
                preview_var := preview_var s; save_text_var := save_text_var s;
                save_image_var := save_image_var s |} in
    set_vars s u.

(** main.py [start_generation]; the boolean tells whether the worker
    thread was started. *)
Definition start_generation (u : ui) (w : world) : ui * bool :=
  let input_path := input_path (vars u) in
  if bool_decide (input_path = "") || negb (os_path_exists w input_path)
  then (show Showwarning_invalid_image u, false)
  else
    let u := config_buttons DISABLED u in
    let u := set_status Status_processing u in
    (u, true).

Section Window.

Variable lanczos : resampler.
Variable powf : spec_float → spec_float → spec_float.
Variable ImageFont_truetype : string → Z → result font.
Variable ImageFont_load_default : result font.
Variable png_encode : bitmap → result string.
Variable png_partial : bitmap → string.
Variable can_write : world → string → bool.
Variable Image_decode : string → result image.

(** [os.path.splitext(os.path.basename(p))[0]] and [os.path.join]. *)
Variable path_stem : string → string.
Variable os_path_join : string → string → string.

(** Whether the system permits [os.mkdir(path)], and the directories above
    a path, nearest first. *)
Variable can_mkdir : world → string → bool.
Variable path_heads : string → list string.

(** main.py lines 527-528. *)
Definition ensure_output_dir (w : world) (output_dir : string) : result unit * world :=
  if os_path_exists w output_dir then (Ok (), w)
  else os_makedirs can_mkdir w output_dir (path_heads output_dir).

(** The body of the [try] block of [generate_ascii], main.py lines
    517-565: the exception that leaves the block, if any, and the state at
    that point. *)
Definition generate_ascii_try (u : ui) (font_cache : gmap string font) (w : world)
    : result unit * ui * gmap string font * world :=
  let s := vars u in
  if bool_decide (input_path s = "") || negb (os_path_exists w (input_path s))
  then (Ok (), set_status Status_invalid_input u, font_cache, w)
  else
    let '(made, w) := ensure_output_dir w (output_dir s) in
    match made with
    | Raise e => (Raise e, u, font_cache, w)
    | Ok _ =>
    let base_name := path_stem (input_path s) in
    let txt_path := os_path_join (output_dir s) (base_name +:+ "_ascii.txt") in
    let png_path := os_path_join (output_dir s) (base_name +:+ "_ascii.png") in
    match generate_ascii_art lanczos powf (Image_open Image_decode w) (input_path s)
            (width_var s) (contrast_var s) (gamma_var s) with
    | Raise e => (Raise e, u, font_cache, w)
    | Ok ascii_lines =>
        let u := if preview_var s
                 then show_preview (join_lines (take 100 ascii_lines)) u
                 else u in
        let '(saved, w) :=
          if save_text_var s then save_ascii_text can_write w ascii_lines txt_path
          else (Ok true, w) in
        match saved with
        | Raise e => (Raise e, u, font_cache, w)
        | Ok _ =>
            let '(saved, font_cache, w) :=
              if save_image_var s
              then save_ascii_image ImageFont_truetype ImageFont_load_default
                     png_encode png_partial can_write w font_cache ascii_lines png_path
                     (font_size_var s) (3, 3, 3) (255, 255, 255)
              else (Ok true, font_cache, w) in
            match saved with
            | Raise e => (Raise e, u, font_cache, w)
            | Ok _ => (Ok (), set_status (Status_done (output_dir s)) u, font_cache, w)
            end
        end
    end
    end.

(** main.py [generate_ascii]: the [try] block, the handler that reports
    an exception, and the [finally] block that runs on every path. *)
Definition generate_ascii (u : ui) (font_cache : gmap string font) (w : world)
    : ui * gmap string font * world :=
  let '(r, u, font_cache, w) := generate_ascii_try u font_cache w in
  let u := match r with
           | Ok _ => u
           | Raise e => show (Showerror e) (set_status (Status_error e) u)
           end in
  (config_buttons NORMAL u, font_cache, w).

End Window.

End AsciiArtUI.

(** A window in which [photo.png] has been chosen, and a file system that
    holds that file. *)
Definition photo_window : AsciiArtUI.ui :=
  AsciiArtUI.browse_image (λ p, p) "photo.png" (AsciiArtUI.init "out").
Definition photo_world : world :=
  {| fs_files := {[ "photo.png" := "data" ]}; fs_dirs := ∅ |}.

(** The window with the settings of [run_settings], and a run of the
    worker on a host without TrueType fonts whose decoder yields the
    mid-gray image. *)
Definition run_window (width : Z) : AsciiArtUI.ui :=
  AsciiArtUI.set_vars (run_settings width) (AsciiArtUI.init "out").
Definition demo_run (u : AsciiArtUI.ui) (w : world)
    : AsciiArtUI.ui * gmap string font * world :=
  AsciiArtUI.generate_ascii nearest_filter powf_upto2 no_truetype (Ok builtin_font)
    png_encode_any png_partial_header can_write_all (λ _, Ok gray_100x50) (λ p, p)
    (λ d f, d +:+ "/" +:+ f) (λ _ _, true) (λ _, []) u ∅ w.

(** The same run with the output directory [out/art], whose parent [out]
    does not exist either. *)
Definition nested_heads (d : string) : list string :=
  if bool_decide (d = "out/art") then ["out"] else [].
Definition nested_window : AsciiArtUI.ui :=
  AsciiArtUI.browse_output "out/art" (run_window 10).
Definition nested_run : AsciiArtUI.ui * gmap string font * world :=
  AsciiArtUI.generate_ascii nearest_filter powf_upto2 no_truetype (Ok builtin_font)
    png_encode_any png_partial_header can_write_all (λ _, Ok gray_100x50) (λ p, p)
    (λ d f, d +:+ "/" +:+ f) (λ _ _, true) nested_heads nested_window ∅ photo_world.

(** A [powf] for the exponent -1 (the correctly rounded reciprocal), and a
    black 4 x 4 image. *)
Definition powf_recip (x y : spec_float) : spec_float := F32.div (F32.of_Z 1) x.
Definition black_4x4 : image :=
  {| im_width := 4; im_height := 4; im_pixels := replicate 16 0 |}.
Definition f64_minus_one : spec_float := F64.of_Z (-1).

(** A location as the two bits below the mantissa. *)
Definition loc_code (l : location) : Z :=
  match l with
  | loc_Exact => 0
  | loc_Inexact Lt => 1
  | loc_Inexact Eq => 2
  | loc_Inexact Gt => 3
  end.

(** * Properties *)

(** ** Binary digits and powers of two *)

Lemma digits2_pos_size p : digits2_pos p = Pos.size p.
Proof. induction p; simpl; congruence. Qed.

Lemma Zdigits2_bounds p :
  2 ^ (Z.pos (digits2_pos p) - 1) ≤ Z.pos p < 2 ^ Z.pos (digits2_pos p).
Proof.
  rewrite digits2_pos_size. split.
  - pose proof (Pos.size_le p) as H.
    assert (Z.pos (2 ^ Pos.size p) ≤ Z.pos (p~0)) as H' by exact H.
    rewrite Pos2Z.inj_pow in H'.
    replace (Z.pos (Pos.size p)) with (Z.succ (Z.pos (Pos.size p) - 1)) in H' by lia.
    rewrite Z.pow_succ_r in H' by lia. lia.
  - pose proof (Pos.size_gt p) as H.
    assert (Z.pos p < Z.pos (2 ^ Pos.size p)) as H' by exact H.
    now rewrite Pos2Z.inj_pow in H'.
Qed.

Lemma Zdigits2_nonneg m : 0 ≤ m → 0 ≤ Zdigits2 m.
Proof. destruct m; simpl; lia. Qed.

Lemma Zdigits2_upper m : 0 ≤ m → m < 2 ^ Zdigits2 m.
Proof.
  destruct m as [|p|p]; simpl; intros H; try lia.
  apply Zdigits2_bounds.
Qed.

Lemma Zdigits2_lower m : 0 < m → 2 ^ (Zdigits2 m - 1) ≤ m.
Proof.
  destruct m as [|p|p]; simpl; intros H; try lia.
  apply Zdigits2_bounds.
Qed.

(** A number below [2^k] has at most [k] binary digits. *)
Lemma Zdigits2_le m k : 0 ≤ m → 0 ≤ k → m < 2 ^ k → Zdigits2 m ≤ k.
Proof.
  intros Hm Hk Hlt.
  destruct (Z.eq_dec m 0) as [->|Hne]; [simpl; lia|].
  pose proof (Zdigits2_lower m ltac:(lia)) as Hlo.
  destruct (Z.le_gt_cases (Zdigits2 m) k) as [|Hgt]; [done|].
  assert (2 ^ k ≤ 2 ^ (Zdigits2 m - 1)) by (apply Z.pow_le_mono_r; lia).
  lia.
Qed.

Lemma Zdigits2_mono a b : 0 ≤ a ≤ b → Zdigits2 a ≤ Zdigits2 b.
Proof.
  intros [Ha Hab]. apply Zdigits2_le; [lia| apply Zdigits2_nonneg; lia|].
  pose proof (Zdigits2_upper b ltac:(lia)). lia.
Qed.

(** ** Right shifts with round and sticky bits *)

Lemma shr_inv_init X : 0 ≤ X → shr_inv X 0 (shr_record_of_loc X loc_Exact).
Proof.
  intros HX. unfold shr_inv. simpl.
  rewrite Z.div_1_r, Z.mod_1_r. simpl. repeat split; lia.
Qed.

Lemma shr_1_m mrs : 0 ≤ shr_m mrs → shr_m (shr_1 mrs) = shr_m mrs / 2.
Proof.
  destruct mrs as [m r s]. cbn [shr_m]. intros Hm.
  destruct m as [|[p|p|]|p]; cbn [shr_1 shr_m]; try lia.
  - reflexivity.
  - apply Z.div_unique with 1; lia.
  - apply Z.div_unique with 0; lia.
  - reflexivity.
Qed.

Lemma shr_1_r mrs : 0 ≤ shr_m mrs → shr_r (shr_1 mrs) = Z.odd (shr_m mrs).
Proof.
  destruct mrs as [m r s]. simpl. intros Hm.
  destruct m as [|[p|p|]|p]; simpl; try lia; reflexivity.
Qed.

Lemma shr_1_s mrs : shr_s (shr_1 mrs) = shr_r mrs || shr_s mrs.
Proof.
  destruct mrs as [m r s]. simpl.
  destruct m as [|[p|p|]|[p|p|]]; reflexivity.
Qed.

Lemma shr_inv_step X k mrs : shr_inv X k mrs → shr_inv X (k + 1) (shr_1 mrs).
Proof.
  intros (HX & Hk & Hm & Hr & Hs).
  assert (0 < 2 ^ k) as Hpow by (apply Z.pow_pos_nonneg; lia).
  assert (2 ^ (k + 1) = 2 * 2 ^ k) as Hsucc by (rewrite Z.pow_add_r by lia; lia).
  pose proof (Z.div_mod X (2 ^ k) ltac:(lia)) as HXeq.
  pose proof (Z.mod_pos_bound X (2 ^ k) Hpow) as HR.
  set (a := 2 ^ k) in *. set (q := X / a) in *. set (R := X mod a) in *.
  assert (0 ≤ q) as Hq by (subst q; apply Z.div_pos; lia).
  pose proof (Z.div_mod q 2 ltac:(lia)) as Hqeq.
  pose proof (Z.mod_pos_bound q 2 ltac:(lia)) as Hb.
  set (q' := q / 2) in *. set (b := q mod 2) in *.
  assert (X / (2 * a) = q') as Hdiv.
  { symmetry. apply Z.div_unique with (a * b + R); nia. }
  assert (X mod (2 * a) = a * b + R) as Hmod.
  { symmetry. apply Z.mod_unique with q'; nia. }
  assert (0 ≤ shr_m mrs) as Hm0 by lia.
  unfold shr_inv. rewrite Hsucc, Hdiv, Hmod.
  rewrite shr_1_m, shr_1_r, shr_1_s by done.
  rewrite Hm, Hr, Hs. fold q' b.
  repeat split; try lia.
  - rewrite Zodd_mod. fold b.
    destruct (Z.eqb_spec b 1), (Z.leb_spec (2 * a) (2 * (a * b + R))); try reflexivity; nia.
  - assert ((2 * (a * b + R)) mod (2 * a) = 2 * R) as ->.
    { symmetry. apply Z.mod_unique with b; nia. }
    destruct (Z.leb_spec a (2 * R)) as [Hle|Hlt]; simpl.
    + destruct (Z.eqb_spec (2 * R) 0); [lia | reflexivity].
    + rewrite (Z.mod_small (2 * R) a) by lia. reflexivity.
Qed.

Lemma shr_inv_iter X p : ∀ k mrs,
  shr_inv X k mrs → shr_inv X (k + Z.pos p) (SpecFloat.iter_pos shr_1 p mrs).
Proof.
  induction p as [p IH|p IH|]; intros k mrs H; simpl.
  - apply shr_inv_step in H. apply IH in H. apply IH in H.
    replace (k + Z.pos p~1) with (k + 1 + Z.pos p + Z.pos p) by lia. exact H.
  - apply IH in H. apply IH in H.
    replace (k + Z.pos p~0) with (k + Z.pos p + Z.pos p) by lia. exact H.
  - now apply shr_inv_step.
Qed.

Lemma pow2_xO p : 2 ^ Z.pos p~0 = 2 ^ Z.pos p * 2 ^ Z.pos p.
Proof. rewrite <- Z.pow_add_r by lia. f_equal. lia. Qed.

Lemma pow2_xI p : 2 ^ Z.pos p~1 = 2 * (2 ^ Z.pos p * 2 ^ Z.pos p).
Proof.
  rewrite <- Z.pow_add_r by lia. rewrite <- (Z.pow_succ_r 2) by lia. f_equal. lia.
Qed.

(** Any record: the mantissa after the shifts is the quotient. *)
Lemma iter_shr_1_m p : ∀ mrs,
  0 ≤ shr_m mrs → shr_m (SpecFloat.iter_pos shr_1 p mrs) = shr_m mrs / 2 ^ Z.pos p.
Proof.
  induction p as [p IH|p IH|]; intros mrs H; simpl SpecFloat.iter_pos.
  - assert (0 ≤ shr_m (shr_1 mrs)) as H1 by (rewrite shr_1_m by done; apply Z.div_pos; lia).
    assert (0 < 2 ^ Z.pos p) as Hp by (apply Z.pow_pos_nonneg; lia).
    assert (0 ≤ shr_m (SpecFloat.iter_pos shr_1 p (shr_1 mrs))) as H2
      by (rewrite IH by done; apply Z.div_pos; lia).
    rewrite IH, IH, shr_1_m by done.
    rewrite !Z.div_div by lia. now rewrite pow2_xI.
  - assert (0 < 2 ^ Z.pos p) as Hp by (apply Z.pow_pos_nonneg; lia).
    assert (0 ≤ shr_m (SpecFloat.iter_pos shr_1 p mrs)) as H2
      by (rewrite IH by done; apply Z.div_pos; lia).
    rewrite IH, IH by done.
    rewrite !Z.div_div by lia. now rewrite pow2_xO.
  - rewrite shr_1_m by done. now rewrite Z.pow_1_r.
Qed.

(** ** The shape of rounded results *)

Section Rounding.
Variables prec emax : Z.
Hypothesis prec_pos : 0 < prec.

Lemma shr_record_of_loc_m m l : shr_m (shr_record_of_loc m l) = m.
Proof. destruct l as [|[]]; reflexivity. Qed.

Lemma shr_spec mrs e n :
  0 ≤ shr_m mrs →
  shr_m (fst (shr mrs e n)) = shr_m mrs / 2 ^ Z.max 0 n ∧
  snd (shr mrs e n) = e + Z.max 0 n.
Proof.
  intros Hm. destruct n as [|p|p]; simpl.
  - rewrite Z.div_1_r. split; lia.
  - rewrite iter_shr_1_m by done. split; [reflexivity | lia].
  - rewrite Z.div_1_r. split; lia.
Qed.

Lemma round_nearest_even_range m l :
  m ≤ round_nearest_even m l ≤ m + 1.
Proof. destruct l as [|[]]; simpl; try lia. destruct (Z.even m); lia. Qed.

Lemma binary_round_aux_rounded sx mx ex lx :
  0 ≤ mx →
  rounded prec emax sx (Z.max ex (fexp prec emax (Zdigits2 mx + ex)) + 1)
          (binary_round_aux prec emax sx mx ex lx).
Proof.
  intros Hmx. unfold binary_round_aux, shr_fexp.
  set (n1 := fexp prec emax (Zdigits2 mx + ex) - ex).
  pose proof (shr_spec (shr_record_of_loc mx lx) ex n1) as H1.
  rewrite shr_record_of_loc_m in H1. specialize (H1 Hmx).
  destruct (shr (shr_record_of_loc mx lx) ex n1) as [mrs' e'].
  simpl in H1. destruct H1 as [Hm' He'].
  assert (0 < 2 ^ Z.max 0 n1) as Hpow1 by (apply Z.pow_pos_nonneg; lia).
  assert (0 ≤ shr_m mrs') as Hm'0 by (rewrite Hm'; apply Z.div_pos; lia).
  assert (shr_m mrs' < 2 ^ prec) as Hm'lt.
  { pose proof (Zdigits2_upper mx Hmx) as Hup.
    pose proof (Zdigits2_nonneg mx Hmx) as Hd.
    assert (Zdigits2 mx ≤ prec + Z.max 0 n1) as Hdig by (subst n1; unfold fexp; lia).
    assert (2 ^ Zdigits2 mx ≤ 2 ^ (prec + Z.max 0 n1)) as Hpw
      by (apply Z.pow_le_mono_r; lia).
    rewrite Z.pow_add_r in Hpw by lia.
    rewrite Hm'. apply Z.div_lt_upper_bound; lia. }
  pose proof (round_nearest_even_range (shr_m mrs') (loc_of_shr_record mrs')) as Hrne.
  set (m1 := round_nearest_even (shr_m mrs') (loc_of_shr_record mrs')) in *.
  assert (Zdigits2 m1 ≤ prec + 1) as Hd1.
  { apply Zdigits2_le; [lia | lia |]. rewrite Z.pow_add_r, Z.pow_1_r by lia. lia. }
  set (n2 := fexp prec emax (Zdigits2 m1 + e') - e').
  pose proof (shr_spec (shr_record_of_loc m1 loc_Exact) e' n2) as H2.
  rewrite shr_record_of_loc_m in H2. specialize (H2 ltac:(lia)).
  destruct (shr (shr_record_of_loc m1 loc_Exact) e' n2) as [mrs'' e''].
  simpl in H2. destruct H2 as [Hm'' He''].
  assert (0 < 2 ^ Z.max 0 n2) as Hpow by (apply Z.pow_pos_nonneg; lia).
  assert (e'' ≤ Z.max ex (fexp prec emax (Zdigits2 mx + ex)) + 1) as HB.
  { subst n1 n2. unfold fexp in *. lia. }
  destruct (shr_m mrs'') as [|m|m] eqn:Hm2.
  - now left.
  - destruct (Z.leb_spec e'' (emax - prec)) as [Hle|Hgt]; [|right; left; split; [done|lia]].
    right; right. exists m, e''. repeat split; try done.
    pose proof (Zdigits2_upper m1 ltac:(lia)) as Hup.
    pose proof (Zdigits2_nonneg m1 ltac:(lia)) as Hd.
    assert (Zdigits2 m1 ≤ prec + Z.max 0 n2) as Hdig.
    { subst n2. unfold fexp. lia. }
    assert (2 ^ Zdigits2 m1 ≤ 2 ^ (prec + Z.max 0 n2)) as Hpw
      by (apply Z.pow_le_mono_r; lia).
    rewrite Z.pow_add_r in Hpw by lia.
    rewrite Hm''. apply Z.div_lt_upper_bound; lia.
  - exfalso. assert (0 ≤ m1 / 2 ^ Z.max 0 n2) by (apply Z.div_pos; lia). lia.
Qed.

Lemma rounded_weaken sx B B' r :
  B ≤ B' → rounded prec emax sx B r → rounded prec emax sx B' r.
Proof.
  intros HB [H|[[H1 H2]|(m & e & H1 & H2 & H3 & H4)]].
  - now left.
  - right; left. split; [done | lia].
  - right; right. exists m, e. repeat split; try done; lia.
Qed.

(** Aligning a mantissa to a smaller exponent keeps the magnitude. *)
Lemma iter_xO_digits m d :
  digits2_pos (Pos.iter xO m d) = (digits2_pos m + d)%positive.
Proof.
  induction d as [|d IH] using Pos.peano_ind.
  - simpl. lia.
  - rewrite Pos.iter_succ. simpl. rewrite IH. lia.
Qed.

Lemma shl_align_spec mx ex ex' :
  let '(mz, ez) := shl_align mx ex ex' in
  ez = Z.min ex ex' ∧
  Z.pos (digits2_pos mz) + ez = Z.pos (digits2_pos mx) + ex.
Proof.
  unfold shl_align. destruct (ex' - ex) as [|d|d] eqn:Hd.
  - split; lia.
  - split; lia.
  - rewrite iter_xO_digits. split; lia.
Qed.

(** [binary_round] never shifts the exponent above the input's or the
    format's. *)
Lemma binary_round_rounded sx mx ex :
  rounded prec emax sx (Z.max ex (fexp prec emax (Z.pos (digits2_pos mx) + ex)) + 1)
          (binary_round prec emax sx mx ex).
Proof.
  unfold binary_round.
  pose proof (shl_align_spec mx ex (fexp prec emax (Z.pos (digits2_pos mx) + ex))) as H.
  destruct (shl_align mx ex (fexp prec emax (Z.pos (digits2_pos mx) + ex))) as [mz ez].
  destruct H as [Hez Hdig].
  eapply rounded_weaken; [|apply binary_round_aux_rounded; lia].
  simpl Zdigits2. rewrite Hdig. lia.
Qed.

End Rounding.

(** ** The contrast stretch *)

Lemma rounded_shaped prec emax sx B r : rounded prec emax sx B r → shaped prec r.
Proof.
  intros [->|[[-> _]|(m & e & -> & H & _)]]; simpl; done.
Qed.

Lemma SFmul_shaped prec emax x y :
  0 < prec → finite_or_zero x = true → finite_or_zero y = true →
  shaped prec (SFmul prec emax x y).
Proof.
  intros Hp Hx Hy. destruct x as [sx|sx| |sx mx ex], y as [sy|sy| |sy my ey];
    try discriminate; simpl; try done.
  eapply rounded_shaped. apply binary_round_aux_rounded; lia.
Qed.

Lemma binary_normalize_shaped prec emax m e sz :
  0 < prec → shaped prec (binary_normalize prec emax m e sz).
Proof.
  intros Hp. destruct m; simpl; try done;
    eapply rounded_shaped; apply binary_round_rounded; done.
Qed.

Lemma SFadd_shaped prec emax x y :
  0 < prec → shaped prec x → shaped prec y → finite_or_zero y = true →
  shaped prec (SFadd prec emax x y).
Proof.
  intros Hp Hx Hy Hfy.
  destruct x as [sx|sx| |sx mx ex], y as [sy|sy| |sy my ey];
    try discriminate; try done.
  - simpl. destruct sx, sy; done.
  - unfold SFadd. apply binary_normalize_shaped; done.
Qed.

Lemma compare_cont_Eq p q : Pos.compare_cont Eq p q = (Z.pos p ?= Z.pos q).
Proof. reflexivity. Qed.

Lemma valid_binary_digits prec emax s m e :
  valid_binary prec emax (S754_finite s m e) = true →
  Z.pos (digits2_pos m) ≤ prec ∧ emin prec emax ≤ e ∧ e ≤ emax - prec.
Proof.
  simpl. unfold bounded, canonical_mantissa, fexp.
  intros [H1 H2]%andb_prop. apply Z.eqb_eq in H1. apply Z.leb_le in H2. lia.
Qed.

Lemma f64_five_eq : f64_five = S754_finite false 5629499534213120 (-50).
Proof. reflexivity. Qed.

Lemma f64_tenth_eq : f64_tenth = S754_finite false 7205759403792794 (-56).
Proof. reflexivity. Qed.

Lemma of_double_finite contrast :
  F64.valid contrast = true →
  SFleb f64_tenth contrast = true →
  SFleb contrast f64_five = true →
  finite_or_zero (F32.of_double contrast) = true.
Proof.
  rewrite f64_five_eq, f64_tenth_eq. intros Hv Hlo Hhi.
  destruct contrast as [s|s| |s m e]; try done.
  - destruct s; done.
  - destruct s; [discriminate Hlo|].
    apply valid_binary_digits in Hv as (Hd & _ & _).
    assert (e ≤ -50) as He.
    { unfold SFleb, SFcompare in Hhi.
      destruct (Z.compare_spec e (-50)); try lia; discriminate. }
    unfold F32.of_double.
    pose proof (binary_round_rounded F32.prec F32.emax ltac:(done) false m e) as Hr.
    unfold F64.prec, F32.prec, F32.emax, fexp, emin in *.
    destruct Hr as [->|[[_ HB]|(m' & e' & -> & _)]]; try done.
    exfalso. lia.
Qed.

(** A decidable property of the 256 sample values is checked by running it. *)
Lemma samples_forall (P : Z → bool) :
  forallb P (seqZ 0 256) = true → ∀ v, 0 ≤ v ≤ 255 → P v = true.
Proof.
  intros H v Hv. rewrite forallb_forall in H. apply H.
  apply list_elem_of_In, elem_of_seqZ. lia.
Qed.

Lemma sub_128_finite v :
  0 ≤ v ≤ 255 → finite_or_zero (F32.sub (F32.of_Z v) (F32.of_Z 128)) = true.
Proof.
  revert v. apply (samples_forall (λ v, finite_or_zero (F32.sub (F32.of_Z v) (F32.of_Z 128)))).
  vm_compute. reflexivity.
Qed.

Lemma Ztrunc_np_clip y :
  shaped F32.prec y →
  ∃ z, Ztrunc (np_clip y (F32.of_Z 0) (F32.of_Z 255)) = Some z ∧ 0 ≤ z ≤ 255.
Proof.
  change (F32.of_Z 0) with (S754_zero false).
  change (F32.of_Z 255) with (S754_finite false 16711680 (-16)).
  intros Hy. destruct y as [s|s| |s m e]; try done.
  - exists 0. split; [reflexivity | lia].
  - destruct s; [exists 0 | exists 255]; split; try reflexivity; lia.
  - destruct s; [exists 0; split; [reflexivity | lia]|].
    simpl in Hy. unfold F32.prec in Hy.
    unfold np_clip, np_max, np_min, F32.ltb, SFltb. simpl is_nan. cbn [SFcompare].
    destruct (Z.compare_spec e (-16)) as [He|He|He].
    + subst e. rewrite compare_cont_Eq.
      destruct (Z.compare_spec (Z.pos m) 16711680) as [Hc|Hc|Hc].
      * exists 255. split; [reflexivity | lia].
      * exists (Z.pos m / 2 ^ 16). split; [reflexivity|].
        split; [apply Z.div_pos; lia|].
        assert (Z.pos m / 2 ^ 16 < 256) by (apply Z.div_lt_upper_bound; lia). lia.
      * exists 255. split; [reflexivity | lia].
    + exists (Z.pos m / 2 ^ (- e)). split.
      * simpl. destruct (Z.leb_spec 0 e); [lia | reflexivity].
      * assert (0 < 2 ^ (- e)) by (apply Z.pow_pos_nonneg; lia).
        split; [apply Z.div_pos; lia|].
        assert (2 ^ 17 ≤ 2 ^ (- e)) by (apply Z.pow_le_mono_r; lia).
        assert (Z.pos m / 2 ^ (- e) < 128); [|lia].
        apply Z.div_lt_upper_bound; lia.
    + exists 255. split; [reflexivity | lia].
Qed.

Lemma astype_uint8_Ztrunc x z :
  Ztrunc x = Some z → 0 ≤ z ≤ 255 → astype_uint8 x = z.
Proof.
  intros Hx Hz. unfold astype_uint8, astype_int32. rewrite Hx.
  destruct (Z.leb_spec (- 2 ^ 31) z), (Z.ltb_spec z (2 ^ 31)); simpl; try lia.
  apply Z.mod_small. lia.
Qed.

Lemma contrast_clipped_range contrast v :
  F64.valid contrast = true →
  SFleb f64_tenth contrast = true →
  SFleb contrast f64_five = true →
  0 ≤ v ≤ 255 →
  ∃ z, Ztrunc (contrast_clipped contrast v) = Some z ∧ 0 ≤ z ≤ 255 ∧
       adjust_contrast contrast v = z.
Proof.
  intros Hv Hlo Hhi Hrange.
  destruct (Ztrunc_np_clip
              (F32.add (F32.mul (F32.sub (F32.of_Z v) (F32.of_Z 128))
                                (F32.of_double contrast)) (F32.of_Z 128)))
    as (z & Hz & Hb).
  { apply SFadd_shaped; try done.
    apply SFmul_shaped; [done | by apply sub_128_finite | by apply of_double_finite]. }
  exists z. repeat split; try done; try lia.
  unfold adjust_contrast. apply astype_uint8_Ztrunc; done.
Qed.

Lemma quarters_check :
  forallb (λ k, forallb (λ v, adjust_contrast (quarter k) v =? exact_stretch k v) (seqZ 0 256))
          (seqZ 1 20) = true.
Proof. vm_compute. reflexivity. Qed.

(** ** Round to nearest even, exactly *)

Lemma rne_shift_range V k : V / 2 ^ k ≤ rne_shift V k ≤ V / 2 ^ k + 1.
Proof.
  unfold rne_shift.
  destruct (2 * (V mod 2 ^ k) <? 2 ^ k), (2 ^ k <? 2 * (V mod 2 ^ k)),
    (Z.even (V / 2 ^ k)); lia.
Qed.

Lemma rne_shift_exact V k : 0 ≤ k → V mod 2 ^ k = 0 → rne_shift V k = V / 2 ^ k.
Proof.
  intros Hk H. unfold rne_shift. rewrite H.
  assert (0 < 2 ^ k) by (apply Z.pow_pos_nonneg; lia).
  destruct (Z.ltb_spec (2 * 0) (2 ^ k)); [reflexivity | lia].
Qed.

Lemma rne_shift_mono V V' k : 0 ≤ k → V ≤ V' → rne_shift V k ≤ rne_shift V' k.
Proof.
  intros Hk HV.
  assert (0 < 2 ^ k) as Ha by (apply Z.pow_pos_nonneg; lia).
  pose proof (Z.div_le_mono V V' (2 ^ k) Ha HV) as Hq.
  destruct (Z.eq_dec (V / 2 ^ k) (V' / 2 ^ k)) as [Heq|Hne].
  - pose proof (Z.div_mod V (2 ^ k) ltac:(lia)) as E1.
    pose proof (Z.div_mod V' (2 ^ k) ltac:(lia)) as E2.
    unfold rne_shift. rewrite <- Heq in *.
    set (R := V mod 2 ^ k) in *. set (R' := V' mod 2 ^ k) in *.
    assert (R ≤ R') by lia.
    destruct (Z.ltb_spec (2 * R) (2 ^ k)), (Z.ltb_spec (2 ^ k) (2 * R)),
      (Z.ltb_spec (2 * R') (2 ^ k)), (Z.ltb_spec (2 ^ k) (2 * R')),
      (Z.even (V / 2 ^ k)); lia.
  - pose proof (rne_shift_range V k). pose proof (rne_shift_range V' k). lia.
Qed.

Lemma rne_shift_scale V k j :
  0 ≤ k → 0 ≤ j → rne_shift (V * 2 ^ j) (k + j) = rne_shift V k.
Proof.
  intros Hk Hj. unfold rne_shift.
  assert (0 < 2 ^ k) as Ha by (apply Z.pow_pos_nonneg; lia).
  assert (0 < 2 ^ j) as Hb by (apply Z.pow_pos_nonneg; lia).
  rewrite Z.pow_add_r by lia.
  rewrite Z.div_mul_cancel_r by lia.
  rewrite Z.mul_mod_distr_r by lia.
  set (R := V mod 2 ^ k). set (q := V / 2 ^ k).
  destruct (Z.ltb_spec (2 * R) (2 ^ k)), (Z.ltb_spec (2 * (R * 2 ^ j)) (2 ^ k * 2 ^ j));
    try nia; try reflexivity.
  destruct (Z.ltb_spec (2 ^ k) (2 * R)), (Z.ltb_spec (2 ^ k * 2 ^ j) (2 * (R * 2 ^ j)));
    try nia; reflexivity.
Qed.

Lemma round_shr_inv X k mrs :
  shr_inv X k mrs →
  round_nearest_even (shr_m mrs) (loc_of_shr_record mrs) = rne_shift X k.
Proof.
  intros (HX & Hk & Hm & Hr & Hs). destruct mrs as [m r s]. simpl in *.
  assert (0 < 2 ^ k) as Ha by (apply Z.pow_pos_nonneg; lia).
  pose proof (Z.mod_pos_bound X (2 ^ k) Ha) as HR.
  unfold rne_shift. rewrite <- Hm. set (R := X mod 2 ^ k) in *.
  destruct (Z.ltb_spec (2 * R) (2 ^ k)) as [H1|H1].
  - destruct (Z.leb_spec (2 ^ k) (2 * R)); [lia|]. subst r.
    destruct s; reflexivity.
  - destruct (Z.leb_spec (2 ^ k) (2 * R)); [|lia]. subst r.
    destruct (Z.ltb_spec (2 ^ k) (2 * R)) as [H2|H2].
    + assert ((2 * R) mod 2 ^ k = 2 * R - 2 ^ k) as Hmod.
      { symmetry. apply Z.mod_unique with 1; lia. }
      rewrite Hmod in Hs.
      destruct (Z.eqb_spec (2 * R - 2 ^ k) 0); [lia|]. subst s. reflexivity.
    + assert (2 * R = 2 ^ k) as Heq by lia.
      rewrite Heq, Z.mod_same in Hs by lia. subst s. reflexivity.
Qed.

Section Exact.
Variables prec emax : Z.
Hypothesis prec_pos : 0 < prec.

(** Rounding an exact positive value [M * 2^ex]: the mantissa is rounded
    to nearest-even at the format's exponent [E], and a carry out of the
    precision moves the exponent up by one without changing the value. *)
Lemma binary_round_aux_exact sx M ex :
  let E := fexp prec emax (Z.pos (digits2_pos M) + ex) in
  let e1 := Z.max ex E in
  let m1 := if E <=? ex then Z.pos M else rne_shift (Z.pos M) (E - ex) in
  ∃ m2 e2,
    binary_round_aux prec emax sx (Z.pos M) ex loc_Exact = finish prec emax sx m2 e2 ∧
    0 ≤ m2 ∧ e1 ≤ e2 ≤ e1 + 1 ∧ m2 * 2 ^ (e2 - e1) = m1.
Proof.
  intros E e1 m1.
  pose proof (Zdigits2_bounds M) as [HMlo HMhi].
  assert (emin prec emax ≤ E) as HEmin by (subst E; unfold fexp; lia).
  assert (Z.pos (digits2_pos M) + ex - prec ≤ E) as HEd by (subst E; unfold fexp; lia).
  (* stage 1 *)
  assert (∃ mrs', shr (shr_record_of_loc (Z.pos M) loc_Exact) ex (E - ex) = (mrs', e1) ∧
            round_nearest_even (shr_m mrs') (loc_of_shr_record mrs') = m1) as (mrs' & Hs1 & Hr1).
  { subst m1 e1. destruct (Z.leb_spec E ex) as [Hle|Hlt].
    - exists (shr_record_of_loc (Z.pos M) loc_Exact). split; [|reflexivity].
      rewrite Z.max_l by lia. destruct (E - ex) as [|p|p] eqn:Hn; try reflexivity. lia.
    - destruct (E - ex) as [|p|p] eqn:Hn; try lia.
      exists (SpecFloat.iter_pos shr_1 p (shr_record_of_loc (Z.pos M) loc_Exact)). split.
      + simpl. f_equal. lia.
      + apply round_shr_inv.
        pose proof (shr_inv_iter (Z.pos M) p 0 _ (shr_inv_init (Z.pos M) ltac:(lia))) as H.
        exact H. }
  assert (0 ≤ m1 ≤ 2 ^ prec) as Hm1.
  { subst m1. destruct (Z.leb_spec E ex) as [Hle|Hlt].
    - split; [lia|].
      assert (2 ^ Z.pos (digits2_pos M) ≤ 2 ^ prec) by (apply Z.pow_le_mono_r; lia). lia.
    - pose proof (rne_shift_range (Z.pos M) (E - ex)) as Hrg.
      assert (0 < 2 ^ (E - ex)) as Hp by (apply Z.pow_pos_nonneg; lia).
      assert (0 ≤ Z.pos M / 2 ^ (E - ex)) by (apply Z.div_pos; lia).
      assert (Z.pos M / 2 ^ (E - ex) < 2 ^ prec); [|lia].
      apply Z.div_lt_upper_bound; [lia|].
      rewrite <- Z.pow_add_r by lia.
      assert (2 ^ Z.pos (digits2_pos M) ≤ 2 ^ (E - ex + prec))
        by (apply Z.pow_le_mono_r; lia). lia. }
  (* stage 2 *)
  unfold binary_round_aux, shr_fexp.
  change (Zdigits2 (Z.pos M)) with (Z.pos (digits2_pos M)). fold E. rewrite Hs1, Hr1.
  set (n2 := fexp prec emax (Zdigits2 m1 + e1) - e1).
  pose proof (shr_spec (shr_record_of_loc m1 loc_Exact) e1 n2) as H2.
  rewrite shr_record_of_loc_m in H2. specialize (H2 ltac:(lia)).
  destruct (shr (shr_record_of_loc m1 loc_Exact) e1 n2) as [mrs'' e''].
  simpl in H2. destruct H2 as [Hm'' He''].
  assert (Zdigits2 m1 ≤ prec + 1) as Hd1.
  { apply Zdigits2_le; [lia | lia |]. rewrite Z.pow_add_r, Z.pow_1_r by lia. lia. }
  assert (emin prec emax ≤ e1) as He1 by (subst e1; lia).
  assert (n2 ≤ 1) as Hn2 by (subst n2; unfold fexp; lia).
  exists (shr_m mrs''), e''. split; [|split; [|split]].
  - unfold finish. reflexivity.
  - rewrite Hm''. apply Z.div_pos; [lia | apply Z.pow_pos_nonneg; lia].
  - lia.
  - rewrite Hm'', He''. replace (e1 + Z.max 0 n2 - e1) with (Z.max 0 n2) by lia.
    destruct (Z.le_gt_cases n2 0) as [Hle|Hgt].
    + rewrite Z.max_l by lia. rewrite Z.pow_0_r, Z.div_1_r. lia.
    + assert (n2 = 1) as Hn by lia. rewrite Z.max_r by lia. rewrite Hn, Z.pow_1_r.
      assert (prec + 1 ≤ Zdigits2 m1) as Hd by (subst n2; unfold fexp in Hn; lia).
      assert (0 < m1) as Hpos.
      { destruct (Z.eq_dec m1 0) as [Hz|]; [|lia]. rewrite Hz in Hd. simpl in Hd. lia. }
      pose proof (Zdigits2_lower m1 Hpos) as Hlow.
      assert (2 ^ prec ≤ 2 ^ (Zdigits2 m1 - 1)) by (apply Z.pow_le_mono_r; lia).
      assert (m1 = 2 ^ prec) as -> by lia.
      replace prec with (Z.succ (prec - 1)) at 1 2 by lia.
      rewrite Z.pow_succ_r by lia.
      rewrite (Z.mul_comm 2), Z.div_mul by lia. reflexivity.
Qed.

End Exact.

(** ** Rounding to significant bits is monotone *)

Lemma Zdigits2_unique m k : 0 < k → 2 ^ (k - 1) ≤ m < 2 ^ k → Zdigits2 m = k.
Proof.
  intros Hk [Hlo Hhi].
  assert (0 < m) as Hm by (pose proof (Z.pow_pos_nonneg 2 (k - 1)); lia).
  pose proof (Zdigits2_le m k ltac:(lia) ltac:(lia) Hhi) as H1.
  pose proof (Zdigits2_upper m ltac:(lia)) as H2.
  pose proof (Zdigits2_nonneg m ltac:(lia)) as H3.
  destruct (Z.le_gt_cases k (Zdigits2 m)) as [|Hgt]; [lia|].
  assert (2 ^ Zdigits2 m ≤ 2 ^ (k - 1)) by (apply Z.pow_le_mono_r; lia). lia.
Qed.

Lemma Zdigits2_shift m j : 0 < m → 0 ≤ j → Zdigits2 (m * 2 ^ j) = Zdigits2 m + j.
Proof.
  intros Hm Hj.
  pose proof (Zdigits2_lower m Hm) as Hlo. pose proof (Zdigits2_upper m ltac:(lia)) as Hhi.
  assert (0 < Zdigits2 m) as Hd by (destruct m; simpl; lia).
  assert (0 < 2 ^ j) by (apply Z.pow_pos_nonneg; lia).
  apply Zdigits2_unique; [lia|].
  replace (Zdigits2 m + j - 1) with (Zdigits2 m - 1 + j) by lia.
  rewrite !Z.pow_add_r by lia. nia.
Qed.

Lemma pow2_mod_0 n k : 0 ≤ k ≤ n → 2 ^ n mod 2 ^ k = 0.
Proof.
  intros H. replace n with (n - k + k) by lia.
  rewrite Z.pow_add_r by lia. apply Z.mod_mul.
  assert (0 < 2 ^ k) by (apply Z.pow_pos_nonneg; lia). lia.
Qed.

Lemma round_grid_mono V V' k : 0 ≤ k → V ≤ V' → round_grid V k ≤ round_grid V' k.
Proof.
  intros Hk HV. unfold round_grid.
  assert (0 < 2 ^ k) by (apply Z.pow_pos_nonneg; lia).
  pose proof (rne_shift_mono V V' k Hk HV). nia.
Qed.

Lemma round_grid_fix B k : 0 ≤ k → B mod 2 ^ k = 0 → round_grid B k = B.
Proof.
  intros Hk HB. unfold round_grid. rewrite rne_shift_exact by done.
  assert (0 < 2 ^ k) by (apply Z.pow_pos_nonneg; lia).
  pose proof (Z.div_mod B (2 ^ k) ltac:(lia)). lia.
Qed.

Lemma round_sig_mono p k0 V V' :
  0 < p → 0 ≤ k0 → 0 ≤ V ≤ V' → round_sig p k0 V ≤ round_sig p k0 V'.
Proof.
  intros Hp Hk0 [HV HVV']. unfold round_sig.
  pose proof (Zdigits2_mono V V' ltac:(lia)) as Hd.
  set (K := Z.max (Zdigits2 V - p) k0). set (K' := Z.max (Zdigits2 V' - p) k0).
  destruct (Z.eq_dec K K') as [<-|Hne].
  - apply round_grid_mono; subst K; lia.
  - assert (K < K') as Hlt by (subst K K'; lia).
    assert (0 < V') as HV'.
    { destruct (Z.eq_dec V' 0) as [Hz|]; [|lia]. subst K K'. rewrite Hz in *.
      assert (V = 0) as -> by lia. lia. }
    set (B := 2 ^ (Zdigits2 V' - 1)).
    assert (Zdigits2 V ≤ Zdigits2 V' - 1) as Hdd by (subst K K'; lia).
    pose proof (Zdigits2_nonneg V HV) as HdV.
    assert (V ≤ B).
    { pose proof (Zdigits2_upper V HV).
      assert (2 ^ Zdigits2 V ≤ B) by (apply Z.pow_le_mono_r; lia). lia. }
    assert (B ≤ V') by (apply Zdigits2_lower; lia).
    assert (round_grid B K = B) as HB1.
    { apply round_grid_fix; [subst K; lia|]. apply pow2_mod_0. subst K K'. lia. }
    assert (round_grid B K' = B) as HB2.
    { apply round_grid_fix; [subst K'; lia|]. apply pow2_mod_0. subst K K'. lia. }
    pose proof (round_grid_mono V B K ltac:(subst K; lia) ltac:(lia)) as H1.
    pose proof (round_grid_mono B V' K' ltac:(subst K'; lia) ltac:(lia)) as H2.
    rewrite HB1 in H1. rewrite HB2 in H2. lia.
Qed.

Section Scaled.
Variables prec emax : Z.
Hypothesis prec_pos : 0 < prec.

(** The rounded product of two exact values, read in units of [2^-s]. *)
Lemma binary_round_aux_scaled sx M ex s :
  0 ≤ ex + s → 0 ≤ emin prec emax + s →
  ∃ m2 e2,
    binary_round_aux prec emax sx (Z.pos M) ex loc_Exact = finish prec emax sx m2 e2 ∧
    0 ≤ m2 ∧ 0 ≤ e2 + s ∧
    e2 ≤ Z.max ex (fexp prec emax (Z.pos (digits2_pos M) + ex)) + 1 ∧
    m2 * 2 ^ (e2 + s) = round_sig prec (emin prec emax + s) (Z.pos M * 2 ^ (ex + s)).
Proof.
  intros Hex Hemin.
  destruct (binary_round_aux_exact prec emax prec_pos sx M ex)
    as (m2 & e2 & Heq & Hm2 & He2 & Hval).
  set (E := fexp prec emax (Z.pos (digits2_pos M) + ex)) in *.
  assert (emin prec emax ≤ E) as HEmin by (subst E; unfold fexp; lia).
  exists m2, e2. split; [exact Heq|]. split; [exact Hm2|]. split; [lia|]. split; [lia|].
  unfold round_sig.
  change (Z.pos (digits2_pos M)) with (Zdigits2 (Z.pos M)) in *.
  rewrite Zdigits2_shift by lia.
  replace (Z.max (Zdigits2 (Z.pos M) + (ex + s) - prec) (emin prec emax + s))
    with (E + s) by (subst E; unfold fexp; lia).
  replace (e2 + s) with (e2 - Z.max ex E + (Z.max ex E + s)) by lia.
  rewrite Z.pow_add_r by lia. rewrite Z.mul_assoc, Hval.
  destruct (Z.leb_spec E ex) as [Hle|Hlt].
  - rewrite Z.max_l by lia. symmetry. apply round_grid_fix; [lia|].
    replace (ex + s) with (ex - E + (E + s)) by lia.
    rewrite Z.pow_add_r, Z.mul_assoc by lia. apply Z.mod_mul.
    assert (0 < 2 ^ (E + s)) by (apply Z.pow_pos_nonneg; lia). lia.
  - rewrite Z.max_r by lia. unfold round_grid. f_equal.
    replace (E + s) with (E - ex + (ex + s)) at 1 by lia.
    symmetry. apply rne_shift_scale; lia.
Qed.

Lemma Ztrunc_finish m2 e2 s :
  0 ≤ m2 → 0 ≤ s → 0 ≤ e2 + s → e2 ≤ emax - prec →
  Ztrunc (finish prec emax false m2 e2) = Some (m2 * 2 ^ (e2 + s) / 2 ^ s).
Proof.
  intros Hm Hs Hes Hee. unfold finish.
  assert (0 < 2 ^ s) by (apply Z.pow_pos_nonneg; lia).
  destruct m2 as [|p|p]; try lia.
  - simpl. now rewrite Z.div_0_l by lia.
  - destruct (Z.leb_spec e2 (emax - prec)); [|lia]. simpl. f_equal.
    destruct (Z.leb_spec 0 e2).
    + rewrite Z.pow_add_r by lia. rewrite Z.mul_assoc, Z.div_mul by lia. reflexivity.
    + assert (0 < 2 ^ (e2 + s)) by (apply Z.pow_pos_nonneg; lia).
      assert (0 < 2 ^ (- e2)) by (apply Z.pow_pos_nonneg; lia).
      replace s with (- e2 + (e2 + s)) at 2 by lia.
      rewrite (Z.pow_add_r 2 (- e2)), Z.div_mul_cancel_r; lia.
Qed.

End Scaled.

(** ** The ramp index on the unit interval *)

Lemma unit_f32_cases x :
  unit_f32 x = true →
  (∃ s, x = S754_zero s) ∨
  ∃ m e, x = S754_finite false m e ∧ -149 ≤ e ∧ Z.pos m < 2 ^ 24 ∧
         (-149 < e → 2 ^ 23 ≤ Z.pos m) ∧
         Z.pos m * 2 ^ (e + 149) ≤ 2 ^ 149.
Proof.
  unfold unit_f32. intros [[Hv H0]%andb_prop H1]%andb_prop.
  destruct x as [s|s| |s m e]; try done.
  - left. by exists s.
  - destruct s; done.
  - destruct s; [done|]. right. exists m, e. split; [done|].
    pose proof Hv as Hcanon.
    apply valid_binary_digits in Hv as (Hd & He & _).
    unfold F32.valid in Hcanon. simpl in Hcanon.
    unfold bounded, canonical_mantissa, fexp in Hcanon.
    apply andb_prop in Hcanon as [Hcanon%Z.eqb_eq _].
    unfold F32.prec, F32.emax, emin in *.
    pose proof (Zdigits2_bounds m) as [Hmlo Hm].
    assert (2 ^ Z.pos (digits2_pos m) ≤ 2 ^ 24) by (apply Z.pow_le_mono_r; lia).
    split; [lia|]. split; [lia|]. split.
    { intros Hgt. assert (Z.pos (digits2_pos m) = 24) as Hd24 by lia.
      rewrite Hd24 in Hmlo. exact Hmlo. }
    change (F32.of_Z 1) with (S754_finite false 8388608 (-23)) in H1.
    unfold SFleb, SFcompare in H1.
    destruct (Z.compare_spec e (-23)) as [->|Hlt|Hgt]; try done.
    + rewrite compare_cont_Eq in H1.
      destruct (Z.compare_spec (Z.pos m) 8388608); try done; try lia.
    + assert (2 ^ (e + 149) ≤ 2 ^ 125) by (apply Z.pow_le_mono_r; lia).
      assert (0 < 2 ^ (e + 149)) by (apply Z.pow_pos_nonneg; lia).
      change (2 ^ 149) with (2 ^ 24 * 2 ^ 125). nia.
Qed.

Lemma f32_scaled_nonneg x : 0 ≤ f32_scaled x.
Proof.
  destruct x as [| | |[] m e]; simpl; try lia;
    pose proof (Z.pow_nonneg 2 (e + 149)); lia.
Qed.

(** On the unit interval the comparison of the format is the order of the
    values. *)
Lemma SFleb_scaled x y :
  unit_f32 x = true → unit_f32 y = true → SFleb x y = true →
  f32_scaled x ≤ f32_scaled y.
Proof.
  intros Hx Hy Hxy.
  destruct (unit_f32_cases x Hx) as [[sx ->]|(mx & ex & -> & Hex & Hmx & Hnx & _)].
  { apply f32_scaled_nonneg. }
  destruct (unit_f32_cases y Hy) as [[sy ->]|(my & ey & -> & Hey & Hmy & Hny & _)].
  { done. }
  simpl. unfold SFleb, SFcompare in Hxy.
  destruct (Z.compare_spec ex ey) as [->|Hlt|Hgt]; try done.
  - rewrite compare_cont_Eq in Hxy.
    assert (0 ≤ 2 ^ (ey + 149)) by (apply Z.pow_nonneg; lia).
    destruct (Z.compare_spec (Z.pos mx) (Z.pos my)); try done; nia.
  - specialize (Hny ltac:(lia)).
    assert (0 < 2 ^ (ex + 149)) by (apply Z.pow_pos_nonneg; lia).
    assert (2 ^ (ey + 149) = 2 ^ (ey - ex - 1) * (2 * 2 ^ (ex + 149))) as ->.
    { rewrite <- Z.pow_succ_r, <- Z.pow_add_r by lia. f_equal. lia. }
    assert (1 ≤ 2 ^ (ey - ex - 1)) by (pose proof (Z.pow_pos_nonneg 2 (ey - ex - 1)); lia).
    set (a := 2 ^ (ex + 149)) in *. set (P := 2 ^ (ey - ex - 1)) in *.
    assert (Z.pos mx * a ≤ 2 ^ 24 * a) by nia.
    assert (2 ^ 23 ≤ Z.pos my * P) by nia.
    assert (2 ^ 23 * (2 * a) ≤ Z.pos my * P * (2 * a)) by (apply Z.mul_le_mono_nonneg_r; lia).
    change (2 ^ 24) with (2 * 2 ^ 23) in *. lia.
Qed.

Lemma f32_of_69 : F32.of_Z (char_length - 1) = S754_finite false 9043968 (-17).
Proof. vm_compute. reflexivity. Qed.

Lemma round_sig_69 : round_sig 24 17 (9043968 * 2 ^ 149) = 69 * 2 ^ 166.
Proof. vm_compute. reflexivity. Qed.

Lemma round_sig_nonneg p k0 V : 0 < p → 0 ≤ k0 → 0 ≤ V → 0 ≤ round_sig p k0 V.
Proof.
  intros Hp Hk HV.
  assert (round_sig p k0 0 = 0) as H0.
  { unfold round_sig, round_grid. simpl Zdigits2.
    rewrite rne_shift_exact; [| lia | apply Z.mod_0_l].
    - rewrite Z.div_0_l; [lia|]. 
      assert (0 < 2 ^ Z.max (0 - p) k0) by (apply Z.pow_pos_nonneg; lia). lia.
    - assert (0 < 2 ^ Z.max (0 - p) k0) by (apply Z.pow_pos_nonneg; lia). lia. }
  rewrite <- H0. apply round_sig_mono; lia.
Qed.

(** The index of a corrected sample of the unit interval, in closed form:
    69 times the sample, rounded to 24 significant bits, then floored. *)
Lemma ramp_index_unit y :
  unit_f32 y = true →
  ramp_index y = round_sig 24 17 (9043968 * f32_scaled y) / 2 ^ 166.
Proof.
  intros Hy. unfold ramp_index. rewrite f32_of_69.
  destruct (unit_f32_cases y Hy) as [[s ->]|(m & e & -> & He & Hm & _ & Hle)].
  { destruct s; vm_compute; reflexivity. }
  unfold F32.mul, SFmul. simpl xorb. cbn [f32_scaled].
  destruct (binary_round_aux_scaled F32.prec F32.emax ltac:(done) false
              (m * 9043968) (e + -17) 166)
    as (m2 & e2 & Heq & Hm2 & He2 & HB & HW).
  { lia. } { unfold emin, F32.prec, F32.emax. lia. }
  rewrite Heq.
  change (emin F32.prec F32.emax + 166) with 17 in HW.
  change F32.prec with 24 in *. change F32.emax with 128 in *.
  assert (Z.pos (m * 9043968) * 2 ^ (e + -17 + 166) = 9043968 * (Z.pos m * 2 ^ (e + 149))) as HV.
  { rewrite Pos2Z.inj_mul. replace (e + -17 + 166) with (e + 149) by lia. lia. }
  rewrite HV in HW.
  set (V := 9043968 * (Z.pos m * 2 ^ (e + 149))) in *.
  assert (0 < 2 ^ (e + 149)) as Hpe by (apply Z.pow_pos_nonneg; lia).
  assert (0 < V ≤ 9043968 * 2 ^ 149) as HVr by (subst V; nia).
  pose proof (round_sig_mono 24 17 V (9043968 * 2 ^ 149) ltac:(lia) ltac:(lia) ltac:(lia)) as Hup.
  rewrite round_sig_69 in Hup.
  pose proof (round_sig_nonneg 24 17 V ltac:(lia) ltac:(lia) ltac:(lia)) as Hlo.
  assert (e2 ≤ 128 - 24) as He2'.
  { assert (Zdigits2 (Z.pos (m * 9043968)) + (e + -17 + 166) ≤ 173) as Hd.
    { rewrite <- Zdigits2_shift by lia. rewrite HV.
      apply Zdigits2_le; [lia | lia |].
      change (2 ^ 173) with (128 * 2 ^ 166). change (2 ^ 149) with (2 ^ 149) in HVr.
      assert (9043968 * 2 ^ 149 = 69 * 2 ^ 166) as Hc by reflexivity.
      assert (0 < 2 ^ 166) by (apply Z.pow_pos_nonneg; lia). lia. }
    assert (1 ≤ Zdigits2 (Z.pos (m * 9043968))) by (simpl; lia).
    simpl Zdigits2 in Hd. unfold fexp, emin in HB. lia. }
  unfold astype_int32.
  rewrite (Ztrunc_finish 24 128 m2 e2 166) by (try done; lia).
  rewrite HW.
  assert (0 < 2 ^ 166) by (apply Z.pow_pos_nonneg; lia).
  assert (0 ≤ round_sig 24 17 V / 2 ^ 166) by (apply Z.div_pos; lia).
  assert (round_sig 24 17 V / 2 ^ 166 ≤ 69).
  { apply Z.div_le_upper_bound; lia. }
  destruct (Z.leb_spec (- 2 ^ 31) (round_sig 24 17 V / 2 ^ 166)),
    (Z.ltb_spec (round_sig 24 17 V / 2 ^ 166) (2 ^ 31)); simpl; lia.
Qed.

Lemma ramp_index_range y : unit_f32 y = true → 0 ≤ ramp_index y ≤ char_length - 1.
Proof.
  intros Hy. rewrite ramp_index_unit by done.
  assert (0 ≤ f32_scaled y ≤ 2 ^ 149) as Hs.
  { split; [apply f32_scaled_nonneg|].
    destruct (unit_f32_cases y Hy) as [[s ->]|(m & e & -> & _ & _ & _ & Hle)]; simpl; lia. }
  assert (0 < 2 ^ 166) by (apply Z.pow_pos_nonneg; lia).
  pose proof (round_sig_nonneg 24 17 (9043968 * f32_scaled y) ltac:(lia) ltac:(lia) ltac:(lia)).
  pose proof (round_sig_mono 24 17 (9043968 * f32_scaled y) (9043968 * 2 ^ 149)
                ltac:(lia) ltac:(lia) ltac:(lia)) as Hup.
  rewrite round_sig_69 in Hup.
  split; [apply Z.div_pos; lia|].
  change (char_length - 1) with 69.
  apply Z.div_le_upper_bound; lia.
Qed.

Lemma ramp_index_mono x y :
  unit_f32 x = true → unit_f32 y = true → SFleb x y = true →
  ramp_index x ≤ ramp_index y.
Proof.
  intros Hx Hy Hxy. rewrite !ramp_index_unit by done.
  pose proof (SFleb_scaled x y Hx Hy Hxy) as Hs.
  pose proof (f32_scaled_nonneg x).
  apply Z.div_le_mono; [apply Z.pow_pos_nonneg; lia|].
  apply round_sig_mono; lia.
Qed.

(** ** The new height *)

Section Division.
Variables prec emax : Z.
Hypothesis prec_pos : 0 < prec.

(** The integer quotient handed to the rounding step is non-negative and
    no larger in magnitude than the dividend over [2^e2]. *)
Lemma SFdiv_core_binary_spec m1 e1 m2 e2 :
  let '(q, e', _) := SFdiv_core_binary prec emax (Z.pos m1) e1 (Z.pos m2) e2 in
  0 ≤ q ∧ e' ≤ e1 - e2 ∧ Zdigits2 q + e' ≤ Z.pos (digits2_pos m1) + e1 - e2.
Proof.
  unfold SFdiv_core_binary.
  set (e' := Z.min (fexp prec emax (Zdigits2 (Z.pos m1) + e1 - (Zdigits2 (Z.pos m2) + e2)))
                   (e1 - e2)).
  set (s := e1 - e2 - e').
  assert (0 ≤ s) as Hs by (subst s e'; lia).
  set (m' := match s with Z.pos _ => Z.shiftl (Z.pos m1) s | 0 => Z.pos m1 | Z.neg _ => 0 end).
  assert (m' = Z.pos m1 * 2 ^ s) as Hm'.
  { subst m'. destruct s as [|p|p] eqn:Hsp; try lia.
    rewrite Z.shiftl_mul_pow2 by lia. reflexivity. }
  destruct (Z.div_eucl m' (Z.pos m2)) as [q r] eqn:Hdiv.
  assert (q = m' / Z.pos m2) as Hq by (unfold Z.div; now rewrite Hdiv).
  assert (0 < 2 ^ s) by (apply Z.pow_pos_nonneg; lia).
  assert (0 ≤ q) as Hq0 by (rewrite Hq; apply Z.div_pos; lia).
  assert (q ≤ m') as Hqm.
  { rewrite Hq. apply Z.div_le_upper_bound; [lia|]. nia. }
  split; [done|]. split; [subst e'; lia|].
  pose proof (Zdigits2_mono q m' ltac:(lia)) as Hd.
  rewrite Hm', Zdigits2_shift in Hd by lia. simpl Zdigits2 in Hd. lia.
Qed.

End Division.

Lemma rounded_nonneg_le B x :
  B ≤ 971 → rounded F64.prec F64.emax false B x → nonneg_le B x.
Proof.
  unfold F64.prec, F64.emax.
  intros HB [->|[[_ H]|(m & e & -> & Hm & He & _)]].
  - now left.
  - lia.
  - right. by exists m, e.
Qed.

Lemma py_truediv_nonneg h w :
  0 ≤ h < 2 ^ 31 → 1 ≤ w →
  ∃ x, py_truediv h w = Ok x ∧ nonneg_le 1 x.
Proof.
  intros Hh Hw. unfold py_truediv.
  destruct (Z.eqb_spec w 0) as [|_]; [lia|].
  destruct w as [|mw|mw]; try lia.
  destruct h as [|mh|mh]; try lia.
  { exists (S754_zero false). split; [reflexivity | now left]. }
  unfold F64.div, SFdiv. simpl xorb.
  pose proof (SFdiv_core_binary_spec F64.prec F64.emax mh 0 mw 0) as Hcore.
  destruct (SFdiv_core_binary F64.prec F64.emax (Z.pos mh) 0 (Z.pos mw) 0) as [[mz ez] lz].
  destruct Hcore as (Hmz & Hez & Hdig).
  assert (Z.pos (digits2_pos mh) ≤ 31) as Hd
    by (apply (Zdigits2_le (Z.pos mh) 31); lia).
  pose proof (binary_round_aux_rounded F64.prec F64.emax ltac:(done) false mz ez lz Hmz) as Hr.
  apply (rounded_weaken F64.prec F64.emax ltac:(done) _ _ 1) in Hr;
    [|unfold fexp, emin, F64.prec, F64.emax; lia].
  apply rounded_nonneg_le in Hr; [|lia].
  destruct Hr as [->|(m & e & -> & Hm & He)].
  - exists (S754_zero false). split; [reflexivity | now left].
  - exists (S754_finite false m e). split; [reflexivity|]. right. by exists m, e.
Qed.

Lemma py_float_nonneg n :
  1 ≤ n < 2 ^ 31 → ∃ x, py_float n = Ok x ∧ nonneg_le 1 x.
Proof.
  intros Hn. unfold py_float, F64.of_Z. destruct n as [|p|p]; try lia.
  simpl binary_normalize.
  assert (Z.pos (digits2_pos p) ≤ 31) as Hd
    by (apply (Zdigits2_le (Z.pos p) 31); lia).
  pose proof (binary_round_rounded F64.prec F64.emax ltac:(done) false p 0) as Hr.
  apply (rounded_weaken F64.prec F64.emax ltac:(done) _ _ 1) in Hr;
    [|unfold fexp, emin, F64.prec, F64.emax; lia].
  apply rounded_nonneg_le in Hr; [|lia].
  destruct Hr as [->|(m & e & -> & Hm & He)].
  - exists (S754_zero false). split; [reflexivity | now left].
  - exists (S754_finite false m e). split; [reflexivity|]. right. by exists m, e.
Qed.

Lemma F64_mul_nonneg B1 B2 x y :
  nonneg_le B1 x → nonneg_le B2 y → -1074 ≤ B1 + B2 + 53 → B1 + B2 + 54 ≤ 971 →
  nonneg_le (B1 + B2 + 54) (F64.mul x y).
Proof.
  intros [->|(m1 & e1 & -> & Hm1 & He1)] [->|(m2 & e2 & -> & Hm2 & He2)] Hlo Hhi;
    try (now left).
  unfold F64.mul, SFmul. simpl xorb.
  pose proof (binary_round_aux_rounded F64.prec F64.emax ltac:(done) false
                (Z.pos (m1 * m2)) (e1 + e2) loc_Exact ltac:(lia)) as Hr.
  assert (Zdigits2 (Z.pos (m1 * m2)) ≤ 106) as Hd.
  { apply Zdigits2_le; [lia | lia |]. rewrite Pos2Z.inj_mul.
    change (2 ^ 106) with (2 ^ 53 * 2 ^ 53). nia. }
  apply (rounded_weaken F64.prec F64.emax ltac:(done) _ _ (B1 + B2 + 54)) in Hr;
    [|unfold fexp, emin, F64.prec, F64.emax; lia].
  apply rounded_nonneg_le in Hr; [done | lia].
Qed.

Lemma py_int_nonneg B x : nonneg_le B x → ∃ z, py_int x = Ok z ∧ 0 ≤ z.
Proof.
  intros [->|(m & e & -> & _)].
  - exists 0. split; [reflexivity | lia].
  - simpl. eexists. split; [reflexivity|].
    destruct (Z.leb_spec 0 e).
    + assert (0 ≤ 2 ^ e) by (apply Z.pow_nonneg; lia). lia.
    + apply Z.div_pos; [lia | apply Z.pow_pos_nonneg; lia].
Qed.

Lemma scaled_height_nonneg width height output_width :
  1 ≤ width → 0 ≤ height < 2 ^ 31 → 1 ≤ output_width < 2 ^ 31 →
  ∃ x, scaled_height width height output_width = Ok x ∧ nonneg_le 57 x.
Proof.
  intros Hw Hh How. unfold scaled_height.
  destruct (py_truediv_nonneg height width Hh Hw) as (a & -> & Ha).
  destruct (py_float_nonneg output_width How) as (f & -> & Hf).
  cbn [mbind result_bind mret result_ret].
  pose proof (F64_mul_nonneg 1 1 f a Hf Ha ltac:(lia) ltac:(lia)) as H1.
  assert (nonneg_le (-53) F64.half) as Hhalf.
  { right. exists 4503599627370496%positive, (-53). repeat split; lia. }
  pose proof (F64_mul_nonneg _ _ _ _ H1 Hhalf ltac:(lia) ltac:(lia)) as H2.
  eexists. split; [reflexivity | exact H2].
Qed.

Lemma new_height_nonneg width height output_width :
  1 ≤ width → 0 ≤ height < 2 ^ 31 → 1 ≤ output_width < 2 ^ 31 →
  ∃ nh, new_height width height output_width = Ok nh ∧ 0 ≤ nh.
Proof.
  intros Hw Hh How. unfold new_height.
  destruct (scaled_height_nonneg width height output_width Hw Hh How) as (x & -> & Hx).
  cbn [mbind result_bind]. eapply py_int_nonneg. exact Hx.
Qed.

(** ** Streams, lines and the converter pipeline *)

Lemma mapM_result_ok {A B} (f : A → result B) (l : list A) :
  Forall (λ x, is_ok (f x) = true) l →
  ∃ l', mapM f l = Ok l' ∧ length l' = length l.
Proof.
  induction 1 as [|x l Hx _ (l' & IH & Hlen)]; simpl.
  - exists []. done.
  - destruct (f x) as [y|e] eqn:Hf; [|done].
    exists (y :: l'). cbn. rewrite IH. cbn. split; [done | by rewrite Hlen].
Qed.

Lemma py_getitem_ok {A} (s : list A) (i : Z) :
  0 ≤ i < Z.of_nat (length s) → is_ok (py_getitem s i) = true.
Proof.
  intros Hi. unfold py_getitem.
  destruct (Z.ltb_spec i 0); [lia|].
  destruct (Z.leb_spec 0 i), (Z.ltb_spec i (Z.of_nat (length s))); try lia. simpl.
  destruct (s !! Z.to_nat i) eqn:Hl; [done|].
  apply lookup_ge_None in Hl. lia.
Qed.

Lemma py_slice_length {A} (s : list A) (lo w : nat) :
  (lo + w ≤ length s)%nat → length (py_slice s lo (lo + w)) = w.
Proof.
  intros H. unfold py_slice. rewrite length_take, length_drop. lia.
Qed.

(** Cutting a stream of [w * n] characters into slices of [w]. *)
Lemma split_lines_exact (s : text) (output_width : Z) (n : nat) :
  1 ≤ output_width →
  length s = (Z.to_nat output_width * n)%nat →
  ∃ lines, split_lines s output_width = Ok lines ∧
           length lines = n ∧
           Forall (λ l, length l = Z.to_nat output_width) lines ∧
           concat lines = s.
Proof.
  intros Hw Hlen. unfold split_lines, py_range_len.
  destruct (Z.eqb_spec output_width 0); [lia|].
  destruct (Z.ltb_spec output_width 0); [lia|].
  set (w := Z.to_nat output_width) in *.
  assert (0 < w)%nat as Hw0 by lia.
  assert (Z.to_nat ((Z.of_nat (length s) + output_width - 1) / output_width) = n) as ->.
  { rewrite Hlen. replace output_width with (Z.of_nat w) by lia.
    rewrite Nat2Z.inj_mul.
    replace (Z.of_nat w * Z.of_nat n + Z.of_nat w - 1)
      with (Z.of_nat n * Z.of_nat w + (Z.of_nat w - 1)) by lia.
    rewrite Z.div_add_l by lia. rewrite Z.div_small by lia. lia. }
  cbn. eexists. split; [reflexivity|].
  split; [by rewrite length_map, length_seq|].
  split.
  - apply Forall_forall. intros l [k [-> Hk]]%list_elem_of_fmap.
    apply elem_of_seq in Hk. apply py_slice_length. nia.
  - clear Hw n0 H. revert s Hlen. induction n as [|n IH]; intros s Hlen.
    + simpl. destruct s; [done | simpl in Hlen; lia].
    + transitivity (take w s ++ drop w s); [|apply take_drop].
      cbn [seq map concat]. f_equal.
      * unfold py_slice. simpl. f_equal. lia.
      * rewrite <- (IH (drop w s)) by (rewrite length_drop; lia).
        f_equal. rewrite <- fmap_S_seq. rewrite <- list_fmap_compose.
        apply list_fmap_ext. intros _ k _. cbn [compose]. unfold py_slice.
        rewrite drop_drop.
        replace (S k * w + w - S k * w)%nat with w by lia.
        replace (k * w + w - k * w)%nat with w by lia.
        do 2 f_equal; lia.
Qed.

Section Converter_facts.
Variable lanczos : resampler.
Variable powf : spec_float → spec_float → spec_float.
Variable Image_open : string → result image.

Lemma clip8_range z : 0 ≤ clip8 z ≤ 255.
Proof. unfold clip8. lia. Qed.

Lemma astype_uint8_range x : 0 ≤ astype_uint8 x ≤ 255.
Proof.
  unfold astype_uint8.
  pose proof (Z.mod_pos_bound (astype_int32 x) 256 ltac:(lia)). lia.
Qed.

Lemma apply_contrast_wf contrast img :
  length (im_pixels img) = (im_width img * im_height img)%nat →
  wf_image (apply_contrast contrast img).
Proof.
  intros H. split; simpl.
  - by rewrite length_map.
  - apply Forall_forall. intros p [v [-> _]]%list_elem_of_fmap.
    apply astype_uint8_range.
Qed.

Lemma c_int_range z : - 2 ^ 31 ≤ z < 2 ^ 31 → c_int z = true.
Proof.
  intros Hz. unfold c_int.
  destruct (Z.leb_spec (- 2 ^ 31) z); [|lia].
  destruct (Z.ltb_spec z (2 ^ 31)); [done | lia].
Qed.

(** A successful resize returns an image of exactly the requested size. *)
Lemma Image_resize_ok img xsize ysize :
  wf_image img → 1 ≤ xsize → 1 ≤ ysize →
  resizable lanczos img xsize ysize = true →
  ∃ img', Image_resize lanczos img (xsize, ysize) = Ok img' ∧
          im_width img' = Z.to_nat xsize ∧ im_height img' = Z.to_nat ysize ∧
          wf_image img'.
Proof.
  intros [Hlen Hpix] Hx Hy. unfold resizable, Image_resize.
  destruct ((xsize =? Z.of_nat (im_width img)) && (ysize =? Z.of_nat (im_height img)))
    eqn:Hid; cbn [orb].
  - intros _. apply andb_prop in Hid as [Hxe%Z.eqb_eq Hye%Z.eqb_eq].
    exists img. repeat split; try done; lia.
  - intros [[-> ->]%andb_prop ->]%andb_prop. cbn [andb negb].
    destruct (Z.ltb_spec xsize 1), (Z.ltb_spec ysize 1); try lia. cbn [orb].
    eexists. split; [reflexivity|]. repeat split; simpl.
    + by rewrite length_map, length_seq.
    + apply Forall_forall. intros p [i [-> _]]%list_elem_of_fmap. apply clip8_range.
Qed.

(** A size below 1 that is not the image's own size is refused. *)
Lemma Image_resize_refused img xsize ysize :
  (xsize < 1 ∨ ysize < 1) →
  (xsize, ysize) ≠ (Z.of_nat (im_width img), Z.of_nat (im_height img)) →
  c_int xsize = true → c_int ysize = true →
  Image_resize lanczos img (xsize, ysize) = Raise resize_error.
Proof.
  intros Hlt Hne Hcx Hcy. unfold Image_resize. rewrite Hcx, Hcy. cbn [andb negb].
  destruct (Z.eqb_spec xsize (Z.of_nat (im_width img))) as [Hxe|_];
    [destruct (Z.eqb_spec ysize (Z.of_nat (im_height img))) as [Hye|_]|]; simpl.
  - congruence.
  - destruct (Z.ltb_spec xsize 1), (Z.ltb_spec ysize 1); try lia; reflexivity.
  - destruct (Z.ltb_spec xsize 1), (Z.ltb_spec ysize 1); try lia; reflexivity.
Qed.

(** A size of at least 1 that cannot be produced: the imaging core raises
    [OverflowError] when it does not fit its C [int]s, and [MemoryError]
    when the resampler cannot allocate it. *)
Lemma Image_resize_unfit img xsize ysize :
  1 ≤ xsize → 1 ≤ ysize →
  resizable lanczos img xsize ysize = false →
  Image_resize lanczos img (xsize, ysize)
  = Raise (if c_int xsize && c_int ysize then MemoryError else OverflowError).
Proof.
  intros Hx Hy. unfold resizable, Image_resize.
  destruct ((xsize =? Z.of_nat (im_width img)) && (ysize =? Z.of_nat (im_height img)));
    cbn [orb]; [done|].
  destruct (c_int xsize && c_int ysize); cbn [andb negb]; [|done].
  intros ->. cbn [negb].
  destruct (Z.ltb_spec xsize 1), (Z.ltb_spec ysize 1); try lia. reflexivity.
Qed.

(** No width below 1 is accepted for an image that has a column. *)
Lemma Image_resize_nonpositive img xsize ysize :
  xsize ≤ 0 → (1 ≤ im_width img)%nat →
  ∃ e, Image_resize lanczos img (xsize, ysize) = Raise e ∧
       (e = OverflowError ∨ e = resize_error).
Proof.
  intros Hx Hw. unfold Image_resize.
  destruct (Z.eqb_spec xsize (Z.of_nat (im_width img))) as [Hxe|_]; [lia|].
  cbn [andb].
  destruct (c_int xsize && c_int ysize); cbn [negb].
  - destruct (Z.ltb_spec xsize 1); [|lia]. cbn [orb].
    exists resize_error. split; [reflexivity | by right].
  - exists OverflowError. split; [reflexivity | by left].
Qed.

Lemma char_index_range gamma p :
  unit_f32 (gamma_corrected powf gamma p) = true →
  0 ≤ char_index powf gamma p ≤ char_length - 1.
Proof. apply ramp_index_range. Qed.

Lemma ascii_stream_ok img output_width contrast gamma nh :
  length (im_pixels img) = (im_width img * im_height img)%nat →
  1 ≤ output_width →
  new_height (Z.of_nat (im_width img)) (Z.of_nat (im_height img)) output_width = Ok nh →
  1 ≤ nh →
  resizable lanczos (apply_contrast contrast img) output_width nh = true →
  samples_in_unit powf gamma →
  ∃ s, ascii_stream lanczos powf img output_width contrast gamma = Ok s ∧
       length s = (Z.to_nat output_width * Z.to_nat nh)%nat.
Proof.
  intros Hlen How Hnh Hnh1 Hfit Hunit. unfold ascii_stream.
  change (im_width (apply_contrast contrast img)) with (im_width img).
  change (im_height (apply_contrast contrast img)) with (im_height img).
  rewrite Hnh. cbn [mbind result_bind].
  destruct (Image_resize_ok (apply_contrast contrast img) output_width nh
              (apply_contrast_wf contrast img Hlen) How Hnh1 Hfit)
    as (img' & -> & Hw' & Hh' & Hlen' & Hpix').
  cbn [mbind result_bind].
  destruct (mapM_result_ok (py_getitem ASCII_CHARS)
              (map (char_index powf gamma) (im_pixels img'))) as (s & Hs & Hslen).
  { apply Forall_forall. intros i [p [-> Hp]]%list_elem_of_fmap.
    apply py_getitem_ok. rewrite Forall_forall in Hpix'.
    pose proof (char_index_range gamma p (Hunit p (Hpix' p Hp))) as Hr.
    unfold char_length in Hr. lia. }
  exists s. split; [exact Hs|].
  rewrite Hslen, length_map, Hlen', Hw', Hh'. reflexivity.
Qed.

Lemma Image_resize_samples img size img' :
  Forall (λ p, 0 ≤ p ≤ 255) (im_pixels img) →
  Image_resize lanczos img size = Ok img' →
  Forall (λ p, 0 ≤ p ≤ 255) (im_pixels img').
Proof.
  intros Hpix. destruct size as [xsize ysize]. unfold Image_resize.
  destruct ((xsize =? Z.of_nat (im_width img)) && (ysize =? Z.of_nat (im_height img))).
  - intros [= <-]. exact Hpix.
  - destruct (negb (c_int xsize && c_int ysize)); [done|].
    destruct ((xsize <? 1) || (ysize <? 1)); [done|].
    destruct (negb (resample_alloc lanczos img xsize ysize)); [done|].
    intros [= <-]. simpl.
    apply Forall_forall. intros p [i [-> _]]%list_elem_of_fmap. apply clip8_range.
Qed.

Lemma ascii_stream_refused img output_width contrast gamma nh :
  new_height (Z.of_nat (im_width img)) (Z.of_nat (im_height img)) output_width = Ok nh →
  (output_width < 1 ∨ nh < 1) →
  (output_width, nh) ≠ (Z.of_nat (im_width img), Z.of_nat (im_height img)) →
  c_int output_width = true → c_int nh = true →
  ascii_stream lanczos powf img output_width contrast gamma = Raise resize_error.
Proof.
  intros Hnh Hlt Hne Hcx Hcy. unfold ascii_stream.
  change (im_width (apply_contrast contrast img)) with (im_width img).
  change (im_height (apply_contrast contrast img)) with (im_height img).
  rewrite Hnh. cbn [mbind result_bind].
  rewrite Image_resize_refused; done.
Qed.

End Converter_facts.

(** ** Fonts and the canvas *)

Section Renderer_facts.
Variable ImageFont_truetype : string → Z → result font.
Variable ImageFont_load_default : result font.
Variable png_encode : bitmap → result string.
Variable png_partial : bitmap → string.
Variable can_write : world → string → bool.





Lemma draw_lines_fold f fill ch lines : ∀ y img,
  let r := fold_left
             (λ '(y, img) line, ((y + ch)%nat, draw_text img (0%nat, y) line fill f))
             lines (y, img) in
  bm_mode (snd r) = bm_mode img ∧ bm_width (snd r) = bm_width img ∧
  bm_height (snd r) = bm_height img ∧ bm_background (snd r) = bm_background img ∧
  length (bm_ops (snd r)) = (length (bm_ops img) + length lines)%nat.
Proof.
  induction lines as [|l rest IH]; intros y img; simpl.
  - repeat split; lia.
  - destruct (IH (y + ch)%nat (draw_text img (0%nat, y) l fill f)) as (H1 & H2 & H3 & H4 & H5).
    simpl in *. rewrite H1, H2, H3, H4, H5. rewrite length_app. simpl.
    repeat split; lia.
Qed.

Lemma render_canvas_size f first rest bg_color text_color :
  ∃ img, render_canvas f (first :: rest) bg_color text_color = Ok img ∧
         bm_mode img = "RGB" ∧
         bm_width img = (fst (glyph_metrics f) * length first)%nat ∧
         bm_height img = (snd (glyph_metrics f) * length (first :: rest))%nat ∧
         bm_background img = bg_color ∧
         length (bm_ops img) = length (first :: rest).
Proof.
  unfold render_canvas. destruct (glyph_metrics f) as [cw ch] eqn:Hm.
  assert (py_getitem (first :: rest) 0 = Ok first) as ->.
  { unfold py_getitem. simpl length.
    destruct (Z.ltb_spec 0 0); [lia|].
    destruct (Z.leb_spec 0 0), (Z.ltb_spec 0 (Z.of_nat (S (length rest)))); try lia.
    reflexivity. }
  cbn [mbind result_bind mret result_ret].
  eexists. split; [reflexivity|].
  unfold draw_lines.
  pose proof (draw_lines_fold f text_color ch (first :: rest) 0%nat
                (set_fontmode "L" (Image_new "RGB" ((cw * length first)%nat,
                   (ch * length (first :: rest))%nat) bg_color))) as H.
  cbv zeta in H. destruct H as (H1 & H2 & H3 & H4 & H5).
  rewrite H1, H2, H3, H4, H5. simpl. repeat split; lia.
Qed.

Lemma render_canvas_empty f bg_color text_color :
  render_canvas f [] bg_color text_color = Raise IndexError.
Proof. unfold render_canvas. destruct (glyph_metrics f). reflexivity. Qed.

End Renderer_facts.

(** ** Directories *)

Lemma os_mkdir_dirs w name d :
  d ∈ fs_dirs (os_mkdir w name) ↔ d = name ∨ d ∈ fs_dirs w.
Proof. unfold os_mkdir. cbn. by rewrite elem_of_union, elem_of_singleton. Qed.

Lemma os_makedirs_frame can_mkdir heads : ∀ w name r w',
  os_makedirs can_mkdir w name heads = (r, w') →
  fs_files w' = fs_files w ∧
  (∀ d, d ∈ fs_dirs w → d ∈ fs_dirs w') ∧
  (∀ d, d ∈ fs_dirs w' → d = name ∨ d ∈ heads ∨ d ∈ fs_dirs w) ∧
  (r = Ok () → name ∈ fs_dirs w').
Proof.
  induction heads as [|head rest IH]; intros w name r w'; cbn [os_makedirs].
  - destruct (can_mkdir w name); intros [= <- <-].
    + split; [done|]. split; [|split].
      * intros d Hd. apply os_mkdir_dirs. by right.
      * intros d [->|Hd]%os_mkdir_dirs; [by left | by right; right].
      * intros _. apply os_mkdir_dirs. by left.
    + split; [done|]. split; [done|]. split; [|done]. intros d Hd. by right; right.
  - destruct (os_path_exists w head).
    + destruct (can_mkdir w name); intros [= <- <-].
      * split; [done|]. split; [|split].
        -- intros d Hd. apply os_mkdir_dirs. by right.
        -- intros d [->|Hd]%os_mkdir_dirs; [by left | by right; right].
        -- intros _. apply os_mkdir_dirs. by left.
      * split; [done|]. split; [done|]. split; [|done]. intros d Hd. by right; right.
    + destruct (os_makedirs can_mkdir w head rest) as [r1 w1] eqn:E.
      apply IH in E as (Hf & Hd1 & Hd2 & _).
      assert (∀ d, d ∈ fs_dirs w1 → d ∈ head :: rest ∨ d ∈ fs_dirs w) as Hd2'.
      { intros d [->|[Hd|Hd]]%Hd2.
        - left. apply elem_of_cons. by left.
        - left. apply elem_of_cons. by right.
        - by right. }
      destruct r1 as [[]|e].
      * destruct (can_mkdir w1 name); intros [= <- <-].
        -- split; [done|]. split; [|split].
           ++ intros d Hd. apply os_mkdir_dirs. right. by apply Hd1.
           ++ intros d [->|Hd]%os_mkdir_dirs; [by left|]. right. by apply Hd2'.
           ++ intros _. apply os_mkdir_dirs. by left.
        -- split; [done|]. split; [done|]. split; [|done].
           intros d Hd. right. by apply Hd2'.
      * intros [= <- <-]. split; [done|]. split; [done|]. split; [|done].
        intros d Hd. right. by apply Hd2'.
Qed.

Lemma ensure_output_dir_frame can_mkdir path_heads w output_dir r w' :
  AsciiArtUI.ensure_output_dir can_mkdir path_heads w output_dir = (r, w') →
  fs_files w' = fs_files w ∧
  (∀ d, d ∈ fs_dirs w → d ∈ fs_dirs w') ∧
  (∀ d, d ∈ fs_dirs w' →
        d = output_dir ∨ d ∈ path_heads output_dir ∨ d ∈ fs_dirs w) ∧
  (os_path_exists w output_dir = true → r = Ok () ∧ w' = w) ∧
  (r = Ok () → os_path_exists w' output_dir = true).
Proof.
  unfold AsciiArtUI.ensure_output_dir.
  destruct (os_path_exists w output_dir) eqn:Hex.
  - intros [= <- <-]. split; [done|]. split; [done|]. split; [|done].
    intros d Hd. by right; right.
  - intros (Hf & Hd1 & Hd2 & Hin)%os_makedirs_frame.
    split; [done|]. split; [done|]. split; [done|]. split; [done|].
    intros Hr. unfold os_path_exists. apply orb_true_iff. right.
    apply bool_decide_eq_true. by apply Hin.
Qed.

(** ** The error of the height computation *)

(** Rounding to nearest is off by at most half a step. *)
Lemma rne_shift_error V k :
  0 ≤ k → 2 * Z.abs (rne_shift V k * 2 ^ k - V) ≤ 2 ^ k.
Proof.
  intros Hk. unfold rne_shift.
  assert (0 < 2 ^ k) as Hp by (apply Z.pow_pos_nonneg; lia).
  pose proof (Z.div_mod V (2 ^ k) ltac:(lia)) as Hdm.
  pose proof (Z.mod_pos_bound V (2 ^ k) Hp) as HR.
  set (a := 2 ^ k) in *. set (q := V / a) in *. set (R := V mod a) in *.
  destruct (Z.ltb_spec (2 * R) a); [nia|].
  destruct (Z.ltb_spec a (2 * R)); [nia|].
  destruct (Z.even q); nia.
Qed.

Lemma round_sig_error p V :
  0 < p → 0 ≤ V → Z.abs (round_sig p 0 V - V) * 2 ^ p ≤ V.
Proof.
  intros Hp HV. unfold round_sig, round_grid.
  pose proof (Zdigits2_nonneg V HV) as Hd.
  destruct (Z.le_gt_cases (Zdigits2 V - p) 0) as [Hle|Hgt].
  - rewrite Z.max_r by lia. unfold rne_shift.
    rewrite Z.pow_0_r, Z.mod_1_r, Z.div_1_r. simpl. 
    replace (V * 1 - V) with 0 by lia. simpl. lia.
  - rewrite Z.max_l by lia.
    set (K := Zdigits2 V - p) in *.
    pose proof (rne_shift_error V K ltac:(lia)) as He.
    assert (0 < V) as HVpos.
    { destruct (Z.eq_dec V 0) as [->|]; [simpl in *; lia | lia]. }
    pose proof (Zdigits2_lower V HVpos) as Hlow.
    assert (2 ^ (Zdigits2 V - 1) = 2 ^ (K - 1) * 2 ^ p) as Hsplit.
    { rewrite <- Z.pow_add_r by lia. f_equal. lia. }
    assert (2 ^ K = 2 * 2 ^ (K - 1)) as HK.
    { replace K with (Z.succ (K - 1)) at 1 by lia. rewrite Z.pow_succ_r by lia. lia. }
    assert (0 < 2 ^ p) by (apply Z.pow_pos_nonneg; lia).
    assert (0 < 2 ^ (K - 1)) by (apply Z.pow_pos_nonneg; lia).
    nia.
Qed.

Lemma round_sig_exact p a j :
  0 < p → 0 ≤ a ≤ 2 ^ p → 0 ≤ j → round_sig p 0 (a * 2 ^ j) = a * 2 ^ j.
Proof.
  intros Hp Ha Hj. unfold round_sig.
  assert (0 < 2 ^ j) by (apply Z.pow_pos_nonneg; lia).
  destruct (Z.eq_dec a 0) as [->|Hne].
  { rewrite Z.mul_0_l. apply round_grid_fix; [lia | apply Zmod_0_l]. }
  destruct (Z.eq_dec a (2 ^ p)) as [->|Hne'].
  { rewrite <- Z.pow_add_r by lia.
    apply round_grid_fix; [lia|]. apply pow2_mod_0.
    rewrite (Zdigits2_unique (2 ^ (p + j)) (p + j + 1)); [lia | lia |].
    replace (p + j + 1 - 1) with (p + j) by lia. split; [lia|].
    apply Z.pow_lt_mono_r; lia. }
  set (K := Z.max (Zdigits2 (a * 2 ^ j) - p) 0).
  assert (0 ≤ K ≤ j) as HK.
  { subst K. rewrite Zdigits2_shift by lia.
    pose proof (Zdigits2_le a p ltac:(lia) ltac:(lia) ltac:(lia)). lia. }
  apply round_grid_fix; [lia|].
  replace j with (j - K + K) by lia. rewrite Z.pow_add_r, Z.mul_assoc by lia.
  apply Z.mod_mul. assert (0 < 2 ^ K) by (apply Z.pow_pos_nonneg; lia). lia.
Qed.

Lemma shr_inv_loc m l :
  0 ≤ m → shr_inv (4 * m + loc_code l) 2 (shr_record_of_loc m l).
Proof.
  intros Hm. unfold shr_inv.
  assert (0 ≤ loc_code l < 4) as Hc by (destruct l as [|[]]; simpl; lia).
  change (2 ^ 2) with 4.
  assert ((4 * m + loc_code l) / 4 = m) as Hd
    by (symmetry; apply Z.div_unique with (loc_code l); lia).
  assert ((4 * m + loc_code l) mod 4 = loc_code l) as Hmod
    by (symmetry; apply Z.mod_unique with m; lia).
  rewrite Hd, Hmod. split; [lia|]. split; [lia|].
  destruct l as [|[]]; simpl; done.
Qed.

Lemma new_location_code m2 r :
  0 < m2 → 0 ≤ r < m2 →
  Z.abs (loc_code (new_location m2 r) * m2 - 4 * r) < m2.
Proof.
  intros Hm Hr. unfold new_location.
  destruct (Z.even m2) eqn:Hev.
  - unfold new_location_even. destruct (Z.eqb_spec r 0) as [->|Hne]; simpl; [lia|].
    destruct (Z.compare_spec (2 * r) m2); simpl; lia.
  - unfold new_location_odd. destruct (Z.eqb_spec r 0) as [->|Hne]; simpl; [lia|].
    assert (2 * r ≠ m2) as Hodd.
    { intros <-. rewrite Z.even_mul in Hev. done. }
    destruct (Z.compare_spec (2 * r + 1) m2); simpl; lia.
Qed.

Section Located.
Variables prec emax : Z.
Hypothesis prec_pos : 0 < prec.

(** Rounding a quotient [q] with its location: the mantissa is the
    nearest-even rounding of [4 * q + loc_code l] at two more bits. *)
Lemma binary_round_aux_loc sx q l ex :
  0 ≤ q →
  let n := Z.max 0 (fexp prec emax (Zdigits2 q + ex) - ex) in
  let e1 := ex + n in
  let m1 := rne_shift (4 * q + loc_code l) (2 + n) in
  emin prec emax ≤ e1 →
  ∃ m2 e2,
    binary_round_aux prec emax sx q ex l = finish prec emax sx m2 e2 ∧
    0 ≤ m2 ≤ 2 ^ prec ∧ e1 ≤ e2 ≤ e1 + 1 ∧ m2 * 2 ^ (e2 - e1) = m1.
Proof.
  intros Hq n e1 m1 He1.
  pose proof (Zdigits2_nonneg q Hq) as Hdq.
  pose proof (Zdigits2_upper q Hq) as Hqhi.
  assert (0 ≤ loc_code l < 4) as Hc by (destruct l as [|[]]; simpl; lia).
  (* stage 1 *)
  assert (∃ mrs', shr (shr_record_of_loc q l) ex (fexp prec emax (Zdigits2 q + ex) - ex)
                  = (mrs', e1) ∧
            round_nearest_even (shr_m mrs') (loc_of_shr_record mrs') = m1) as (mrs' & Hs1 & Hr1).
  { subst m1 e1 n.
    destruct (fexp prec emax (Zdigits2 q + ex) - ex) as [|p|p] eqn:Hn.
    - exists (shr_record_of_loc q l). split; [simpl; f_equal; lia|].
      rewrite Z.max_l by lia. rewrite Z.add_0_r.
      apply round_shr_inv. by apply shr_inv_loc.
    - exists (SpecFloat.iter_pos shr_1 p (shr_record_of_loc q l)). split.
      + simpl. f_equal; lia.
      + rewrite Z.max_r by lia. apply round_shr_inv.
        apply (shr_inv_iter _ p 2). by apply shr_inv_loc.
    - exists (shr_record_of_loc q l). split; [simpl; f_equal; lia|].
      rewrite Z.max_l by lia. rewrite Z.add_0_r.
      apply round_shr_inv. by apply shr_inv_loc. }
  assert (0 ≤ m1 ≤ 2 ^ prec) as Hm1.
  { subst m1.
    pose proof (rne_shift_range (4 * q + loc_code l) (2 + n)) as Hrg.
    assert (0 ≤ n) as Hn0 by (subst n; lia).
    assert (0 < 2 ^ n) as Hpn by (apply Z.pow_pos_nonneg; lia).
    assert (2 ^ (2 + n) = 4 * 2 ^ n) as Hp2 by (rewrite Z.pow_add_r by lia; lia).
    assert ((4 * q + loc_code l) / 2 ^ (2 + n) = q / 2 ^ n) as Hdiv.
    { rewrite Hp2. rewrite <- Z.div_div by lia.
      f_equal. symmetry. apply Z.div_unique with (loc_code l); lia. }
    rewrite Hdiv in Hrg.
    assert (0 ≤ q / 2 ^ n) by (apply Z.div_pos; lia).
    assert (q / 2 ^ n < 2 ^ prec); [|lia].
    apply Z.div_lt_upper_bound; [lia|].
    rewrite <- Z.pow_add_r by lia.
    assert (Zdigits2 q ≤ n + prec) by (subst n; unfold fexp; lia).
    assert (2 ^ Zdigits2 q ≤ 2 ^ (n + prec)) by (apply Z.pow_le_mono_r; lia). lia. }
  (* stage 2 *)
  unfold binary_round_aux, shr_fexp. rewrite Hs1, Hr1.
  set (n2 := fexp prec emax (Zdigits2 m1 + e1) - e1).
  pose proof (shr_spec (shr_record_of_loc m1 loc_Exact) e1 n2) as H2.
  rewrite shr_record_of_loc_m in H2. specialize (H2 ltac:(lia)).
  destruct (shr (shr_record_of_loc m1 loc_Exact) e1 n2) as [mrs'' e''].
  simpl in H2. destruct H2 as [Hm'' He''].
  assert (Zdigits2 m1 ≤ prec + 1) as Hd1.
  { apply Zdigits2_le; [lia | lia |]. rewrite Z.pow_add_r, Z.pow_1_r by lia. lia. }
  assert (fexp prec emax (Zdigits2 q + ex) ≤ e1) as HE by (subst e1 n; lia).
  assert (n2 ≤ 1) as Hn2 by (subst n2; unfold fexp; lia).
  assert (0 < 2 ^ Z.max 0 n2) as Hpn2 by (apply Z.pow_pos_nonneg; lia).
  exists (shr_m mrs''), e''. split; [|split; [|split]].
  - unfold finish. reflexivity.
  - rewrite Hm''. split; [apply Z.div_pos; lia|].
    apply Z.div_le_upper_bound; [lia|]. nia.
  - lia.
  - rewrite Hm'', He''. replace (e1 + Z.max 0 n2 - e1) with (Z.max 0 n2) by lia.
    destruct (Z.le_gt_cases n2 0) as [Hle|Hgt].
    + rewrite Z.max_l by lia. rewrite Z.pow_0_r, Z.div_1_r. lia.
    + assert (n2 = 1) as Hn by lia. rewrite Z.max_r by lia. rewrite Hn, Z.pow_1_r.
      assert (prec + 1 ≤ Zdigits2 m1) as Hd by (subst n2; unfold fexp in Hn; lia).
      assert (0 < m1) as Hpos.
      { destruct (Z.eq_dec m1 0) as [Hz|]; [|lia]. rewrite Hz in Hd. simpl in Hd. lia. }
      pose proof (Zdigits2_lower m1 Hpos) as Hlow.
      assert (2 ^ prec ≤ 2 ^ (Zdigits2 m1 - 1)) by (apply Z.pow_le_mono_r; lia).
      assert (m1 = 2 ^ prec) as -> by lia.
      replace prec with (Z.succ (prec - 1)) at 1 2 by lia.
      rewrite Z.pow_succ_r by lia.
      rewrite (Z.mul_comm 2), Z.div_mul by lia. reflexivity.
Qed.

End Located.

(** The quotient of two positive integers below [2^31] as a binary64: it
    is finite, and within three quarters of a unit in the last place of
    the exact quotient. *)
Lemma F64_div_int_scaled mh mw :
  Z.pos mh < 2 ^ 31 → Z.pos mw < 2 ^ 31 →
  ∃ m e,
    F64.div (S754_finite false mh 0) (S754_finite false mw 0) = S754_finite false m e ∧
    Z.pos m ≤ 2 ^ 53 ∧ -84 ≤ e ≤ -21 ∧
    2 * 2 ^ 53 * Z.abs (Z.pos m * 2 ^ (e + 1074) * Z.pos mw - Z.pos mh * 2 ^ 1074)
    ≤ 3 * (Z.pos mh * 2 ^ 1074).
Proof.
  intros Hh Hw. unfold F64.div, SFdiv. cbn [xorb].
  unfold SFdiv_core_binary.
  set (d1 := Zdigits2 (Z.pos mh)). set (d2 := Zdigits2 (Z.pos mw)).
  assert (1 ≤ d1 ≤ 31) as Hd1.
  { subst d1. split; [simpl; lia|]. apply Zdigits2_le; lia. }
  assert (1 ≤ d2 ≤ 31) as Hd2.
  { subst d2. split; [simpl; lia|]. apply Zdigits2_le; lia. }
  pose proof (Zdigits2_lower (Z.pos mh) ltac:(lia)) as Hhlo. fold d1 in Hhlo.
  pose proof (Zdigits2_upper (Z.pos mh) ltac:(lia)) as Hhhi. fold d1 in Hhhi.
  pose proof (Zdigits2_lower (Z.pos mw) ltac:(lia)) as Hwlo. fold d2 in Hwlo.
  pose proof (Zdigits2_upper (Z.pos mw) ltac:(lia)) as Hwhi. fold d2 in Hwhi.
  assert (Z.min (fexp F64.prec F64.emax (d1 + 0 - (d2 + 0))) (0 - 0) = d1 - d2 - 53) as ->
    by (unfold fexp, emin, F64.prec, F64.emax; lia).
  set (e' := d1 - d2 - 53).
  set (s := 53 + d2 - d1).
  assert (0 - 0 - e' = s) as -> by (subst e' s; lia).
  assert (0 < s) as Hs by (subst s; lia).
  assert (match s with
          | 0 => Z.pos mh
          | Z.pos _ => Z.shiftl (Z.pos mh) s
          | Z.neg _ => 0
          end = Z.pos mh * 2 ^ s) as ->.
  { destruct s as [|p|p] eqn:Hsp; try lia. rewrite Z.shiftl_mul_pow2 by lia. reflexivity. }
  set (m' := Z.pos mh * 2 ^ s).
  destruct (Z.div_eucl m' (Z.pos mw)) as [q r] eqn:Hdiv.
  assert (q = m' / Z.pos mw ∧ r = m' mod Z.pos mw) as [Hq Hr].
  { unfold Z.div, Z.modulo. by rewrite Hdiv. }
  pose proof (Z.div_mod m' (Z.pos mw) ltac:(lia)) as Hdm. rewrite <- Hq, <- Hr in Hdm.
  pose proof (Z.mod_pos_bound m' (Z.pos mw) ltac:(lia)) as Hrb. rewrite <- Hr in Hrb.
  assert (0 < 2 ^ s) as Hps by (apply Z.pow_pos_nonneg; lia).
  (* the quotient has 53 or 54 bits *)
  assert (2 ^ (d1 - 1) * 2 ^ s = 2 ^ 52 * 2 ^ d2) as Hlo1.
  { rewrite <- !Z.pow_add_r by lia. f_equal. subst s. lia. }
  assert (2 ^ d1 * 2 ^ s = 2 ^ 54 * 2 ^ (d2 - 1)) as Hhi1.
  { rewrite <- !Z.pow_add_r by lia. f_equal. subst s. lia. }
  assert (0 < 2 ^ (d2 - 1)) by (apply Z.pow_pos_nonneg; lia).
  assert (0 < 2 ^ d2) by (apply Z.pow_pos_nonneg; lia).
  assert (2 ^ 52 ≤ q < 2 ^ 54) as Hqb.
  { subst m'. split.
    - rewrite Hq. apply Z.div_le_lower_bound; [lia|]. nia.
    - rewrite Hq. apply Z.div_lt_upper_bound; [lia|]. nia. }
  set (dq := Zdigits2 q).
  assert (dq = 53 ∨ dq = 54) as Hdq.
  { destruct (Z.lt_ge_cases q (2 ^ 53)).
    - left. apply Zdigits2_unique; lia.
    - right. apply Zdigits2_unique; lia. }
  set (n := dq - 53).
  assert (0 ≤ n ≤ 1) as Hn by (subst n; lia).
  assert (Z.max 0 (fexp F64.prec F64.emax (Zdigits2 q + e') - e') = n) as Hmax.
  { fold dq. unfold fexp, emin, F64.prec, F64.emax. subst n e'. lia. }
  pose proof (binary_round_aux_loc F64.prec F64.emax ltac:(done) false q
                (new_location (Z.pos mw) r) e' ltac:(lia)) as Hround.
  cbv zeta in Hround. rewrite Hmax in Hround.
  specialize (Hround ltac:(unfold emin, F64.prec, F64.emax; subst e'; lia)).
  destruct Hround as (m2 & e2 & -> & Hm2 & He2 & Hval).
  set (Y := 4 * q + loc_code (new_location (Z.pos mw) r)) in *.
  set (M := rne_shift Y (2 + n)) in *.
  pose proof (rne_shift_error Y (2 + n) ltac:(lia)) as Herr. fold M in Herr.
  pose proof (new_location_code (Z.pos mw) r ltac:(lia) Hrb) as Hloc.
  assert (2 ^ (2 + n) = 4 * 2 ^ n) as Hp2 by (rewrite Z.pow_add_r by lia; lia).
  assert (0 < 2 ^ n) as Hpn by (apply Z.pow_pos_nonneg; lia).
  assert (2 ^ n ≤ 2) as Hpn2.
  { destruct (Z.eq_dec n 0) as [->|]; [simpl; lia|].
    assert (n = 1) as -> by lia. simpl. lia. }
  assert (2 ^ 52 * 2 ^ n ≤ q) as Hqn.
  { destruct Hdq as [Hd|Hd].
    - assert (n = 0) as -> by (subst n; lia). simpl. lia.
    - assert (n = 1) as -> by (subst n; lia).
      pose proof (Zdigits2_lower q ltac:(lia)) as Hl. fold dq in Hl. rewrite Hd in Hl.
      simpl in *. lia. }
  (* the rounded mantissa against the exact quotient *)
  assert (4 * Z.abs (M * 2 ^ n * Z.pos mw - m') ≤ 3 * 2 ^ n * Z.pos mw) as HD.
  { rewrite Hp2 in Herr.
    assert (Y * Z.pos mw - 4 * m'
            = loc_code (new_location (Z.pos mw) r) * Z.pos mw - 4 * r) as HY
      by (subst Y; lia).
    rewrite <- HY in Hloc.
    replace (M * (4 * 2 ^ n)) with (4 * (M * 2 ^ n)) in Herr by ring.
    assert (Z.abs (4 * (M * 2 ^ n) - Y) * Z.pos mw ≤ 2 * 2 ^ n * Z.pos mw) as Ha
      by (apply Z.mul_le_mono_nonneg_r; lia).
    rewrite <- (Z.abs_eq (Z.pos mw)) in Ha at 1 by lia. rewrite <- Z.abs_mul in Ha.
    assert (Z.pos mw ≤ 2 ^ n * Z.pos mw) as Hb by (clear - Hpn; nia).
    clear - Ha Hb Hloc. lia. }
  assert (0 < M) as HMpos.
  { assert (2 ^ 52 * 2 ^ n * Z.pos mw ≤ q * Z.pos mw) as Hc
      by (apply Z.mul_le_mono_nonneg_r; lia).
    assert (q * Z.pos mw ≤ m') as Hc' by lia.
    destruct (Z.le_gt_cases M 0) as [Hle|]; [|lia].
    assert (M * (2 ^ n * Z.pos mw) ≤ 0) as Hd' by (clear - Hle Hpn; nia).
    clear - HD Hc Hc' Hd' Hpn. lia. }
  assert (0 < m2) as Hm2pos.
  { assert (0 ≤ 2 ^ (e2 - (e' + n))) as Hpe by (apply Z.pow_nonneg; lia).
    clear - Hval HMpos Hpe Hm2. nia. }
  unfold finish. destruct m2 as [|p2|p2]; try lia.
  assert (e2 ≤ F64.emax - F64.prec) as He2max
    by (unfold F64.emax, F64.prec; subst e'; lia).
  destruct (Z.leb_spec e2 (F64.emax - F64.prec)); [|lia].
  exists p2, e2. split; [reflexivity|].
  split; [unfold F64.prec in Hm2; lia|]. split; [subst e'; lia|].
  set (G := 2 ^ (e' + 1074)).
  assert (0 < G) as HG by (subst G; apply Z.pow_pos_nonneg; subst e'; lia).
  assert (Z.pos p2 * 2 ^ (e2 + 1074) = M * 2 ^ n * G) as ->.
  { subst G. rewrite <- Hval.
    rewrite <- !Z.mul_assoc, <- !Z.pow_add_r by (subst e'; lia).
    do 2 f_equal. lia. }
  assert (Z.pos mh * 2 ^ 1074 = m' * G) as ->.
  { subst m' G. rewrite <- Z.mul_assoc, <- Z.pow_add_r by (subst e' s; lia).
    do 2 f_equal. subst s e'. lia. }
  replace (M * 2 ^ n * G * Z.pos mw - m' * G)
    with ((M * 2 ^ n * Z.pos mw - m') * G) by ring.
  rewrite Z.abs_mul, (Z.abs_eq G) by lia.
  assert (2 * 2 ^ 53 * Z.abs (M * 2 ^ n * Z.pos mw - m') ≤ 3 * m') as HD'.
  { assert (q * Z.pos mw ≤ m') as Hqm by lia.
    assert (2 ^ 52 * 2 ^ n * Z.pos mw ≤ q * Z.pos mw) as Hqm'
      by (apply Z.mul_le_mono_nonneg_r; lia).
    clear - HD Hqm Hqm'. set (A := Z.abs _) in *.
    rewrite <- Z.mul_assoc in HD, Hqm'. set (B := 2 ^ n * Z.pos mw) in *. lia. }
  replace (2 * 2 ^ 53 * (Z.abs (M * 2 ^ n * Z.pos mw - m') * G))
    with (2 * 2 ^ 53 * Z.abs (M * 2 ^ n * Z.pos mw - m') * G) by ring.
  replace (3 * (m' * G)) with (3 * m' * G) by ring.
  apply Z.mul_le_mono_nonneg_r; lia.
Qed.

Lemma iter_xO_value m d : Z.pos (Pos.iter xO m d) = Z.pos m * 2 ^ Z.pos d.
Proof.
  induction d as [|d IH] using Pos.peano_ind.
  - simpl. lia.
  - rewrite Pos.iter_succ. rewrite Pos2Z.inj_xO, IH.
    rewrite Pos2Z.inj_succ, Z.pow_succ_r by lia. lia.
Qed.

Section Valued.
Variables prec emax : Z.
Hypothesis prec_pos : 0 < prec.

(** The rounded result of an exact positive value, with its exponent
    range, its mantissa bound and its value in units of [2^-s]. *)
Lemma binary_round_aux_value M ex s :
  0 ≤ ex + s → 0 ≤ emin prec emax + s →
  let e1 := Z.max ex (fexp prec emax (Z.pos (digits2_pos M) + ex)) in
  ∃ m2 e2,
    binary_round_aux prec emax false (Z.pos M) ex loc_Exact
    = finish prec emax false m2 e2 ∧
    0 ≤ m2 ≤ 2 ^ prec ∧ e1 ≤ e2 ≤ e1 + 1 ∧
    m2 * 2 ^ (e2 + s) = round_sig prec (emin prec emax + s) (Z.pos M * 2 ^ (ex + s)).
Proof.
  intros Hex Hemin e1.
  destruct (binary_round_aux_exact prec emax prec_pos false M ex)
    as (m2 & e2 & Heq & Hm2 & He2 & Hval).
  set (E := fexp prec emax (Z.pos (digits2_pos M) + ex)) in *.
  assert (emin prec emax ≤ E) as HEmin by (subst E; unfold fexp; lia).
  pose proof (Zdigits2_bounds M) as [HMlo HMhi].
  set (m1 := if E <=? ex then Z.pos M else rne_shift (Z.pos M) (E - ex)) in *.
  assert (0 ≤ m1 ≤ 2 ^ prec) as Hm1.
  { subst m1. destruct (Z.leb_spec E ex) as [Hle|Hlt].
    - split; [lia|].
      assert (2 ^ Z.pos (digits2_pos M) ≤ 2 ^ prec)
        by (apply Z.pow_le_mono_r; subst E; unfold fexp in Hle; lia). lia.
    - pose proof (rne_shift_range (Z.pos M) (E - ex)) as Hrg.
      assert (0 < 2 ^ (E - ex)) as Hp by (apply Z.pow_pos_nonneg; lia).
      assert (0 ≤ Z.pos M / 2 ^ (E - ex)) by (apply Z.div_pos; lia).
      assert (Z.pos M / 2 ^ (E - ex) < 2 ^ prec); [|lia].
      apply Z.div_lt_upper_bound; [lia|].
      rewrite <- Z.pow_add_r by lia.
      assert (2 ^ Z.pos (digits2_pos M) ≤ 2 ^ (E - ex + prec))
        by (apply Z.pow_le_mono_r; subst E; unfold fexp; lia). lia. }
  assert (0 < 2 ^ (e2 - Z.max ex E)) as Hp2 by (apply Z.pow_pos_nonneg; lia).
  exists m2, e2. split; [exact Heq|]. split; [nia|]. split; [subst e1; lia|].
  unfold round_sig.
  change (Z.pos (digits2_pos M)) with (Zdigits2 (Z.pos M)) in *.
  rewrite Zdigits2_shift by lia.
  replace (Z.max (Zdigits2 (Z.pos M) + (ex + s) - prec) (emin prec emax + s))
    with (E + s) by (subst E; unfold fexp; lia).
  replace (e2 + s) with (e2 - Z.max ex E + (Z.max ex E + s)) by lia.
  rewrite Z.pow_add_r by lia. rewrite Z.mul_assoc, Hval. subst m1.
  destruct (Z.leb_spec E ex) as [Hle|Hlt].
  - rewrite Z.max_l by lia. symmetry. apply round_grid_fix; [lia|].
    replace (ex + s) with (ex - E + (E + s)) by lia.
    rewrite Z.pow_add_r, Z.mul_assoc by lia. apply Z.mod_mul.
    assert (0 < 2 ^ (E + s)) by (apply Z.pow_pos_nonneg; lia). lia.
  - rewrite Z.max_r by lia. unfold round_grid. f_equal.
    replace (E + s) with (E - ex + (ex + s)) at 1 by lia.
    symmetry. apply rne_shift_scale; lia.
Qed.

End Valued.


(** [float(n)] is exact for an integer below [2^31]. *)
Lemma F64_of_Z_exact n :
  1 ≤ n < 2 ^ 31 →
  ∃ m e, F64.of_Z n = S754_finite false m e ∧ Z.pos m ≤ 2 ^ 53 ∧ -52 ≤ e ≤ 0 ∧
         Z.pos m * 2 ^ (e + 1074) = n * 2 ^ 1074.
Proof.
  intros Hn. destruct n as [|p|p]; try lia.
  unfold F64.of_Z. cbn [binary_normalize]. unfold binary_round.
  set (d := Z.pos (digits2_pos p)).
  assert (1 ≤ d ≤ 31) as Hd.
  { subst d. split; [lia|]. apply (Zdigits2_le (Z.pos p) 31); lia. }
  assert (fexp F64.prec F64.emax (d + 0) = d - 53) as ->
    by (unfold fexp, emin, F64.prec, F64.emax; lia).
  unfold shl_align. destruct (d - 53 - 0) as [|k|k] eqn:Hk; try lia.
  pose proof (binary_round_aux_value F64.prec F64.emax ltac:(done) (Pos.iter xO p k)
                (d - 53) 1074 ltac:(lia) ltac:(done)) as Hr.
  cbv zeta in Hr. rewrite iter_xO_digits in Hr.
  assert (Z.pos (digits2_pos p + k) + (d - 53) = d) as Hdig by (subst d; lia).
  rewrite Hdig in Hr.
  assert (Z.max (d - 53) (fexp F64.prec F64.emax d) = d - 53) as Hmax
    by (unfold fexp, emin, F64.prec, F64.emax; lia).
  rewrite Hmax in Hr. destruct Hr as (m2 & e2 & -> & Hm2 & He2 & Hval).
  change (emin F64.prec F64.emax + 1074) with 0 in Hval.
  rewrite iter_xO_value in Hval.
  assert (Z.pos p * 2 ^ Z.pos k * 2 ^ (d - 53 + 1074) = Z.pos p * 2 ^ 1074) as Hexact.
  { rewrite <- Z.mul_assoc, <- Z.pow_add_r by lia. do 2 f_equal. lia. }
  rewrite Hexact in Hval.
  rewrite (round_sig_exact F64.prec (Z.pos p) 1074) in Hval;
    [|done | unfold F64.prec; lia | lia].
  assert (0 < 2 ^ (e2 + 1074)) by (apply Z.pow_pos_nonneg; lia).
  assert (0 < 2 ^ 1074) by (apply Z.pow_pos_nonneg; lia).
  assert (0 < m2) by nia.
  unfold finish. destruct m2 as [|q|q]; try lia.
  destruct (Z.leb_spec e2 (F64.emax - F64.prec)); [|unfold F64.emax, F64.prec in *; lia].
  exists q, e2. split; [reflexivity|].
  split; [unfold F64.prec in Hm2; lia|]. split; [lia | exact Hval].
Qed.

(** The rounded product of two positive binary64 values. *)
Lemma F64_mul_value mx ex my ey :
  -1074 ≤ ex + ey → ex + ey ≤ 800 →
  Z.pos mx ≤ 2 ^ 53 → Z.pos my ≤ 2 ^ 53 →
  ∃ m e,
    F64.mul (S754_finite false mx ex) (S754_finite false my ey) = S754_finite false m e ∧
    Z.pos m ≤ 2 ^ 53 ∧ ex + ey ≤ e ≤ ex + ey + 56 ∧
    Z.pos m * 2 ^ (e + 1074)
    = round_sig 53 0 (Z.pos mx * Z.pos my * 2 ^ (ex + ey + 1074)).
Proof.
  intros Hlo Hhi Hmx Hmy. unfold F64.mul, SFmul. cbn [xorb].
  pose proof (binary_round_aux_value F64.prec F64.emax ltac:(done) (mx * my)
                (ex + ey) 1074 ltac:(lia) ltac:(done)) as Hr.
  cbv zeta in Hr. destruct Hr as (m2 & e2 & -> & Hm2 & He2 & Hval).
  change (emin F64.prec F64.emax + 1074) with 0 in Hval.
  change F64.prec with 53 in *. rewrite Pos2Z.inj_mul in Hval.
  set (V := Z.pos mx * Z.pos my * 2 ^ (ex + ey + 1074)) in *.
  assert (0 < 2 ^ (ex + ey + 1074)) by (apply Z.pow_pos_nonneg; lia).
  assert (0 < V) as HV by (subst V; nia).
  pose proof (round_sig_error 53 V ltac:(lia) ltac:(lia)) as Herr.
  assert (0 < round_sig 53 0 V) as Hpos.
  { assert (0 < 2 ^ 53) by (apply Z.pow_pos_nonneg; lia).
    destruct (Z.le_gt_cases (round_sig 53 0 V) 0) as [Hle|]; [|lia].
    rewrite Z.abs_neq in Herr by lia. nia. }
  assert (0 < 2 ^ (e2 + 1074)) by (apply Z.pow_pos_nonneg; lia).
  assert (0 < m2) by nia.
  assert (Z.pos (digits2_pos (mx * my)) ≤ 108) as Hdig.
  { apply (Zdigits2_le (Z.pos (mx * my)) 108); [lia | lia |].
    rewrite Pos2Z.inj_mul. change (2 ^ 108) with (2 ^ 54 * 2 ^ 54).
    assert (Z.pos mx < 2 ^ 54) by lia. assert (Z.pos my < 2 ^ 54) by lia. nia. }
  assert (e2 ≤ ex + ey + 56) as He2hi.
  { unfold fexp, emin, F64.emax in He2. lia. }
  unfold finish. destruct m2 as [|q|q]; try lia.
  destruct (Z.leb_spec e2 (F64.emax - 53)); [|unfold F64.emax in *; lia].
  exists q, e2. split; [reflexivity|]. split; [lia|]. split; [lia|]. exact Hval.
Qed.

(** The height computation, step by step: the quotient [h / w] within
    three quarters of a unit in the last place, the product with the width
    correctly rounded, the exact halving, and the truncation. *)
(** The height computation, step by step: the quotient [h / w] within
    three quarters of a unit in the last place, the product with the width
    correctly rounded, the exact halving, and the truncation. *)
Lemma scaled_height_steps w h ow :
  1 ≤ w < 2 ^ 31 → 1 ≤ h < 2 ^ 31 → 1 ≤ ow < 2 ^ 31 →
  ∃ Q m e,
    0 < Q ∧
    2 * 2 ^ 53 * Z.abs (Q * w - h * 2 ^ 1074) ≤ 3 * (h * 2 ^ 1074) ∧
    scaled_height w h ow = Ok (S754_finite false m e) ∧
    -1074 ≤ e ∧
    Z.abs (2 * (Z.pos m * 2 ^ (e + 1074)) - ow * Q) * 2 ^ 53 ≤ ow * Q ∧
    Ztrunc (S754_finite false m e) = Some (Z.pos m * 2 ^ (e + 1074) / 2 ^ 1074).
Proof.
  intros Hw Hh How. unfold scaled_height, py_truediv.
  destruct (Z.eqb_spec w 0); [lia|].
  destruct w as [|mw|mw]; try lia. destruct h as [|mh|mh]; try lia.
  destruct (F64_div_int_scaled mh mw ltac:(lia) ltac:(lia))
    as (mq & eq & -> & Hmq & Heq & Hq).
  cbn [mbind result_bind].
  unfold py_float.
  destruct (F64_of_Z_exact ow How) as (mf & ef & -> & Hmf & Hef & Hf).
  cbn [mbind result_bind mret result_ret].
  assert (0 < 2 ^ 1074) as HU by (apply Z.pow_pos_nonneg; lia).
  (* the product with the width *)
  destruct (F64_mul_value mf ef mq eq ltac:(lia) ltac:(lia) Hmf Hmq)
    as (mp & ep & -> & Hmp & Hep & Hp).
  set (Q := Z.pos mq * 2 ^ (eq + 1074)) in *.
  assert (0 < Q) as HQ.
  { subst Q. assert (0 < 2 ^ (eq + 1074)) by (apply Z.pow_pos_nonneg; lia). lia. }
  assert (Z.pos mf * Z.pos mq * 2 ^ (ef + eq + 1074) = ow * Q) as HV.
  { assert (2 ^ 1074 = 2 ^ (- ef) * 2 ^ (ef + 1074)) as HUs.
    { rewrite <- Z.pow_add_r by lia. f_equal. lia. }
    assert (0 < 2 ^ (ef + 1074)) as Hpf by (apply Z.pow_pos_nonneg; lia).
    assert (Z.pos mf = ow * 2 ^ (- ef)) as ->.
    { rewrite HUs in Hf. rewrite Z.mul_assoc in Hf.
      apply Z.mul_reg_r in Hf; lia. }
    subst Q.
    replace (ef + eq + 1074) with (ef + (eq + 1074)) by lia.
    assert (2 ^ (- ef) * 2 ^ (ef + (eq + 1074)) = 2 ^ (eq + 1074)) as Hcancel.
    { rewrite <- Z.pow_add_r by lia. f_equal. lia. }
    rewrite <- Hcancel. ring. }
  rewrite HV in Hp.
  pose proof (round_sig_error 53 (ow * Q) ltac:(lia) ltac:(nia)) as Herr.
  rewrite <- Hp in Herr.
  (* the halving *)
  unfold F64.half.
  destruct (F64_mul_value mp ep 4503599627370496 (-53) ltac:(lia) ltac:(lia) Hmp
              ltac:(by vm_compute))
    as (mx & ex & -> & Hmx & Hex & Hx).
  set (X := Z.pos mp * 2 ^ (ep + 1073)).
  assert (Z.pos mp * 4503599627370496 * 2 ^ (ep + -53 + 1074) = X) as HX.
  { subst X. change 4503599627370496 with (2 ^ 52).
    rewrite <- Z.mul_assoc, <- Z.pow_add_r by lia. do 2 f_equal. lia. }
  rewrite HX in Hx.
  assert (round_sig 53 0 X = X) as Hexact.
  { subst X. apply round_sig_exact; lia. }
  rewrite Hexact in Hx.
  assert (Z.pos mp * 2 ^ (ep + 1074) = 2 * X) as HPX.
  { subst X. replace (ep + 1074) with (Z.succ (ep + 1073)) by lia.
    rewrite Z.pow_succ_r by lia. ring. }
  rewrite HPX in Herr.
  exists Q, mx, ex. split; [exact HQ|]. split; [exact Hq|]. split; [reflexivity|].
  split; [lia|]. rewrite Hx. split; [exact Herr|].
  cbn [Ztrunc]. f_equal.
  assert (0 < 2 ^ (ex + 1074)) by (apply Z.pow_pos_nonneg; lia).
  rewrite <- Hx.
  destruct (Z.leb_spec 0 ex).
  - replace (ex + 1074) with (ex + 1074) by lia.
    rewrite Z.pow_add_r by lia. rewrite Z.mul_assoc, Z.div_mul by lia. reflexivity.
  - assert (0 < 2 ^ (- ex)) by (apply Z.pow_pos_nonneg; lia).
    replace 1074 with (- ex + (ex + 1074)) at 2 by lia.
    rewrite (Z.pow_add_r 2 (- ex)), Z.div_mul_cancel_r; lia.
Qed.

Lemma new_height_steps w h ow :
  1 ≤ w < 2 ^ 31 → 1 ≤ h < 2 ^ 31 → 1 ≤ ow < 2 ^ 31 →
  ∃ Q X,
    0 < Q ∧
    2 * 2 ^ 53 * Z.abs (Q * w - h * 2 ^ 1074) ≤ 3 * (h * 2 ^ 1074) ∧
    Z.abs (2 * X - ow * Q) * 2 ^ 53 ≤ ow * Q ∧
    new_height w h ow = Ok (X / 2 ^ 1074).
Proof.
  intros Hw Hh How.
  destruct (scaled_height_steps w h ow Hw Hh How)
    as (Q & m & e & HQ & Hq & Hx & He & Herr & Htr).
  exists Q, (Z.pos m * 2 ^ (e + 1074)).
  split; [exact HQ|]. split; [exact Hq|]. split; [exact Herr|].
  unfold new_height. rewrite Hx. cbn [mbind result_bind]. unfold py_int.
  by rewrite Htr.
Qed.

(** The two rounding errors combined: the scaled product [X] against the
    exact quotient. *)
Lemma height_product_bounds (U T w h ow Q X : Z) :
  0 < U → 1 ≤ w → 1 ≤ h → 1 ≤ ow → 0 < Q → 4 < T →
  2 * T * Z.abs (Q * w - h * U) ≤ 3 * (h * U) →
  Z.abs (2 * X - ow * Q) * T ≤ ow * Q →
  4 * X * (T * T) * w ≤ ow * h * U * ((T + 1) * (2 * T + 3)) ∧
  ow * h * U * ((T - 1) * (2 * T - 3)) ≤ 4 * X * (T * T) * w.
Proof.
  intros HU Hw Hh How HQ HT4 H1 H2.
  assert (2 * X * T ≤ ow * Q * (T + 1) ∧ ow * Q * (T - 1) ≤ 2 * X * T) as [Ha1 Ha2].
  { clear - H2 HT4. destruct (Z.abs_spec (2 * X - ow * Q)) as [[? E]|[? E]];
      rewrite E in H2; nia. }
  assert (Q * w * (2 * T) ≤ h * U * (2 * T + 3)
          ∧ h * U * (2 * T - 3) ≤ Q * w * (2 * T)) as [Hb1 Hb2].
  { clear - H1 HT4. destruct (Z.abs_spec (Q * w - h * U)) as [[? E]|[? E]];
      rewrite E in H1; nia. }
  split.
  - assert (2 * X * T * (2 * T * w) ≤ ow * Q * (T + 1) * (2 * T * w)) as Hs1
      by (apply Z.mul_le_mono_nonneg_r; [nia | exact Ha1]).
    assert (ow * (T + 1) * (Q * w * (2 * T)) ≤ ow * (T + 1) * (h * U * (2 * T + 3))) as Hs2
      by (apply Z.mul_le_mono_nonneg_l; [nia | exact Hb1]).
    clear - Hs1 Hs2. lia.
  - assert (ow * Q * (T - 1) * (2 * T * w) ≤ 2 * X * T * (2 * T * w)) as Hs1
      by (apply Z.mul_le_mono_nonneg_r; [nia | exact Ha2]).
    assert (ow * (T - 1) * (h * U * (2 * T - 3)) ≤ ow * (T - 1) * (Q * w * (2 * T))) as Hs2
      by (apply Z.mul_le_mono_nonneg_l; [nia | exact Hb2]).
    clear - Hs1 Hs2. lia.
Qed.

(** The scaled product is within four parts in [T] of the exact value. *)
Lemma height_value_bound (U T w h ow Q X : Z) :
  0 < U → 1 ≤ w → 1 ≤ h → 1 ≤ ow → 0 < Q → 4 < T →
  2 * T * Z.abs (Q * w - h * U) ≤ 3 * (h * U) →
  Z.abs (2 * X - ow * Q) * T ≤ ow * Q →
  Z.abs (2 * w * X - ow * h * U) * T ≤ 4 * (ow * h * U).
Proof.
  intros HU Hw Hh How HQ HT4 H1 H2.
  destruct (height_product_bounds U T w h ow Q X HU Hw Hh How HQ HT4 H1 H2)
    as [Hup Hlow].
  set (N := ow * h * U) in *.
  assert (0 < N) as HN by (subst N; nia).
  set (D := 2 * w * X - N).
  assert (2 * (T * T) * D ≤ N * (5 * T + 3)) as Hd1 by (subst D; clear - Hup; lia).
  assert (2 * (T * T) * (- D) ≤ N * (5 * T - 3)) as Hd2 by (subst D; clear - Hlow; lia).
  assert (N * (5 * T + 3) ≤ N * (8 * T)) as Hn1
    by (apply Z.mul_le_mono_nonneg_l; lia).
  assert (N * (5 * T - 3) ≤ N * (8 * T)) as Hn2
    by (apply Z.mul_le_mono_nonneg_l; lia).
  assert (2 * T * (T * Z.abs D) ≤ 2 * T * (4 * N)) as Hc.
  { destruct (Z.abs_spec D) as [[_ E]|[_ E]]; rewrite E; clear - Hd1 Hd2 Hn1 Hn2; lia. }
  apply Z.mul_le_mono_pos_l in Hc; lia.
Qed.

(** Integer core of the height computation: a quotient known to three
    quarters of a unit in the last place, multiplied and rounded once more,
    truncates to the exact integer quotient or to one less, and to the exact
    quotient whenever the division leaves a remainder. *)
Lemma height_arith (U T w h ow Q X : Z) :
  0 < U → 1 ≤ w → 1 ≤ h → 1 ≤ ow → 0 < Q →
  2 * T * Z.abs (Q * w - h * U) ≤ 3 * (h * U) →
  Z.abs (2 * X - ow * Q) * T ≤ ow * Q →
  4 * (ow * h) < T →
  (ow * h) / (2 * w) - 1 ≤ X / U ≤ (ow * h) / (2 * w) ∧
  ((ow * h) mod (2 * w) ≠ 0 → X / U = (ow * h) / (2 * w)).
Proof.
  intros HU Hw Hh How HQ H1 H2 HT.
  assert (4 < T) as HT4 by nia.
  destruct (height_product_bounds U T w h ow Q X HU Hw Hh How HQ HT4 H1 H2)
    as [Hup Hlow].
  set (N := ow * h) in *.
  assert (0 < N) as HNpos by (subst N; nia).
  set (k := N / (2 * w)). set (r := N mod (2 * w)).
  assert (N = 2 * w * k + r) as HN by (subst k r; apply Z.div_mod; lia).
  assert (0 ≤ r < 2 * w) as Hr by (subst r; apply Z.mod_pos_bound; lia).
  assert (0 ≤ k) as Hk by (subst k; apply Z.div_pos; lia).
  set (nh := X / U).
  assert (nh * U ≤ X < (nh + 1) * U) as Hnh.
  { subst nh. pose proof (Z.div_mod X U ltac:(lia)).
    pose proof (Z.mod_pos_bound X U HU). nia. }
  (* cancel the unit *)
  assert (4 * nh * (T * T) * w ≤ N * ((T + 1) * (2 * T + 3))) as Hup'.
  { apply (Z.mul_le_mono_pos_r _ _ U HU).
    assert (4 * (nh * U) * (T * T) * w ≤ 4 * X * (T * T) * w) as Hs.
    { apply Z.mul_le_mono_nonneg_r; [lia|].
      apply Z.mul_le_mono_nonneg_r; [nia|]. lia. }
    clear - Hs Hup. lia. }
  assert (N * ((T - 1) * (2 * T - 3)) < 4 * (nh + 1) * (T * T) * w) as Hlow'.
  { apply (Z.mul_lt_mono_pos_r U); [exact HU|].
    assert (4 * X * (T * T) * w < 4 * ((nh + 1) * U) * (T * T) * w) as Hs.
    { apply Z.mul_lt_mono_pos_r; [lia|].
      apply Z.mul_lt_mono_pos_r; [nia|]. lia. }
    clear - Hs Hlow. lia. }
  assert (nh ≤ k) as Hle.
  { destruct (Z.le_gt_cases nh k) as [|Hgt]; [done|]. exfalso.
    assert (4 * (k + 1) * (T * T) * w ≤ 4 * nh * (T * T) * w) as Hs.
    { apply Z.mul_le_mono_nonneg_r; [lia|].
      apply Z.mul_le_mono_nonneg_r; [nia|]. lia. }
    assert (2 * (T * T) ≤ N * (5 * T + 3)) as Hc.
    { assert (2 * r * (T * T) ≤ (4 * w - 2) * (T * T)) as Hrr
        by (apply Z.mul_le_mono_nonneg_r; [nia | lia]).
      clear - Hs Hup' HN Hrr. nia. }
    clear - Hc HT HT4 HNpos. nia. }
  split; [split; [|exact Hle]|].
  - destruct (Z.le_gt_cases (k - 1) nh) as [|Hlt]; [done|]. exfalso.
    assert (4 * (nh + 1) * (T * T) * w ≤ 4 * (k - 1) * (T * T) * w) as Hs.
    { apply Z.mul_le_mono_nonneg_r; [lia|].
      apply Z.mul_le_mono_nonneg_r; [nia|]. lia. }
    assert (2 * w * k * ((T - 1) * (2 * T - 3)) ≤ N * ((T - 1) * (2 * T - 3))) as Hm.
    { apply Z.mul_le_mono_nonneg_r; [nia | lia]. }
    assert (2 * (T * T) < k * (5 * T - 3)) as Hc.
    { assert (2 * w * (2 * (T * T)) < 2 * w * (k * (5 * T - 3))) as Hc'.
      { clear - Hs Hlow' Hm. nia. }
      apply Z.mul_lt_mono_pos_l in Hc'; lia. }
    assert (k ≤ N) as HkN by (clear - HN Hr Hw Hk; nia).
    clear - Hc HT HT4 HkN Hk. nia.
  - intros Hr0.
    destruct (Z.le_gt_cases k nh) as [|Hlt]; [lia|]. exfalso.
    assert (4 * (nh + 1) * (T * T) * w ≤ 4 * k * (T * T) * w) as Hs.
    { apply Z.mul_le_mono_nonneg_r; [lia|].
      apply Z.mul_le_mono_nonneg_r; [nia|]. lia. }
    assert (2 * (T * T) < N * (5 * T - 3)) as Hc.
    { assert (2 * (T * T) ≤ 2 * r * (T * T)) as Hrr
        by (apply Z.mul_le_mono_nonneg_r; [nia | lia]).
      clear - Hs Hlow' HN Hrr. nia. }
    clear - Hc HT HT4 HNpos. nia.
Qed.

(** * The claims *)

(** ** C2: the new height *)

(** C2, counterexample.  The height is truncated, not rounded, and it is
    not kept above zero: for a 4 x 7 image at width 2 the product is 1.75,
    the code returns 1 where the specification's formula gives 2; for a
    100 x 1 image at width 10 the code returns 0. *)
Lemma new_height_not_rounded :
  new_height 4 7 2 = Ok 1 ∧ spec_new_height 4 7 2 = 2 ∧
  new_height 100 1 10 = Ok 0.
Proof. vm_compute. done. Qed.

(** C2, as amended.  For every decoded image of width [w >= 1] and height
    [h >= 1] and every output width [>= 1] (all below [2^31], the sizes an
    image can have), the converter computes
    [int(output_width * (h / w) * 0.5)] in binary64 arithmetic without
    raising.  The product is a finite positive binary64 value [m * 2^e]
    that differs from the exact [output_width * h / (2 * w)] by at most one
    part in [2^51] (both sides are written as multiples of [2^-1074]); the
    new height is that value truncated toward zero, not rounded, and it is
    never negative.  It can be 0.  While [output_width * h < 2^51] the new
    height is the integer quotient [output_width * h // (2 * w)] whenever
    the division leaves a remainder, and that quotient or one less when it
    is exact. *)
Theorem new_height_truncated_nonneg width height output_width :
  1 ≤ width < 2 ^ 31 →
  1 ≤ height < 2 ^ 31 →
  1 ≤ output_width < 2 ^ 31 →
  ∃ nh m e,
    scaled_height width height output_width = Ok (S754_finite false m e) ∧
    -1074 ≤ e ∧
    Z.abs (2 * width * (Z.pos m * 2 ^ (e + 1074)) - output_width * height * 2 ^ 1074)
      * 2 ^ 51 ≤ output_width * height * 2 ^ 1074 ∧
    Ztrunc (S754_finite false m e) = Some nh ∧
    nh = Z.pos m * 2 ^ (e + 1074) / 2 ^ 1074 ∧
    new_height width height output_width = Ok nh ∧
    0 ≤ nh ∧
    (output_width * height < 2 ^ 51 →
     (output_width * height) / (2 * width) - 1 ≤ nh
       ≤ (output_width * height) / (2 * width) ∧
     ((output_width * height) mod (2 * width) ≠ 0 →
      nh = (output_width * height) / (2 * width))).
Proof.
  intros Hw Hh How.
  destruct (scaled_height_steps width height output_width Hw Hh How)
    as (Q & m & e & HQ & Hq & Hx & He & Herr & Htr).
  assert (0 < 2 ^ 1074) as HU by (apply Z.pow_pos_nonneg; lia).
  set (X := Z.pos m * 2 ^ (e + 1074)) in *.
  assert (0 ≤ X) as HX.
  { subst X. assert (0 < 2 ^ (e + 1074)) by (apply Z.pow_pos_nonneg; lia). lia. }
  exists (X / 2 ^ 1074), m, e.
  split; [exact Hx|]. split; [exact He|]. split.
  { pose proof (height_value_bound (2 ^ 1074) (2 ^ 53) width height output_width Q X
                  HU ltac:(lia) ltac:(lia) ltac:(lia) HQ ltac:(lia) Hq Herr) as Hb.
    change (2 ^ 53) with (4 * 2 ^ 51) in Hb. lia. }
  split; [exact Htr|]. split; [reflexivity|]. split.
  { unfold new_height. rewrite Hx. cbn [mbind result_bind]. unfold py_int.
    by rewrite Htr. }
  split; [apply Z.div_pos; lia|].
  intros Hprod.
  assert (4 * (output_width * height) < 2 ^ 53) as HT
    by (change (2 ^ 53) with (4 * 2 ^ 51); lia).
  apply (height_arith (2 ^ 1074) (2 ^ 53) width height output_width Q X);
    first [done | lia].
Qed.

Lemma new_height_truncated_nonneg_witness :
  ∃ nh m e,
    scaled_height 4 7 2 = Ok (S754_finite false m e) ∧
    Ztrunc (S754_finite false m e) = Some nh ∧
    new_height 4 7 2 = Ok nh ∧
    (2 * 7) / (2 * 4) - 1 ≤ nh ≤ (2 * 7) / (2 * 4) ∧
    ((2 * 7) mod (2 * 4) ≠ 0 → nh = (2 * 7) / (2 * 4)).
Proof.
  destruct (new_height_truncated_nonneg 4 7 2 ltac:(lia) ltac:(lia) ltac:(lia))
    as (nh & m & e & Hx & _ & _ & Htr & _ & Hnh & _ & Hfloor).
  destruct (Hfloor ltac:(lia)) as [Hb Hq].
  exists nh, m, e. split; [exact Hx|]. split; [exact Htr|]. split; [exact Hnh|].
  split; [exact Hb | exact Hq].
Defined.

(** ** C3: the contrast stretch *)

(** C3, counterexample.  At contrast 1.75 the sample 129 stretches to
    129.75; the code stores 129, the nearest integer is 130. *)
Lemma contrast_not_nearest :
  adjust_contrast (quarter 7) 129 = 129 ∧ spec_adjust_contrast 7 4 129 = 130.
Proof. vm_compute. done. Qed.

(** C3, as amended.  For every sample [v] in [0,255] and every contrast
    in [0.1, 5.0], the stretched value [(v - 128) * contrast + 128],
    computed in binary32 and clipped, is a finite value between 0 and 255,
    and the adjusted sample is that value truncated toward zero (not
    rounded to nearest); at the contrasts [k / 4] it is the exact stretch
    rounded down. *)
Theorem contrast_truncates_in_range contrast v :
  F64.valid contrast = true →
  SFleb f64_tenth contrast = true →
  SFleb contrast f64_five = true →
  0 ≤ v ≤ 255 →
  (∃ z, Ztrunc (contrast_clipped contrast v) = Some z ∧ 0 ≤ z ≤ 255 ∧
        adjust_contrast contrast v = z) ∧
  (∀ k, 1 ≤ k ≤ 20 → adjust_contrast (quarter k) v = exact_stretch k v).
Proof.
  intros Hv Hlo Hhi Hrange. split.
  - by apply contrast_clipped_range.
  - intros k Hk. pose proof quarters_check as H.
    rewrite forallb_forall in H.
    specialize (H k ltac:(apply list_elem_of_In, elem_of_seqZ; lia)).
    rewrite forallb_forall in H.
    specialize (H v ltac:(apply list_elem_of_In, elem_of_seqZ; lia)).
    by apply Z.eqb_eq in H.
Qed.

Lemma contrast_truncates_in_range_witness :
  F64.valid (quarter 7) = true ∧
  SFleb f64_tenth (quarter 7) = true ∧
  SFleb (quarter 7) f64_five = true ∧
  0 ≤ 129 ≤ 255 ∧
  (∃ z, Ztrunc (contrast_clipped (quarter 7) 129) = Some z ∧ 0 ≤ z ≤ 255 ∧
        adjust_contrast (quarter 7) 129 = z) ∧
  (∀ k, 1 ≤ k ≤ 20 → adjust_contrast (quarter k) 129 = exact_stretch k 129).
Proof.
  split; [vm_compute; reflexivity|]. split; [vm_compute; reflexivity|].
  split; [vm_compute; reflexivity|]. split; [lia|].
  apply (contrast_truncates_in_range (quarter 7) 129);
    try (vm_compute; reflexivity); lia.
Defined.

(** ** C4: the character index and the ramp *)

Lemma samples_in_unit_upto2_one : samples_in_unit powf_upto2 f64_one.
Proof.
  intros p Hp.
  apply (samples_forall (λ p, unit_f32 (gamma_corrected powf_upto2 f64_one p)));
    [vm_compute; reflexivity | exact Hp].
Qed.

Lemma samples_in_unit_upto2_two : samples_in_unit powf_upto2 f64_two.
Proof.
  intros p Hp.
  apply (samples_forall (λ p, unit_f32 (gamma_corrected powf_upto2 f64_two p)));
    [vm_compute; reflexivity | exact Hp].
Qed.

(** C4, counterexample.  Nothing in the converter restricts gamma or
    clamps the index.  At gamma -1 the sample 128, normalized to about
    0.502, is raised to about 1.992 and its index is [int(1.992 * 69)]:
    137, beyond the ramp.  The two binary32 neighbours of the power map to
    137 as well, so this does not depend on how a [powf] rounds its last
    bit.  The lookup raises [IndexError], and so does the conversion of
    the mid-gray image. *)
Lemma gamma_minus_one_leaves_ramp :
  char_index powf_recip f64_minus_one 128 = 137 ∧
  ramp_index (SFpred F32.prec F32.emax (gamma_corrected powf_recip f64_minus_one 128))
  = 137 ∧
  ramp_index (SFsucc F32.prec F32.emax (gamma_corrected powf_recip f64_minus_one 128))
  = 137 ∧
  char_length = 70 ∧
  py_getitem ASCII_CHARS 137 = Raise IndexError ∧
  generate_ascii_art nearest_filter powf_recip (λ _, Ok gray_100x50) "photo.png" 10
    (quarter 4) f64_minus_one
  = Raise (RuntimeError "generate_ascii_art" IndexError).
Proof. vm_compute. done. Qed.

(** C4, as amended.  For every sample that the converter maps (the samples
    of the resized image), whenever the gamma is one for which [powf]
    keeps the normalized samples in the unit interval, the computed index
    lies in [0, |ramp| - 1], so the lookup into the ramp succeeds; the
    ramp is a fixed non-empty string of exactly 70 characters that starts
    with "@" and ends with the blank. *)
Theorem char_index_in_ramp lanczos powf contrast gamma img size img' :
  samples_in_unit powf gamma →
  Image_resize lanczos (apply_contrast contrast img) size = Ok img' →
  Forall (λ p, 0 ≤ char_index powf gamma p ≤ char_length - 1 ∧
               is_ok (py_getitem ASCII_CHARS (char_index powf gamma p)) = true)
         (im_pixels img') ∧
  char_length = 70 ∧ ASCII_CHARS ≠ [] ∧
  head ASCII_CHARS = Some "@"%char ∧ last ASCII_CHARS = Some " "%char.
Proof.
  intros Hunit Hres. split; [|by vm_compute].
  assert (Forall (λ p, 0 ≤ p ≤ 255) (im_pixels img')) as Hpix.
  { eapply Image_resize_samples; [|exact Hres]. simpl.
    apply Forall_forall. intros p [v [-> _]]%list_elem_of_fmap.
    apply astype_uint8_range. }
  eapply Forall_impl; [exact Hpix|]. intros p Hp. cbv beta.
  pose proof (char_index_range powf gamma p (Hunit p Hp)) as Hr.
  split; [exact Hr|]. apply py_getitem_ok. unfold char_length in Hr. lia.
Qed.

Lemma char_index_in_ramp_witness :
  samples_in_unit powf_upto2 f64_one ∧
  ∃ img', Image_resize nearest_filter (apply_contrast (quarter 4) gray_100x50) (10, 2)
          = Ok img' ∧
    Forall (λ p, 0 ≤ char_index powf_upto2 f64_one p ≤ char_length - 1 ∧
                 is_ok (py_getitem ASCII_CHARS (char_index powf_upto2 f64_one p)) = true)
           (im_pixels img').
Proof.
  split; [exact samples_in_unit_upto2_one|].
  eexists. split; [reflexivity|].
  eapply (char_index_in_ramp nearest_filter powf_upto2 (quarter 4) f64_one gray_100x50 (10, 2)).
  - exact samples_in_unit_upto2_one.
  - reflexivity.
Defined.

(** ** C5: monotonicity of the mapping *)

(** C5, counterexample.  The sample 128 has a normalized value strictly
    between 0 and 1; at gamma 1 it maps to index 34, at gamma 2 to index
    17: raising gamma above 1 decreased the index.  The two binary32
    neighbours of the square map to 17 as well, so the index does not
    depend on how a [powf] rounds its last bit. *)
Lemma gamma_above_one_decreases :
  SFltb (S754_zero false) (normalized 128) = true ∧
  SFltb (normalized 128) (F32.of_Z 1) = true ∧
  char_index powf_upto2 f64_one 128 = 34 ∧
  char_index powf_upto2 f64_two 128 = 17 ∧
  ramp_index (SFpred F32.prec F32.emax (gamma_corrected powf_upto2 f64_two 128)) = 17 ∧
  ramp_index (SFsucc F32.prec F32.emax (gamma_corrected powf_upto2 f64_two 128)) = 17.
Proof. vm_compute. done. Qed.

(** C5, as amended.  For a fixed gamma for which [powf] keeps the samples
    in the unit interval and in order, the mapping from the sample to the
    character index is monotonic non-decreasing; and for a fixed sample, a
    gamma whose corrected value is not above the one at gamma 1 (as for
    every gamma above 1 on normalized values in (0,1)) never increases the
    index relative to gamma 1. *)
Theorem gamma_mapping_monotone powf gamma :
  samples_in_unit powf gamma →
  samples_monotone powf gamma →
  (∀ p q, 0 ≤ p → p ≤ q → q ≤ 255 →
     char_index powf gamma p ≤ char_index powf gamma q) ∧
  (∀ p, 0 ≤ p ≤ 255 →
     unit_f32 (gamma_corrected powf f64_one p) = true →
     SFleb (gamma_corrected powf gamma p) (gamma_corrected powf f64_one p) = true →
     char_index powf gamma p ≤ char_index powf f64_one p).
Proof.
  intros Hunit Hmono. split.
  - intros p q Hp Hpq Hq.
    assert (∀ n : nat, p + Z.of_nat n ≤ 255 →
              char_index powf gamma p ≤ char_index powf gamma (p + Z.of_nat n)) as Hind.
    { induction n as [|n IH]; intros Hn.
      - rewrite Z.add_0_r. lia.
      - etransitivity; [apply IH; lia|].
        replace (p + Z.of_nat (S n)) with (p + Z.of_nat n + 1) by lia.
        apply ramp_index_mono; [apply Hunit; lia | apply Hunit; lia | apply Hmono; lia]. }
    specialize (Hind (Z.to_nat (q - p))).
    replace (p + Z.of_nat (Z.to_nat (q - p))) with q in Hind by lia.
    apply Hind. lia.
  - intros p Hp Hone Hle. apply ramp_index_mono; [by apply Hunit | done | done].
Qed.

Lemma samples_monotone_upto2_two : samples_monotone powf_upto2 f64_two.
Proof.
  intros p Hp Hlt.
  pose proof (samples_forall
                (λ p, (255 <=? p) ||
                      SFleb (gamma_corrected powf_upto2 f64_two p)
                            (gamma_corrected powf_upto2 f64_two (p + 1)))
                ltac:(vm_compute; reflexivity) p ltac:(lia)) as H.
  cbv beta in H. destruct (Z.leb_spec 255 p); [lia | exact H].
Qed.

Lemma gamma_mapping_monotone_witness :
  samples_in_unit powf_upto2 f64_two ∧
  samples_monotone powf_upto2 f64_two ∧
  char_index powf_upto2 f64_two 100 ≤ char_index powf_upto2 f64_two 200 ∧
  char_index powf_upto2 f64_two 128 ≤ char_index powf_upto2 f64_one 128.
Proof.
  split; [exact samples_in_unit_upto2_two|].
  split; [exact samples_monotone_upto2_two|].
  destruct (gamma_mapping_monotone powf_upto2 f64_two
              samples_in_unit_upto2_two samples_monotone_upto2_two) as [H1 H2].
  split.
  - apply H1; lia.
  - apply H2; [lia | vm_compute; reflexivity | vm_compute; reflexivity].
Defined.

Lemma mapM_result_length {A B} (f : A → result B) (l : list A) l' :
  mapM f l = Ok l' → length l' = length l.
Proof.
  revert l'. induction l as [|x l IH]; intros l'; cbn.
  - by intros [= <-].
  - destruct (f x) as [y|e]; cbn; [|done].
    destruct (mapM f l) as [k|e]; cbn; [|done].
    intros [= <-]. simpl. by rewrite (IH k).
Qed.

Lemma new_height_zero_width height output_width :
  new_height 0 height output_width = Raise ZeroDivisionError.
Proof. reflexivity. Qed.

Section Converter_claims.
Variable lanczos : resampler.
Variable powf : spec_float → spec_float → spec_float.
Variable Image_open : string → result image.

(** What a successful resize says about the request and the result. *)
Lemma Image_resize_inv img xsize ysize img' :
  wf_image img →
  Image_resize lanczos img (xsize, ysize) = Ok img' →
  wf_image img' ∧
  im_width img' = Z.to_nat xsize ∧ im_height img' = Z.to_nat ysize ∧
  ((1 ≤ xsize ∧ 1 ≤ ysize) ∨
   (xsize = Z.of_nat (im_width img) ∧ ysize = Z.of_nat (im_height img))).
Proof.
  intros Hwf. unfold Image_resize.
  destruct ((xsize =? Z.of_nat (im_width img)) && (ysize =? Z.of_nat (im_height img)))
    eqn:Hid.
  - apply andb_prop in Hid as [Hxe%Z.eqb_eq Hye%Z.eqb_eq].
    intros [= <-]. split; [exact Hwf|]. split; [lia|]. split; [lia|]. by right.
  - destruct (negb (c_int xsize && c_int ysize)); [done|].
    destruct (Z.ltb_spec xsize 1), (Z.ltb_spec ysize 1); cbn [orb]; try done.
    destruct (negb (resample_alloc lanczos img xsize ysize)); [done|].
    intros [= <-]. cbn [im_width im_height]. split; [|by split; [|split; [|left]]].
    destruct Hwf as [Hlen Hpix]. split; simpl.
    + by rewrite length_map, length_seq.
    + apply Forall_forall. intros p [i [-> _]]%list_elem_of_fmap.
      unfold clip8. lia.
Qed.

(** Whenever the stream is produced, it has one character per sample of
    an image that is [output_width] wide and [nh] tall. *)
Lemma ascii_stream_inv img output_width contrast gamma s :
  length (im_pixels img) = (im_width img * im_height img)%nat →
  ascii_stream lanczos powf img output_width contrast gamma = Ok s →
  ∃ nh, new_height (Z.of_nat (im_width img)) (Z.of_nat (im_height img)) output_width
        = Ok nh ∧
        1 ≤ output_width ∧ 0 ≤ nh ∧
        length s = (Z.to_nat output_width * Z.to_nat nh)%nat.
Proof.
  intros Hlen. unfold ascii_stream.
  change (im_width (apply_contrast contrast img)) with (im_width img).
  change (im_height (apply_contrast contrast img)) with (im_height img).
  destruct (new_height _ _ output_width) as [nh|e] eqn:Hnh; cbn [mbind result_bind]; [|done].
  destruct (Image_resize lanczos (apply_contrast contrast img) (output_width, nh))
    as [img'|e] eqn:Hres; cbn [mbind result_bind]; [|done].
  intros Hs. apply mapM_result_length in Hs. rewrite length_map in Hs.
  apply Image_resize_inv in Hres as ([Hlen' _] & Hw' & Hh' & Hcase);
    [|by apply apply_contrast_wf].
  exists nh. split; [done|].
  assert (im_width img ≠ 0%nat) as Hw0.
  { intros H0. rewrite H0 in Hnh. simpl in Hnh. by rewrite new_height_zero_width in Hnh. }
  simpl in Hcase.
  split; [lia|]. split; [lia|].
  rewrite Hs, Hlen', Hw', Hh'. reflexivity.
Qed.

(** The grid, once the stream is known. *)
Lemma ascii_of_image_lines img output_width contrast gamma s nh :
  ascii_stream lanczos powf img output_width contrast gamma = Ok s →
  1 ≤ output_width →
  length s = (Z.to_nat output_width * Z.to_nat nh)%nat →
  ∃ lines, ascii_of_image lanczos powf img output_width contrast gamma = Ok lines ∧
           length lines = Z.to_nat nh ∧
           Forall (λ l, length l = Z.to_nat output_width) lines ∧
           concat lines = s.
Proof.
  intros Hs How Hlen. unfold ascii_of_image. rewrite Hs. cbn [mbind result_bind].
  by apply split_lines_exact.
Qed.

(** ** C1: the shape of the grid *)

(** C1, as amended.  For every image that decodes successfully (width and
    height at least 1) and every output width [>= 1], with a gamma for
    which [powf] keeps the samples in the unit interval: the new height
    [nh] is computed and is not negative.  When [nh >= 1] and the resize
    can produce the size (it fits the C [int]s of the imaging core and the
    resampler can allocate it), the converter returns a grid of exactly
    [nh] lines in which every line except possibly the last has length
    exactly [output_width]; when the resize cannot produce the size, the
    converter raises its [OverflowError] or [MemoryError].  When [nh = 0]
    (an image more than [2 * output_width] times wider than tall) the
    resize refuses the size and the converter raises instead of returning
    a grid. *)
Theorem convert_grid_shape image_path img output_width contrast gamma :
  Image_open image_path = Ok img →
  length (im_pixels img) = (im_width img * im_height img)%nat →
  (1 ≤ im_width img)%nat →
  1 ≤ Z.of_nat (im_height img) < 2 ^ 31 →
  1 ≤ output_width < 2 ^ 31 →
  samples_in_unit powf gamma →
  ∃ nh,
    new_height (Z.of_nat (im_width img)) (Z.of_nat (im_height img)) output_width = Ok nh ∧
    0 ≤ nh ∧
    (nh = 0 →
       generate_ascii_art lanczos powf Image_open image_path output_width contrast gamma
       = Raise (RuntimeError "generate_ascii_art" resize_error) ∧
       high_precision_image_to_ascii lanczos powf Image_open image_path output_width
         contrast gamma = Raise resize_error) ∧
    (1 ≤ nh →
       resizable lanczos (apply_contrast contrast img) output_width nh = true →
       ∃ lines,
         generate_ascii_art lanczos powf Image_open image_path output_width contrast gamma
         = Ok lines ∧
         high_precision_image_to_ascii lanczos powf Image_open image_path output_width
           contrast gamma = Ok lines ∧
         Z.of_nat (length lines) = nh ∧
         ∀ i l, lines !! i = Some l → (i + 1 < length lines)%nat →
                Z.of_nat (length l) = output_width) ∧
    (1 ≤ nh →
       resizable lanczos (apply_contrast contrast img) output_width nh = false →
       ∃ e,
         e = (if c_int nh then MemoryError else OverflowError) ∧
         generate_ascii_art lanczos powf Image_open image_path output_width contrast gamma
         = Raise (RuntimeError "generate_ascii_art" e) ∧
         high_precision_image_to_ascii lanczos powf Image_open image_path output_width
           contrast gamma = Raise e).
Proof.
  intros Hopen Hlen Hw Hh How Hunit.
  destruct (new_height_nonneg (Z.of_nat (im_width img)) (Z.of_nat (im_height img))
              output_width ltac:(lia) ltac:(lia) How) as (nh & Hnh & Hnh0).
  assert (c_int output_width = true) as Hcw by (apply c_int_range; lia).
  exists nh. split; [done|]. split; [done|].
  unfold generate_ascii_art, high_precision_image_to_ascii, ascii_of_image.
  rewrite Hopen. cbn [mbind result_bind]. split; [|split].
  - intros ->.
    rewrite (ascii_stream_refused lanczos powf img output_width contrast gamma 0 Hnh);
      [done | lia | | done | done].
    intros [= _ H0]. lia.
  - intros Hnh1 Hfit.
    destruct (ascii_stream_ok lanczos powf img output_width contrast gamma nh
                Hlen ltac:(lia) Hnh Hnh1 Hfit Hunit) as (s & Hs & Hslen).
    destruct (ascii_of_image_lines img output_width contrast gamma s nh Hs ltac:(lia) Hslen)
      as (lines & Hl & Hn & Hall & _).
    unfold ascii_of_image in Hl. rewrite Hl.
    exists lines. split; [done|]. split; [done|]. split; [lia|].
    intros i l Hi _. rewrite Forall_forall in Hall.
    rewrite (Hall l); [lia|]. by eapply list_elem_of_lookup_2.
  - intros Hnh1 Hfit. eexists. split; [reflexivity|].
    unfold ascii_stream.
    change (im_width (apply_contrast contrast img)) with (im_width img).
    change (im_height (apply_contrast contrast img)) with (im_height img).
    rewrite Hnh. cbn [mbind result_bind].
    rewrite (Image_resize_unfit lanczos (apply_contrast contrast img) output_width nh
               ltac:(lia) Hnh1 Hfit).
    rewrite Hcw. cbn [andb mbind result_bind py_try]. done.
Qed.

(** ** C10: every line is full *)

(** C10.  Whenever the converter returns (either function), the character
    stream has length exactly [output_width * nh], because the resized
    image is exactly [output_width] samples wide and [nh] tall; every line
    of the grid, the final one included, has length exactly
    [output_width], and the lines put end to end are the stream.  Under
    the conditions of C1 with [nh >= 1] and a size that the resize can
    produce, the converter does return. *)
Theorem stream_fills_every_line image_path img output_width contrast gamma :
  Image_open image_path = Ok img →
  length (im_pixels img) = (im_width img * im_height img)%nat →
  (∀ lines,
     generate_ascii_art lanczos powf Image_open image_path output_width contrast gamma
     = Ok lines ∨
     high_precision_image_to_ascii lanczos powf Image_open image_path output_width
       contrast gamma = Ok lines →
     ∃ nh s,
       new_height (Z.of_nat (im_width img)) (Z.of_nat (im_height img)) output_width
       = Ok nh ∧
       ascii_stream lanczos powf img output_width contrast gamma = Ok s ∧
       Z.of_nat (length s) = output_width * nh ∧
       Z.of_nat (length lines) = nh ∧
       Forall (λ l, Z.of_nat (length l) = output_width) lines ∧
       concat lines = s) ∧
  (∀ nh,
     new_height (Z.of_nat (im_width img)) (Z.of_nat (im_height img)) output_width = Ok nh →
     1 ≤ nh → 1 ≤ output_width → samples_in_unit powf gamma →
     resizable lanczos (apply_contrast contrast img) output_width nh = true →
     ∃ lines,
       generate_ascii_art lanczos powf Image_open image_path output_width contrast gamma
       = Ok lines ∧
       high_precision_image_to_ascii lanczos powf Image_open image_path output_width
         contrast gamma = Ok lines).
Proof.
  intros Hopen Hlen. split.
  - intros lines Hret.
    assert (ascii_of_image lanczos powf img output_width contrast gamma = Ok lines)
      as Himg.
    { revert Hret. unfold generate_ascii_art, high_precision_image_to_ascii.
      rewrite Hopen. cbn [mbind result_bind].
      destruct (ascii_of_image lanczos powf img output_width contrast gamma);
        intros [H|H]; done. }
    revert Himg. unfold ascii_of_image.
    destruct (ascii_stream lanczos powf img output_width contrast gamma)
      as [s|e] eqn:Hs; cbn [mbind result_bind]; [|done].
    intros Hsplit.
    destruct (ascii_stream_inv img output_width contrast gamma s Hlen Hs)
      as (nh & Hnh & How & Hnh0 & Hslen).
    destruct (split_lines_exact s output_width (Z.to_nat nh) How Hslen)
      as (lines' & Hl & Hn & Hall & Hcat).
    rewrite Hl in Hsplit. injection Hsplit as <-.
    exists nh, s. split; [done|]. split; [done|]. split; [lia|]. split; [lia|].
    split; [|done].
    eapply Forall_impl; [exact Hall|]. intros l Hl'. cbv beta in *. lia.
  - intros nh Hnh Hnh1 How Hunit Hfit.
    destruct (ascii_stream_ok lanczos powf img output_width contrast gamma nh
                Hlen How Hnh Hnh1 Hfit Hunit) as (s & Hs & Hslen).
    destruct (ascii_of_image_lines img output_width contrast gamma s nh Hs How Hslen)
      as (lines & Hl & _).
    exists lines. unfold generate_ascii_art, high_precision_image_to_ascii.
    rewrite Hopen. cbn [mbind result_bind]. by rewrite Hl.
Qed.

End Converter_claims.

(** C1, counterexample.  An image 100 samples wide and 1 sample tall
    decodes, the output width 10 is at least 1, yet the new height is
    [int(10 * 0.01 * 0.5) = 0] and the converter raises: no grid is
    returned. *)
Lemma convert_flat_image_fails :
  new_height 100 1 10 = Ok 0 ∧
  generate_ascii_art nearest_filter powf_upto2 (λ _, Ok gray_100x1) "photo.png" 10
    (quarter 4) f64_one
  = Raise (RuntimeError "generate_ascii_art" resize_error).
Proof. vm_compute. done. Qed.

Lemma convert_grid_shape_witness :
  new_height 100 50 10 = Ok 2 ∧
  ∃ lines,
    generate_ascii_art nearest_filter powf_upto2 (λ _, Ok gray_100x50) "photo.png" 10
      (quarter 4) f64_one = Ok lines ∧
    high_precision_image_to_ascii nearest_filter powf_upto2 (λ _, Ok gray_100x50)
      "photo.png" 10 (quarter 4) f64_one = Ok lines ∧
    Z.of_nat (length lines) = 2 ∧
    ∀ i l, lines !! i = Some l → (i + 1 < length lines)%nat →
           Z.of_nat (length l) = 10.
Proof.
  assert (new_height 100 50 10 = Ok 2) as H2 by (vm_compute; reflexivity).
  split; [exact H2|].
  destruct (convert_grid_shape nearest_filter powf_upto2 (λ _, Ok gray_100x50)
              "photo.png" gray_100x50 10 (quarter 4) f64_one)
    as (nh & Hnh & Hnh0 & _ & Hok & _).
  - reflexivity.
  - reflexivity.
  - simpl. lia.
  - simpl. lia.
  - lia.
  - exact samples_in_unit_upto2_one.
  - change (Z.of_nat (im_width gray_100x50)) with 100 in Hnh.
    change (Z.of_nat (im_height gray_100x50)) with 50 in Hnh.
    rewrite H2 in Hnh. injection Hnh as <-.
    apply Hok; [lia | vm_compute; reflexivity].
Defined.

Lemma stream_fills_every_line_witness :
  ∃ lines,
    generate_ascii_art nearest_filter powf_upto2 (λ _, Ok gray_100x50) "photo.png" 10
      (quarter 4) f64_one = Ok lines ∧
    Z.of_nat (length lines) = 2 ∧
    Forall (λ l, Z.of_nat (length l) = 10) lines.
Proof.
  destruct (stream_fills_every_line nearest_filter powf_upto2 (λ _, Ok gray_100x50)
              "photo.png" gray_100x50 10 (quarter 4) f64_one eq_refl eq_refl)
    as [Hinv Hret].
  destruct (Hret 2) as (lines & Hl & _).
  - vm_compute. reflexivity.
  - lia.
  - lia.
  - exact samples_in_unit_upto2_one.
  - vm_compute. reflexivity.
  - exists lines. split; [exact Hl|].
    destruct (Hinv lines (or_introl Hl)) as (nh & s & Hnh & _ & _ & Hn & Hall & _).
    split; [|exact Hall].
    rewrite Hn. vm_compute in Hnh. by injection Hnh as <-.
Defined.

(** ** C6: failures of the converter *)

(** At output width 0 the product is 0 and so is the new height. *)
Lemma new_height_width_zero width height :
  1 ≤ width → 0 ≤ height < 2 ^ 31 → new_height width height 0 = Ok 0.
Proof.
  intros Hw Hh. unfold new_height, scaled_height.
  destruct (py_truediv_nonneg height width Hh Hw) as (x & -> & [->|(m & e & -> & _)]);
    reflexivity.
Qed.

Section Failure_claims.
Variable lanczos : resampler.
Variable powf : spec_float → spec_float → spec_float.
Variable ImageFont_truetype : string → Z → result font.
Variable ImageFont_load_default : result font.
Variable png_encode : bitmap → result string.
Variable png_partial : bitmap → string.
Variable can_write : world → string → bool.
Variable Image_decode : string → result image.
Variable path_stem : string → string.
Variable os_path_join : string → string → string.
Variable can_mkdir : world → string → bool.
Variable path_heads : string → list string.

(** No stream is produced at an output width below 1: the height
    computation raises, or the resize does. *)
Lemma ascii_stream_nonpositive img output_width contrast gamma :
  output_width ≤ 0 →
  ∃ e, ascii_stream lanczos powf img output_width contrast gamma = Raise e ∧
       (new_height (Z.of_nat (im_width img)) (Z.of_nat (im_height img)) output_width
        = Raise e ∨ e = OverflowError ∨ e = resize_error) ∧
       (output_width = 0 → (1 ≤ im_width img)%nat → Z.of_nat (im_height img) < 2 ^ 31 →
        e = resize_error).
Proof.
  intros How. unfold ascii_stream.
  change (im_width (apply_contrast contrast img)) with (im_width img).
  change (im_height (apply_contrast contrast img)) with (im_height img).
  destruct (new_height (Z.of_nat (im_width img)) (Z.of_nat (im_height img)) output_width)
    as [nh|e] eqn:Hnh; cbn [mbind result_bind].
  - assert (1 ≤ im_width img)%nat as Hw.
    { destruct (im_width img) eqn:Hw0; [|lia].
      change (Z.of_nat 0) with 0 in Hnh. by rewrite new_height_zero_width in Hnh. }
    destruct (Image_resize_nonpositive lanczos (apply_contrast contrast img)
                output_width nh How Hw) as (e & He & Hcause).
    rewrite He. exists e. split; [reflexivity|]. split; [by right|].
    intros -> _ Hh.
    rewrite new_height_width_zero in Hnh by lia. injection Hnh as <-.
    rewrite Image_resize_refused in He; [by injection He | lia | | done | done].
    intros [= H0 _]. simpl in H0. lia.
  - exists e. split; [reflexivity|]. split; [by left|].
    intros -> Hw Hh. rewrite new_height_width_zero in Hnh by lia. done.
Qed.

(** Whenever a grid is returned, the image had opened and the output
    width was at least 1. *)
Lemma convert_returned image_path output_width contrast gamma w lines :
  generate_ascii_art lanczos powf (Image_open Image_decode w) image_path output_width
    contrast gamma = Ok lines ∨
  high_precision_image_to_ascii lanczos powf (Image_open Image_decode w) image_path
    output_width contrast gamma = Ok lines →
  1 ≤ output_width ∧
  ∃ img, Image_open Image_decode w image_path = Ok img.
Proof.
  intros Hret.
  destruct (Image_open Image_decode w image_path) as [img|e] eqn:Hopen.
  2:{ revert Hret. unfold generate_ascii_art, high_precision_image_to_ascii.
      rewrite Hopen. by intros [|]. }
  split; [|by exists img].
  destruct (Z.le_gt_cases output_width 0) as [Hle|]; [exfalso | lia].
  destruct (ascii_stream_nonpositive img output_width contrast gamma Hle) as (e & He & _).
  revert Hret. unfold generate_ascii_art, high_precision_image_to_ascii, ascii_of_image.
  rewrite Hopen. cbn [mbind result_bind]. rewrite He. by intros [|].
Qed.

(** C6.  The converter fails whenever the output width is [<= 0]: around
    the error of [Image.open] if the image does not open, and otherwise
    around the error of the height computation or of the resize, which at
    width 0 is the resize's refusal of the size; [generate_ascii_art]
    raises its one [RuntimeError] around that cause, the function of
    test.py raises the cause itself.  It fails around the error of
    [Image.open] when the image cannot be opened or decoded.  An image of
    zero width or height is never what [Image.open] yields, so a grid is
    returned only for an output width of at least 1 and an image with at
    least one column and one row.  When the worker runs with a width
    [<= 0] no file is created or changed, the run never ends as done, and
    once the conversion was attempted it ends with the error in the status
    bar and in one error box. *)
Theorem convert_failures :
  decodes_sized Image_decode →
  (∀ w image_path output_width contrast gamma,
     output_width ≤ 0 →
     ∃ e,
       generate_ascii_art lanczos powf (Image_open Image_decode w) image_path
         output_width contrast gamma = Raise (RuntimeError "generate_ascii_art" e) ∧
       high_precision_image_to_ascii lanczos powf (Image_open Image_decode w) image_path
         output_width contrast gamma = Raise e ∧
       match Image_open Image_decode w image_path with
       | Raise e' => e = e'
       | Ok img =>
           (new_height (Z.of_nat (im_width img)) (Z.of_nat (im_height img)) output_width
            = Raise e ∨ e = OverflowError ∨ e = resize_error) ∧
           (output_width = 0 → Z.of_nat (im_height img) < 2 ^ 31 → e = resize_error)
       end) ∧
  (∀ w image_path output_width contrast gamma e,
     Image_open Image_decode w image_path = Raise e →
     generate_ascii_art lanczos powf (Image_open Image_decode w) image_path
       output_width contrast gamma = Raise (RuntimeError "generate_ascii_art" e) ∧
     high_precision_image_to_ascii lanczos powf (Image_open Image_decode w) image_path
       output_width contrast gamma = Raise e) ∧
  (∀ w image_path output_width contrast gamma lines,
     generate_ascii_art lanczos powf (Image_open Image_decode w) image_path output_width
       contrast gamma = Ok lines ∨
     high_precision_image_to_ascii lanczos powf (Image_open Image_decode w) image_path
       output_width contrast gamma = Ok lines →
     1 ≤ output_width ∧
     ∃ img, Image_open Image_decode w image_path = Ok img ∧
            (1 ≤ im_width img)%nat ∧ (1 ≤ im_height img)%nat) ∧
  (∀ u font_cache w,
     width_var (AsciiArtUI.vars u) ≤ 0 →
     ∃ u' w',
       AsciiArtUI.generate_ascii lanczos powf ImageFont_truetype ImageFont_load_default
         png_encode png_partial can_write Image_decode path_stem os_path_join can_mkdir
         path_heads u font_cache w = (u', font_cache, w') ∧
       fs_files w' = fs_files w ∧
       (∀ d, AsciiArtUI.status_var u' ≠ AsciiArtUI.Status_done d) ∧
       (input_path (AsciiArtUI.vars u) ≠ "" →
        os_path_exists w (input_path (AsciiArtUI.vars u)) = true →
        fst (AsciiArtUI.ensure_output_dir can_mkdir path_heads w
               (output_dir (AsciiArtUI.vars u))) = Ok () →
        ∃ e,
          AsciiArtUI.status_var u'
          = AsciiArtUI.Status_error (RuntimeError "generate_ascii_art" e) ∧
          AsciiArtUI.dialogs u'
          = AsciiArtUI.dialogs u
            ++ [AsciiArtUI.Showerror (RuntimeError "generate_ascii_art" e)])).
Proof.
  intros Hdec. split; [|split; [|split]].
  - intros w image_path output_width contrast gamma How.
    unfold generate_ascii_art, high_precision_image_to_ascii, ascii_of_image.
    destruct (Image_open Image_decode w image_path) as [img|e'] eqn:Hopen;
      cbn [mbind result_bind py_try]; [|by exists e'].
    destruct (ascii_stream_nonpositive img output_width contrast gamma How)
      as (e & -> & Hcause & Hzero).
    exists e. cbn [mbind result_bind py_try]. split; [done|]. split; [done|].
    split; [done|]. intros H0 Hh. apply Hzero; [done | | done].
    revert Hopen. unfold Image_open. destruct (fs_files w !! image_path); [|done].
    intros Hd. by apply Hdec in Hd as (? & _).
  - intros w image_path output_width contrast gamma e Hopen.
    unfold generate_ascii_art, high_precision_image_to_ascii. by rewrite Hopen.
  - intros w image_path output_width contrast gamma lines Hret.
    destruct (convert_returned image_path output_width contrast gamma w lines Hret)
      as (How & img & Hopen).
    split; [done|]. exists img. split; [done|].
    revert Hopen. unfold Image_open. destruct (fs_files w !! image_path); [|done].
    intros Hd. by apply Hdec in Hd as (? & ? & _).
  - intros u font_cache w How.
    unfold AsciiArtUI.generate_ascii, AsciiArtUI.generate_ascii_try.
    set (s := AsciiArtUI.vars u) in *.
    destruct (bool_decide (input_path s = "")) eqn:Hempty; cbn [orb].
    { eexists _, _. split; [reflexivity|]. split; [done|]. split; [done|].
      intros Hne. by apply bool_decide_eq_true in Hempty. }
    destruct (os_path_exists w (input_path s)) eqn:Hex; cbn [orb negb].
    2:{ eexists _, _. split; [reflexivity|]. split; [done|]. split; [done|]. done. }
    destruct (AsciiArtUI.ensure_output_dir can_mkdir path_heads w (output_dir s))
      as [made w0] eqn:Hmk.
    pose proof (ensure_output_dir_frame _ _ _ _ _ _ Hmk) as (Hf0 & _).
    destruct made as [[]|e0].
    2:{ eexists _, _. split; [reflexivity|]. split; [done|]. split; [done|]. done. }
    assert (∃ e, generate_ascii_art lanczos powf (Image_open Image_decode w0) (input_path s)
                   (width_var s) (contrast_var s) (gamma_var s)
                 = Raise (RuntimeError "generate_ascii_art" e)) as [e ->].
    { unfold generate_ascii_art, ascii_of_image.
      destruct (Image_open Image_decode w0 (input_path s)) as [img|e];
        cbn [mbind result_bind py_try]; [|by eexists].
      destruct (ascii_stream_nonpositive img (width_var s) (contrast_var s) (gamma_var s)
                  How) as (e & -> & _).
      by eexists. }
    eexists _, _. split; [reflexivity|]. split; [done|]. split; [done|].
    intros _ _ _. by exists e.
Qed.

End Failure_claims.

Lemma convert_failures_witness :
  generate_ascii_art nearest_filter powf_upto2 (Image_open (λ _, Ok gray_100x50) photo_world)
    "photo.png" 0 (quarter 4) f64_one
  = Raise (RuntimeError "generate_ascii_art" resize_error) ∧
  generate_ascii_art nearest_filter powf_upto2 (Image_open (λ _, Ok gray_100x50) photo_world)
    "absent.png" 10 (quarter 4) f64_one
  = Raise (RuntimeError "generate_ascii_art" (OSError "absent.png")) ∧
  AsciiArtUI.status_var (fst (fst (demo_run (run_window 0) photo_world)))
  = AsciiArtUI.Status_error (RuntimeError "generate_ascii_art" resize_error) ∧
  fs_files (snd (demo_run (run_window 0) photo_world)) = fs_files photo_world.
Proof.
  assert (decodes_sized (λ _ : string, Ok gray_100x50)) as Hdec.
  { intros data img [= <-]. cbn. repeat split; lia. }
  destruct (convert_failures nearest_filter powf_upto2 no_truetype (Ok builtin_font)
              png_encode_any png_partial_header can_write_all (λ _, Ok gray_100x50)
              (λ p, p) (λ d f, d +:+ "/" +:+ f) (λ _ _, true) (λ _, []) Hdec)
    as (Hwidth & Hopen & _ & Hworker).
  split; [|split].
  - destruct (Hwidth photo_world "photo.png" 0 (quarter 4) f64_one ltac:(lia))
      as (e & He & _ & Hcause).
    change (Image_open (λ _ : string, Ok gray_100x50) photo_world "photo.png")
      with (Ok gray_100x50 : result image) in Hcause. cbv beta iota in Hcause.
    destruct Hcause as [_ Hz].
    rewrite He. do 2 f_equal. apply Hz; [reflexivity | simpl; lia].
  - exact (proj1 (Hopen photo_world "absent.png" 10 (quarter 4) f64_one
                    (OSError "absent.png") eq_refl)).
  - destruct (Hworker (run_window 0) ∅ photo_world ltac:(simpl; lia))
      as (u' & w' & Hrun & Hfiles & _ & Hst).
    unfold demo_run. rewrite Hrun. cbn [fst snd]. split; [|exact Hfiles].
    destruct (Hst ltac:(discriminate) eq_refl eq_refl) as (e & Hs & _).
    rewrite Hs.
    assert (AsciiArtUI.status_var (fst (fst (demo_run (run_window 0) photo_world)))
            = AsciiArtUI.Status_error (RuntimeError "generate_ascii_art" resize_error))
      as H by (vm_compute; reflexivity).
    unfold demo_run in H. rewrite Hrun in H. cbn [fst] in H. congruence.
Defined.

Section Renderer_claims.
Variable ImageFont_truetype : string → Z → result font.
Variable ImageFont_load_default : result font.
Variable png_encode : bitmap → result string.
Variable png_partial : bitmap → string.
Variable can_write : world → string → bool.

(** ** C7: the size of the bitmap *)


(** ** C8: degenerate grids *)

(** C8, as amended.  [render] fails on both degenerate inputs, but not by
    a validation of its own.  With an empty list of lines it fails, once a
    font is at hand, by the [IndexError] of [lines[0]] (inside the
    [RuntimeError] of [save_ascii_image] in main.py), and no file is
    touched.  With a first line of zero length it allocates a bitmap of
    width 0 and of height [charHeight * len(lines)] and draws every line;
    only the save fails: with the [OSError] of the file that cannot be
    opened, or else, after the file has been opened, with the error of
    the PNG encoder, which refuses a bitmap without pixels.  In that case
    a file that was already at the output path has lost its content. *)
Theorem render_degenerate_inputs w font_cache output_path font_size
    bg_color text_color :
  png_refuses_empty png_encode →
  (∃ e,
     save_high_res_ascii ImageFont_truetype ImageFont_load_default png_encode png_partial
       can_write w [] output_path font_size bg_color text_color = (Raise e, w) ∧
     (is_ok (py_try (resolve_font ImageFont_truetype ImageFont_load_default w font_size)
                    (λ _, ImageFont_load_default)) = true → e = IndexError)) ∧
  (∃ e c,
     save_ascii_image ImageFont_truetype ImageFont_load_default png_encode png_partial
       can_write w font_cache [] output_path font_size bg_color text_color
     = (Raise (RuntimeError "save_ascii_image" e), c, w) ∧
     (is_ok (fst (_get_font ImageFont_truetype ImageFont_load_default w font_size
                    font_cache)) = true → e = IndexError)) ∧
  (∀ f rest,
     ∃ img,
       render_canvas f ([] :: rest) bg_color text_color = Ok img ∧
       bm_width img = 0%nat ∧
       bm_height img = (snd (glyph_metrics f) * S (length rest))%nat ∧
       length (bm_ops img) = S (length rest) ∧
       let cause := if can_write w output_path then empty_bitmap_error
                    else OSError output_path in
       let w' := if can_write w output_path && os_path_exists w output_path
                 then write_file w output_path (png_partial img) else w in
       (py_try (resolve_font ImageFont_truetype ImageFont_load_default w font_size)
               (λ _, ImageFont_load_default) = Ok f →
        save_high_res_ascii ImageFont_truetype ImageFont_load_default png_encode
          png_partial can_write w ([] :: rest) output_path font_size bg_color text_color
        = (Raise cause, w')) ∧
       (∀ c,
          _get_font ImageFont_truetype ImageFont_load_default w font_size font_cache
          = (Ok f, c) →
          save_ascii_image ImageFont_truetype ImageFont_load_default png_encode
            png_partial can_write w font_cache ([] :: rest) output_path font_size
            bg_color text_color
          = (Raise (RuntimeError "save_ascii_image" cause), c, w'))).
Proof.
  intros Hrefuse. split; [|split].
  - unfold save_high_res_ascii.
    destruct (py_try _ _) as [f|e]; simpl.
    + rewrite render_canvas_empty. by exists IndexError.
    + by exists e.
  - unfold save_ascii_image.
    destruct (_get_font _ _ w font_size font_cache) as [[f|e] c]; simpl.
    + rewrite render_canvas_empty. by exists IndexError, c.
    + by exists e, c.
  - intros f rest.
    destruct (render_canvas_size f [] rest bg_color text_color)
      as (img & Himg & _ & Hw & Hh & _ & Hops).
    assert (bm_width img = 0%nat) as Hw0 by (simpl in Hw; lia).
    exists img. split; [done|]. split; [done|]. split; [done|]. split; [done|].
    cbv zeta. split.
    + intros Hf. unfold save_high_res_ascii. rewrite Hf, Himg.
      unfold Image_save. destruct (can_write w output_path); [|done].
      rewrite (Hrefuse img (or_introl Hw0)). cbn [andb].
      by destruct (os_path_exists w output_path).
    + intros c Hf. unfold save_ascii_image. rewrite Hf, Himg.
      unfold Image_save. destruct (can_write w output_path); [|done].
      rewrite (Hrefuse img (or_introl Hw0)). cbn [andb].
      by destruct (os_path_exists w output_path).
Qed.

End Renderer_claims.

(** ** C9: font resolution *)




(** C8, counterexample.  A grid whose first line is empty is not turned
    away by the renderer: with the built-in font the bitmap of width 0 is
    allocated and the line is drawn.  The call fails only in the PNG
    encoder, after [old.png] has been opened for writing: the file that
    held "OLD" is left with the bytes of an unfinished PNG. *)
Lemma empty_first_line_not_validated :
  ∃ img,
    render_canvas builtin_font [[]] (0, 0, 0) (255, 255, 255) = Ok img ∧
    bm_width img = 0%nat ∧ bm_height img = 12%nat ∧
    bm_ops img = [DrawText (0%nat, 0%nat) [] (255, 255, 255) builtin_font] ∧
    fs_files old_png_world !! "old.png" = Some "OLD" ∧
    save_ascii_image no_truetype (Ok builtin_font) png_encode_strict png_partial_header
      can_write_all old_png_world ∅ [[]] "old.png" 8 (0, 0, 0) (255, 255, 255)
    = (Raise (RuntimeError "save_ascii_image" empty_bitmap_error),
       {[ "8" := builtin_font ]},
       write_file old_png_world "old.png" (png_partial_header img)) ∧
    fs_files (write_file old_png_world "old.png" (png_partial_header img)) !! "old.png"
    = Some "PNG-header".
Proof. eexists. repeat split; reflexivity. Qed.

Lemma png_encode_strict_refuses : png_refuses_empty png_encode_strict.
Proof.
  intros img H. unfold png_encode_strict.
  destruct H as [-> | ->]; [reflexivity|].
  by rewrite orb_true_r.
Qed.


Lemma render_degenerate_inputs_witness :
  save_high_res_ascii no_truetype (Ok builtin_font) png_encode_strict png_partial_header
    can_write_all empty_world [] "out.png" 8 (0, 0, 0) (255, 255, 255)
  = (Raise IndexError, empty_world) ∧
  ∃ img,
    render_canvas builtin_font [[]] (0, 0, 0) (255, 255, 255) = Ok img ∧
    bm_width img = 0%nat ∧
    save_high_res_ascii no_truetype (Ok builtin_font) png_encode_strict png_partial_header
      can_write_all old_png_world [[]] "old.png" 8 (0, 0, 0) (255, 255, 255)
    = (Raise empty_bitmap_error,
       write_file old_png_world "old.png" (png_partial_header img)).
Proof.
  destruct (render_degenerate_inputs no_truetype (Ok builtin_font) png_encode_strict
              png_partial_header can_write_all empty_world ∅ "out.png" 8 (0, 0, 0)
              (255, 255, 255) png_encode_strict_refuses)
    as ((e & He & Hidx) & _ & _).
  destruct (render_degenerate_inputs no_truetype (Ok builtin_font) png_encode_strict
              png_partial_header can_write_all old_png_world ∅ "old.png" 8 (0, 0, 0)
              (255, 255, 255) png_encode_strict_refuses)
    as (_ & _ & Hblank).
  split.
  - rewrite He. f_equal. f_equal. apply Hidx. reflexivity.
  - destruct (Hblank builtin_font []) as (img & Himg & Hw & _ & _ & Hsave & _).
    exists img. split; [exact Himg|]. split; [exact Hw|].
    apply Hsave. reflexivity.
Defined.

(** * Further properties of the code *)

(** ** Cutting the stream into lines *)

Lemma concat_slices {A} (s : list A) (w : nat) : ∀ n a,
  concat (map (λ k, py_slice s (k * w) (k * w + w)) (seq a n))
  = take (n * w) (drop (a * w) s).
Proof.
  induction n as [|n IH]; intros a; [reflexivity|].
  cbn [seq map concat]. rewrite IH. unfold py_slice.
  replace (a * w + w - a * w)%nat with w by lia.
  replace (S n * w)%nat with (w + n * w)%nat by lia.
  rewrite <- take_take_drop. rewrite drop_drop.
  do 3 f_equal. lia.
Qed.

Lemma py_range_len_pos stop step :
  0 ≤ stop → 1 ≤ step →
  ∃ n, py_range_len stop step = Ok n ∧
       Z.of_nat n = (stop + step - 1) / step ∧
       stop ≤ Z.of_nat n * step < stop + step.
Proof.
  intros Hs Hw. unfold py_range_len.
  destruct (Z.eqb_spec step 0); [lia|]. destruct (Z.ltb_spec step 0); [lia|].
  eexists. split; [reflexivity|].
  assert (0 ≤ (stop + step - 1) / step) by (apply Z.div_pos; lia).
  split; [lia|]. rewrite Z2Nat.id by lia.
  pose proof (Z.div_mod (stop + step - 1) step ltac:(lia)).
  pose proof (Z.mod_pos_bound (stop + step - 1) step ltac:(lia)). nia.
Qed.

(** X1.  The line split of main.py line 75 and test.py line 46, for any
    stream: with a width of at least 1 the lines put end to end are the
    stream again, there are [ceil(len / width)] of them, no line is empty
    or longer than the width, and every line but the last is full.  A
    width of 0 raises the [ValueError] of [range]; a negative width gives
    no lines at all. *)
Theorem split_lines_chunks (s : text) (output_width : Z) :
  (1 ≤ output_width →
   ∃ lines,
     split_lines s output_width = Ok lines ∧
     concat lines = s ∧
     Z.of_nat (length lines) = (Z.of_nat (length s) + output_width - 1) / output_width ∧
     ∀ i l, lines !! i = Some l →
       1 ≤ Z.of_nat (length l) ≤ output_width ∧
       ((i + 1 < length lines)%nat → Z.of_nat (length l) = output_width)) ∧
  (output_width = 0 →
   split_lines s output_width = Raise (ValueError "range() arg 3 must not be zero")) ∧
  (output_width < 0 → split_lines s output_width = Ok []).
Proof.
  split; [|split].
  - intros Hw. unfold split_lines.
    destruct (py_range_len_pos (Z.of_nat (length s)) output_width ltac:(lia) Hw)
      as (n & -> & Hn & Hlo & Hhi).
    cbn [mbind result_bind mret result_ret].
    set (w := Z.to_nat output_width).
    assert (Z.of_nat w = output_width) as Hww by (subst w; lia).
    eexists. split; [reflexivity|]. split; [|split].
    + rewrite concat_slices. rewrite drop_0. apply take_ge. nia.
    + by rewrite length_map, length_seq.
    + intros i l Hi. rewrite length_map, length_seq.
      rewrite list_lookup_fmap in Hi.
      destruct (seq 0 n !! i) as [k|] eqn:Hk; [|done].
      apply lookup_seq in Hk as [-> Hin]. simpl in Hi. injection Hi as <-.
      unfold py_slice. rewrite length_take, length_drop.
      replace (i * w + w - i * w)%nat with w by lia.
      split; [nia|]. intros Hnext. nia.
  - intros ->. reflexivity.
  - intros Hneg. unfold split_lines, py_range_len.
    destruct (Z.eqb_spec output_width 0); [lia|].
    destruct (Z.ltb_spec output_width 0); [|lia]. reflexivity.
Qed.

Lemma split_lines_chunks_witness :
  split_lines (list_ascii_of_string "@@@##") 2
  = Ok [list_ascii_of_string "@@"; list_ascii_of_string "@#"; list_ascii_of_string "#"] ∧
  ∃ lines, split_lines (list_ascii_of_string "@@@##") 2 = Ok lines ∧
           concat lines = list_ascii_of_string "@@@##" ∧
           Z.of_nat (length lines) = 3.
Proof.
  split; [reflexivity|].
  destruct (proj1 (split_lines_chunks (list_ascii_of_string "@@@##") 2) ltac:(lia))
    as (lines & Hl & Hcat & Hn & _).
  exists lines. split; [exact Hl|]. split; [exact Hcat | exact Hn].
Defined.

(** ** The characters of the grid *)

Lemma py_getitem_elem {A} (s : list A) i a : py_getitem s i = Ok a → a ∈ s.
Proof.
  unfold py_getitem.
  destruct ((0 <=? _) && _); [|done].
  destruct (s !! _) as [b|] eqn:Hb; [|done].
  intros [= <-]. by eapply list_elem_of_lookup_2.
Qed.

Lemma mapM_result_Forall {A B} (f : A → result B) (P : B → Prop) (l : list A) l' :
  (∀ x y, f x = Ok y → P y) → mapM f l = Ok l' → Forall P l'.
Proof.
  intros Hf. revert l'. induction l as [|x l IH]; intros l'; cbn.
  - intros [= <-]. constructor.
  - destruct (f x) as [y|e] eqn:Hy; cbn; [|done].
    destruct (mapM f l) as [k|e]; cbn; [|done].
    intros [= <-]. constructor; [by eapply Hf | by apply IH].
Qed.

Lemma split_lines_elem (s : text) w lines l c :
  split_lines s w = Ok lines → l ∈ lines → c ∈ l → c ∈ s.
Proof.
  unfold split_lines. destruct (py_range_len _ _) as [n|e]; [|done].
  cbn. intros [= <-] Hl Hc.
  apply list_elem_of_fmap in Hl as (k & -> & _).
  unfold py_slice in Hc.
  by apply subseteq_take, subseteq_drop in Hc.
Qed.

Section Converter_more.
Variable lanczos : resampler.
Variable powf : spec_float → spec_float → spec_float.
Variable Image_open : string → result image.

Lemma ascii_stream_ramp img output_width contrast gamma s :
  ascii_stream lanczos powf img output_width contrast gamma = Ok s →
  Forall (λ c, c ∈ ASCII_CHARS) s.
Proof.
  unfold ascii_stream.
  destruct (new_height _ _ _) as [nh|e]; cbn [mbind result_bind]; [|done].
  destruct (Image_resize _ _ _) as [img'|e]; cbn [mbind result_bind]; [|done].
  apply mapM_result_Forall. intros i c. apply py_getitem_elem.
Qed.

(** Either function returns exactly when the image opens and its grid is
    computed. *)
Lemma converter_returns image_path output_width contrast gamma lines :
  generate_ascii_art lanczos powf Image_open image_path output_width contrast gamma
  = Ok lines ∨
  high_precision_image_to_ascii lanczos powf Image_open image_path output_width
    contrast gamma = Ok lines →
  ∃ img, Image_open image_path = Ok img ∧
         ascii_of_image lanczos powf img output_width contrast gamma = Ok lines.
Proof.
  unfold generate_ascii_art, high_precision_image_to_ascii.
  destruct (Image_open image_path) as [img|e]; cbn [mbind result_bind py_try].
  - intros H. exists img. split; [done|].
    destruct (ascii_of_image lanczos powf img output_width contrast gamma);
      destruct H as [H|H]; done.
  - intros [H|H]; done.
Qed.


(** X2.  Whenever a converter function returns, whatever [powf] and the
    resampling filter compute, every character of the grid is a character
    of the ramp; in particular no line holds a line feed. *)
Theorem grid_chars_from_ramp image_path output_width contrast gamma lines :
  generate_ascii_art lanczos powf Image_open image_path output_width contrast gamma
  = Ok lines ∨
  high_precision_image_to_ascii lanczos powf Image_open image_path output_width
    contrast gamma = Ok lines →
  Forall (Forall (λ c, c ∈ ASCII_CHARS ∧ c ≠ "010"%char)) lines.
Proof.
  intros (img & _ & Himg)%converter_returns. revert Himg. unfold ascii_of_image.
  destruct (ascii_stream lanczos powf img output_width contrast gamma)
    as [s|e] eqn:Hs; cbn [mbind result_bind]; [|done].
  intros Hsplit. apply ascii_stream_ramp in Hs. rewrite Forall_forall in Hs.
  apply Forall_forall. intros l Hl. apply Forall_forall. intros c Hc.
  assert (c ∈ ASCII_CHARS) as Hin by (apply Hs; by eapply split_lines_elem).
  split; [done|]. intros ->. revert Hin.
  apply (bool_decide_eq_false_1 ("010"%char ∈ ASCII_CHARS)). vm_compute. reflexivity.
Qed.

End Converter_more.

Lemma grid_chars_from_ramp_witness :
  ∃ lines,
    generate_ascii_art nearest_filter powf_upto2 (λ _, Ok gray_100x50) "photo.png" 10
      (quarter 4) f64_one = Ok lines ∧
    Forall (Forall (λ c, c ∈ ASCII_CHARS ∧ c ≠ "010"%char)) lines.
Proof.
  eexists. split; [vm_compute; reflexivity|].
  apply (grid_chars_from_ramp nearest_filter powf_upto2 (λ _, Ok gray_100x50)
           "photo.png" 10 (quarter 4) f64_one).
  left. vm_compute. reflexivity.
Defined.

(** ** The two parameters at their neutral values *)

(** X3.  At gamma 1, where [powf] returns its first argument, the index of
    a sample [p] is the exact linear quantisation [floor(69 * p / 255)],
    and the character is the one at that place of the ramp: black gives
    "@" and white gives the blank. *)
Theorem char_index_linear powf p :
  (∀ x, powf x (F32.of_double f64_one) = x) →
  0 ≤ p ≤ 255 →
  char_index powf f64_one p = 69 * p / 255 ∧
  py_getitem ASCII_CHARS (char_index powf f64_one p)
  = Ok (nth (Z.to_nat (69 * p / 255)) ASCII_CHARS " "%char).
Proof.
  intros Hpow Hp. unfold char_index, gamma_corrected. rewrite Hpow.
  assert (ramp_index (normalized p) = 69 * p / 255) as ->.
  { apply Z.eqb_eq.
    apply (samples_forall (λ p, ramp_index (normalized p) =? 69 * p / 255));
      [vm_compute; reflexivity | exact Hp]. }
  split; [done|].
  assert (0 ≤ 69 * p / 255 < 70) as Hr.
  { split; [apply Z.div_pos; lia | apply Z.div_lt_upper_bound; lia]. }
  unfold py_getitem. change (Z.of_nat (length ASCII_CHARS)) with 70.
  destruct (Z.ltb_spec (69 * p / 255) 0); [lia|].
  destruct (Z.leb_spec 0 (69 * p / 255)); [|lia].
  destruct (Z.ltb_spec (69 * p / 255) 70); [|lia]. cbn [andb].
  destruct (ASCII_CHARS !! Z.to_nat (69 * p / 255)) as [a|] eqn:Ha.
  - f_equal. symmetry. apply nth_lookup_Some with (d := " "%char) in Ha. exact Ha.
  - apply lookup_ge_None in Ha. change (length ASCII_CHARS) with 70%nat in Ha. lia.
Qed.

Lemma char_index_linear_witness :
  char_index powf_upto2 f64_one 0 = 0 ∧
  char_index powf_upto2 f64_one 200 = 54 ∧
  py_getitem ASCII_CHARS (char_index powf_upto2 f64_one 255) = Ok " "%char.
Proof.
  assert (∀ x, powf_upto2 x (F32.of_double f64_one) = x) as Hpow by reflexivity.
  split; [|split].
  - apply (char_index_linear powf_upto2 0 Hpow). lia.
  - apply (char_index_linear powf_upto2 200 Hpow). lia.
  - apply (char_index_linear powf_upto2 255 Hpow). lia.
Defined.

(** X4.  Contrast 1 is neutral: every 8-bit sample comes back as it was,
    so the image is unchanged. *)
Theorem contrast_one_neutral img :
  Forall (λ p, 0 ≤ p ≤ 255) (im_pixels img) →
  apply_contrast f64_one img = img.
Proof.
  intros Hpix. destruct img as [w h px]. unfold apply_contrast. simpl in *. f_equal.
  induction Hpix as [|p px Hp _ IH]; [done|].
  simpl. rewrite IH. f_equal.
  apply Z.eqb_eq.
  apply (samples_forall (λ v, adjust_contrast f64_one v =? v));
    [vm_compute; reflexivity | exact Hp].
Qed.

Lemma contrast_one_neutral_witness : apply_contrast f64_one gray_100x1 = gray_100x1.
Proof.
  apply (contrast_one_neutral gray_100x1).
  apply Forall_forall. intros p Hp. apply elem_of_replicate in Hp as [-> _]. lia.
Defined.

(** X5.  Mid-gray is the fixed point of the stretch: for every contrast
    that is finite as a [float32], the sample 128 stays 128. *)
Theorem contrast_fixes_midgray contrast :
  finite_or_zero (F32.of_double contrast) = true →
  adjust_contrast contrast 128 = 128.
Proof.
  unfold adjust_contrast, contrast_clipped.
  by destruct (F32.of_double contrast) as [s|s| |s m e].
Qed.

Lemma contrast_fixes_midgray_witness : adjust_contrast f64_five 128 = 128.
Proof. apply (contrast_fixes_midgray f64_five). reflexivity. Defined.


(** ** The new height, exactly *)

(** The bound cannot be improved: when [2 * width] divides
    [output_width * height] the binary64 quotient may fall just short. *)
Lemma new_height_may_fall_short :
  new_height 3 26 27 = Ok 116 ∧ (27 * 26) / (2 * 3) = 117 ∧ (27 * 26) mod (2 * 3) = 0.
Proof. by vm_compute. Qed.

(** X18.  For image sizes and output widths below [2^31] whose product
    [output_width * height] stays below [2^51], the new height computed in
    binary64 as [int(output_width * (height / width) * 0.5)] is the integer
    quotient [output_width * height // (2 * width)] whenever that division
    leaves a remainder; when it is exact the result is that quotient or one
    less.  No rounding error of the three float operations ever moves the
    result further. *)
Theorem new_height_floor width height output_width :
  1 ≤ width < 2 ^ 31 → 1 ≤ height < 2 ^ 31 → 1 ≤ output_width < 2 ^ 31 →
  output_width * height < 2 ^ 51 →
  ∃ nh,
    new_height width height output_width = Ok nh ∧
    (output_width * height) / (2 * width) - 1 ≤ nh ≤ (output_width * height) / (2 * width) ∧
    ((output_width * height) mod (2 * width) ≠ 0 →
     nh = (output_width * height) / (2 * width)).
Proof.
  intros Hw Hh How Hprod.
  destruct (new_height_steps width height output_width Hw Hh How)
    as (Q & X & HQ & Hq & Hx & ->).
  exists (X / 2 ^ 1074). split; [done|].
  assert (0 < 2 ^ 1074) as HU by (apply Z.pow_pos_nonneg; lia).
  assert (4 * (output_width * height) < 2 ^ 53) as HT
    by (change (2 ^ 53) with (4 * 2 ^ 51); lia).
  apply (height_arith (2 ^ 1074) (2 ^ 53) width height output_width Q X);
    first [done | lia].
Qed.

Lemma new_height_floor_witness :
  ∃ nh,
    new_height 4 7 2 = Ok nh ∧
    (2 * 7) / (2 * 4) - 1 ≤ nh ≤ (2 * 7) / (2 * 4) ∧
    ((2 * 7) mod (2 * 4) ≠ 0 → nh = (2 * 7) / (2 * 4)).
Proof.
  apply (new_height_floor 4 7 2); vm_compute; done.
Defined.

(** ** Indices outside the ramp *)

Lemma py_getitem_wrap {A} (s : list A) (d : A) i :
  - Z.of_nat (length s) ≤ i < Z.of_nat (length s) →
  py_getitem s i = Ok (nth (Z.to_nat (i mod Z.of_nat (length s))) s d).
Proof.
  intros Hi. unfold py_getitem. cbv zeta.
  set (n := Z.of_nat (length s)) in *.
  assert ((if i <? 0 then i + n else i) = i mod n) as ->.
  { destruct (Z.ltb_spec i 0).
    - apply (Z.mod_unique i n (-1)); lia.
    - symmetry. apply Z.mod_small. lia. }
  pose proof (Z.mod_pos_bound i n ltac:(lia)) as Hm.
  destruct (Z.leb_spec 0 (i mod n)); [|lia].
  destruct (Z.ltb_spec (i mod n) n); [|lia]. cbn [andb].
  destruct (s !! Z.to_nat (i mod n)) as [a|] eqn:Ha.
  - f_equal. symmetry. by apply nth_lookup_Some.
  - apply lookup_ge_None in Ha. lia.
Qed.

Lemma py_getitem_out {A} (s : list A) i :
  ¬ (- Z.of_nat (length s) ≤ i < Z.of_nat (length s)) →
  py_getitem s i = Raise IndexError.
Proof.
  intros Hi. unfold py_getitem. cbv zeta.
  set (n := Z.of_nat (length s)) in *.
  destruct (Z.ltb_spec i 0).
  - destruct (Z.leb_spec 0 (i + n)); [lia | done].
  - destruct (Z.leb_spec 0 i); [|lia].
    destruct (Z.ltb_spec i n); [lia | done].
Qed.

Lemma mapM_result_map {A B} (f : A → result B) (g : A → B) (l : list A) :
  Forall (λ x, f x = Ok (g x)) l → mapM f l = Ok (map g l).
Proof.
  induction 1 as [|x l Hx _ IH]; [reflexivity|].
  cbn. rewrite Hx. cbn. rewrite IH. reflexivity.
Qed.

Lemma mapM_result_raise {A B} (f : A → result B) (e : py_exn) (l : list A) :
  (∀ x e', f x = Raise e' → e' = e) →
  Exists (λ x, is_ok (f x) = false) l → mapM f l = Raise e.
Proof.
  intros He. induction l as [|x l IH]; intros Hex; [by apply Exists_nil in Hex|].
  cbn. destruct (f x) as [y|e'] eqn:Hx; cbn.
  - apply Exists_cons in Hex as [Hx'|Hl]; [by rewrite Hx in Hx'|].
    by rewrite (IH Hl).
  - f_equal. by eapply He.
Qed.

Section Indices.
Variable lanczos : resampler.
Variable powf : spec_float → spec_float → spec_float.

(** X17.  The lookup into the ramp is not guarded.  Once the new height
    is computed and the resize has returned, the stream is produced
    exactly when every index lies between -70 and 69: an index from -70 to
    -1 wraps around by Python's negative indexing, and any other index
    (such as the -2^31 that a NaN or an infinity of [powf] converts to)
    makes the conversion raise [IndexError]. *)
Theorem stream_needs_indices_in_ramp img output_width contrast gamma nh img' :
  new_height (Z.of_nat (im_width img)) (Z.of_nat (im_height img)) output_width = Ok nh →
  Image_resize lanczos (apply_contrast contrast img) (output_width, nh) = Ok img' →
  (Forall (λ p, -70 ≤ char_index powf gamma p < 70) (im_pixels img') →
   ascii_stream lanczos powf img output_width contrast gamma
   = Ok (map (λ p, nth (Z.to_nat (char_index powf gamma p mod 70)) ASCII_CHARS " "%char)
             (im_pixels img'))) ∧
  (Exists (λ p, ¬ (-70 ≤ char_index powf gamma p < 70)) (im_pixels img') →
   ascii_stream lanczos powf img output_width contrast gamma = Raise IndexError).
Proof.
  intros Hnh Hres. unfold ascii_stream.
  change (im_width (apply_contrast contrast img)) with (im_width img).
  change (im_height (apply_contrast contrast img)) with (im_height img).
  rewrite Hnh. cbn [mbind result_bind]. rewrite Hres. cbn [mbind result_bind].
  split.
  - intros Hall.
    rewrite (mapM_result_map (py_getitem ASCII_CHARS)
               (λ i, nth (Z.to_nat (i mod 70)) ASCII_CHARS " "%char)).
    + by rewrite map_map.
    + apply Forall_forall. intros i (p & -> & Hp)%list_elem_of_fmap.
      rewrite Forall_forall in Hall. apply (py_getitem_wrap ASCII_CHARS " "%char).
      change (Z.of_nat (length ASCII_CHARS)) with 70. by apply Hall.
  - intros Hex. apply mapM_result_raise.
    + intros i e. unfold py_getitem.
      destruct (_ && _); [|congruence]. destruct (_ !! _); congruence.
    + apply Exists_exists in Hex as (p & Hp & Hout).
      apply Exists_exists. exists (char_index powf gamma p).
      split; [by apply list_elem_of_fmap_2|].
      rewrite py_getitem_out; [done|].
      by change (Z.of_nat (length ASCII_CHARS)) with 70.
Qed.

End Indices.

Lemma stream_needs_indices_in_ramp_witness :
  char_index powf_recip f64_minus_one 0 = - 2 ^ 31 ∧
  ascii_stream nearest_filter powf_recip black_4x4 2 f64_one f64_minus_one
  = Raise IndexError.
Proof.
  split; [vm_compute; reflexivity|].
  apply (proj2 (stream_needs_indices_in_ramp nearest_filter powf_recip black_4x4 2 f64_one
                  f64_minus_one 1
                  {| im_width := 2; im_height := 1; im_pixels := [0; 0] |}
                  ltac:(vm_compute; reflexivity) ltac:(vm_compute; reflexivity))).
  apply Exists_cons_hd. vm_compute. intros [H _]. by apply H.
Defined.

(** ** The text file *)

Lemma string_of_list_ascii_length (l : text) :
  String.length (string_of_list_ascii l) = length l.
Proof. induction l as [|c l IH]; simpl; congruence. Qed.

Lemma string_app_length (a b : string) :
  String.length (a +:+ b) = (String.length a + String.length b)%nat.
Proof. induction a as [|c a IH]; simpl; [done|]. by rewrite IH. Qed.

Lemma join_lines_length (lines : list text) (width : nat) :
  Forall (λ l, length l = width) lines →
  String.length (join_lines lines) = (length lines * (width + 1) - 1)%nat.
Proof.
  induction 1 as [|l rest Hl Hrest IH]; [reflexivity|].
  destruct rest as [|l' rest].
  - simpl. rewrite string_of_list_ascii_length. lia.
  - change (join_lines (l :: l' :: rest))
      with (string_of_list_ascii l +:+ String "010"%char (join_lines (l' :: rest))).
    rewrite string_app_length, string_of_list_ascii_length. cbn [String.length].
    rewrite IH. simpl length. lia.
Qed.

Section Renderer_more.
Variable ImageFont_truetype : string → Z → result font.
Variable ImageFont_load_default : result font.
Variable png_encode : bitmap → result string.
Variable png_partial : bitmap → string.
Variable can_write : world → string → bool.

Lemma save_ascii_text_cases w ascii_lines output_path :
  (can_write w output_path = true ∧
   save_ascii_text can_write w ascii_lines output_path
   = (Ok true, write_file w output_path (join_lines ascii_lines))) ∨
  (can_write w output_path = false ∧
   save_ascii_text can_write w ascii_lines output_path
   = (Raise (RuntimeError "save_ascii_text" (OSError output_path)), w)).
Proof. unfold save_ascii_text. destruct (can_write w output_path); [left | right]; done. Qed.

(** X6.  [save_ascii_text] on a grid of equal lines: when the file can be
    opened it holds the lines joined by single line feeds,
    [len(lines) * (width + 1) - 1] characters, and no other file or
    directory changes; when it cannot, the call raises the one
    [RuntimeError] and nothing changes. *)
Theorem text_file_of_grid w (ascii_lines : list text) output_path width :
  Forall (λ l, length l = width) ascii_lines →
  (can_write w output_path = true →
   ∃ w', save_ascii_text can_write w ascii_lines output_path = (Ok true, w') ∧
         fs_files w' !! output_path = Some (join_lines ascii_lines) ∧
         String.length (join_lines ascii_lines)
         = (length ascii_lines * (width + 1) - 1)%nat ∧
         (∀ p, p ≠ output_path → fs_files w' !! p = fs_files w !! p) ∧
         fs_dirs w' = fs_dirs w) ∧
  (can_write w output_path = false →
   save_ascii_text can_write w ascii_lines output_path
   = (Raise (RuntimeError "save_ascii_text" (OSError output_path)), w)).
Proof.
  intros Hall. unfold save_ascii_text. split; intros ->; [|done].
  eexists. split; [reflexivity|]. simpl.
  split; [apply lookup_insert_eq|]. split; [by apply join_lines_length|].
  split; [|done]. intros p Hp. by apply lookup_insert_ne.
Qed.

(** ** The font cache *)

Lemma get_font_cases w font_size font_cache r c :
  _get_font ImageFont_truetype ImageFont_load_default w font_size font_cache = (r, c) →
  (∃ f, font_cache !! pretty font_size = Some f ∧ r = Ok f ∧ c = font_cache) ∨
  (font_cache !! pretty font_size = None ∧
   ((∃ f, resolve_font ImageFont_truetype ImageFont_load_default w font_size = Ok f ∧
          r = Ok f ∧ c = <[pretty font_size := f]> font_cache) ∨
    (∃ e, resolve_font ImageFont_truetype ImageFont_load_default w font_size = Raise e ∧
          r = Raise (RuntimeError "_get_font" e) ∧ c = font_cache))).
Proof.
  unfold _get_font. cbv zeta.
  destruct (font_cache !! pretty font_size) as [f|] eqn:Hc.
  - intros [= <- <-]. left. by exists f.
  - intros H. right. split; [done|]. revert H.
    destruct (resolve_font _ _ w font_size) as [f|e]; intros [= <- <-].
    + left. by exists f.
    + right. by exists e.
Qed.

Lemma get_font_grows w font_size font_cache r c :
  _get_font ImageFont_truetype ImageFont_load_default w font_size font_cache = (r, c) →
  font_cache ⊆ c.
Proof.
  intros [(f & _ & _ & ->)|[Hn [(f & _ & _ & ->)|(e & _ & _ & ->)]]]%get_font_cases;
    [done| |done].
  by apply insert_subseteq.
Qed.

Lemma get_font_stored w font_size font_cache f c :
  _get_font ImageFont_truetype ImageFont_load_default w font_size font_cache = (Ok f, c) →
  c !! pretty font_size = Some f.
Proof.
  intros [(g & Hg & [= <-] & ->)|[Hn [(g & _ & [= <-] & ->)|(e & _ & ? & _)]]]%
    get_font_cases; [done| |done].
  apply lookup_insert_eq.
Qed.

End Renderer_more.

(** X7.  Once [_get_font] has returned a font for a size, the font is in
    the cache under that size and every later call for the size returns
    it with the cache unchanged, whatever has become of the font files and
    loaders; entries of other sizes are never touched, and a failed call
    leaves the cache as it was. *)
Theorem font_cache_reuse truetype load_default w font_size font_cache r c :
  _get_font truetype load_default w font_size font_cache = (r, c) →
  font_cache ⊆ c ∧
  (∀ size, size ≠ font_size → c !! pretty size = font_cache !! pretty size) ∧
  match r with
  | Ok f =>
      c !! pretty font_size = Some f ∧
      ∀ truetype' load_default' w',
        _get_font truetype' load_default' w' font_size c = (Ok f, c)
  | Raise e => c = font_cache
  end.
Proof.
  intros H. pose proof (get_font_grows _ _ _ _ _ _ _ H) as Hsub.
  split; [done|].
  destruct r as [f|e].
  - pose proof (get_font_stored _ _ _ _ _ _ _ H) as Hst.
    split; [|split; [done|]].
    + apply get_font_cases in H
        as [(g & Hg & _ & ->)|[Hn [(g & _ & _ & ->)|(e & _ & ? & _)]]]; [done| |done].
      intros size Hs. apply lookup_insert_ne. intros Heq. by apply (inj pretty) in Heq.
    + intros. unfold _get_font. cbv zeta. by rewrite Hst.
  - apply get_font_cases in H
      as [(g & _ & ? & _)|[Hn [(g & _ & ? & _)|(e' & _ & _ & ->)]]]; done.
Qed.

Lemma font_cache_reuse_witness :
  ∃ c, _get_font only_dejavu (Ok builtin_font) empty_world 8 ∅
       = (Ok (mono_font "dejavusansmono" 8), c) ∧
       _get_font no_truetype (Raise IndexError) empty_world 8 c
       = (Ok (mono_font "dejavusansmono" 8), c).
Proof.
  assert (_get_font only_dejavu (Ok builtin_font) empty_world 8 ∅
          = (Ok (mono_font "dejavusansmono" 8),
             <["8" := mono_font "dejavusansmono" 8]> ∅)) as H by reflexivity.
  eexists. split; [exact H|].
  destruct (font_cache_reuse _ _ _ _ _ _ _ H) as (_ & _ & _ & Hre).
  apply Hre.
Defined.

(** ** The canvas *)

Lemma draw_lines_spec f fill ch lines : ∀ y img,
  snd (fold_left
         (λ '(y, img) line, ((y + ch)%nat, draw_text img (0%nat, y) line fill f))
         lines (y, img))
  = {| bm_mode := bm_mode img; bm_width := bm_width img; bm_height := bm_height img;
       bm_background := bm_background img; bm_fontmode := bm_fontmode img;
       bm_ops := bm_ops img
                 ++ imap (λ i l, DrawText (0%nat, (y + i * ch)%nat) l fill f) lines |}.
Proof.
  induction lines as [|l rest IH]; intros y img.
  - simpl. rewrite app_nil_r. by destruct img.
  - cbn [fold_left imap]. rewrite IH. cbn [draw_text bm_mode bm_width bm_height
      bm_background bm_fontmode bm_ops]. f_equal. rewrite <- app_assoc.
    f_equal. cbn [app]. f_equal; [do 2 f_equal; lia|].
    apply imap_ext. intros i x _. cbn. do 2 f_equal. lia.
Qed.

Lemma render_canvas_eq f first rest bg_color text_color :
  render_canvas f (first :: rest) bg_color text_color
  = Ok {| bm_mode := "RGB";
          bm_width := fst (glyph_metrics f) * length first;
          bm_height := snd (glyph_metrics f) * length (first :: rest);
          bm_background := bg_color; bm_fontmode := "L";
          bm_ops := imap (λ i l, DrawText (0%nat, (i * snd (glyph_metrics f))%nat)
                                   l text_color f) (first :: rest) |}.
Proof.
  unfold render_canvas. destruct (glyph_metrics f) as [cw ch].
  change (py_getitem (first :: rest) 0) with (Ok first).
  cbn [mbind result_bind mret result_ret]. unfold draw_lines.
  rewrite draw_lines_spec. reflexivity.
Qed.

(** X8.  The canvas of a grid: the draw mode is the anti-aliased one, the
    background is the colour asked for, and there is one [draw.text] per
    line, in order; line [i] is drawn in the text colour with the resolved
    font at the left edge, [i * char_height] below the top, and its cell
    lies within the height of the bitmap. *)
Theorem render_draws_each_line f ascii_lines bg_color text_color img :
  render_canvas f ascii_lines bg_color text_color = Ok img →
  bm_fontmode img = "L" ∧ bm_background img = bg_color ∧
  length (bm_ops img) = length ascii_lines ∧
  ∀ i l, ascii_lines !! i = Some l →
    bm_ops img !! i
    = Some (DrawText (0%nat, (i * snd (glyph_metrics f))%nat) l text_color f) ∧
    (i * snd (glyph_metrics f) + snd (glyph_metrics f) ≤ bm_height img)%nat.
Proof.
  destruct ascii_lines as [|first rest]; [by rewrite render_canvas_empty|].
  rewrite render_canvas_eq. remember (first :: rest) as ls eqn:Hls.
  intros [= <-].
  cbn [bm_fontmode bm_background bm_ops bm_height].
  split; [done|]. split; [done|]. split; [by rewrite length_imap|].
  intros i l Hi. split.
  - rewrite list_lookup_imap, Hi. reflexivity.
  - apply lookup_lt_Some in Hi. nia.
Qed.

Lemma render_draws_each_line_witness :
  ∃ img,
    render_canvas builtin_font [list_ascii_of_string "@@"; list_ascii_of_string "  "]
      (3, 3, 3) (255, 255, 255) = Ok img ∧
    bm_ops img !! 1%nat
    = Some (DrawText (0%nat, 12%nat) (list_ascii_of_string "  ") (255, 255, 255)
              builtin_font).
Proof.
  eexists. split; [reflexivity|].
  destruct (render_draws_each_line builtin_font
              [list_ascii_of_string "@@"; list_ascii_of_string "  "]
              (3, 3, 3) (255, 255, 255) _ eq_refl) as (_ & _ & _ & Hops).
  apply (Hops 1%nat (list_ascii_of_string "  ") eq_refl).
Defined.

(** ** From the image to the bitmap *)

Section Pipeline.
Variable lanczos : resampler.
Variable powf : spec_float → spec_float → spec_float.
Variable Image_open : string → result image.


End Pipeline.


(** ** Saving the bitmap *)

Section Saving.
Variable ImageFont_truetype : string → Z → result font.
Variable ImageFont_load_default : result font.
Variable png_encode : bitmap → result string.
Variable png_partial : bitmap → string.
Variable can_write : world → string → bool.

Lemma Image_save_cases w img output_path r w' :
  Image_save png_encode png_partial can_write w img output_path = (r, w') →
  (∃ data, can_write w output_path = true ∧ png_encode img = Ok data ∧
           r = Ok () ∧ w' = write_file w output_path data) ∨
  (can_write w output_path = false ∧ r = Raise (OSError output_path) ∧ w' = w) ∨
  (∃ e, can_write w output_path = true ∧ png_encode img = Raise e ∧ r = Raise e ∧
        w' = if os_path_exists w output_path
             then write_file w output_path (png_partial img) else w).
Proof.
  unfold Image_save. destruct (can_write w output_path).
  - destruct (png_encode img) as [data|e]; intros [= <- <-].
    + left. by exists data.
    + right. right. exists e. by destruct (os_path_exists w output_path).
  - intros [= <- <-]. right. by left.
Qed.

Lemma save_ascii_image_cases w font_cache ascii_lines output_path font_size
    bg_color text_color r c w' :
  save_ascii_image ImageFont_truetype ImageFont_load_default png_encode png_partial can_write
    w font_cache ascii_lines output_path font_size bg_color text_color = (r, c, w') →
  font_cache ⊆ c ∧
  ((∃ f bmp data,
      _get_font ImageFont_truetype ImageFont_load_default w font_size font_cache
      = (Ok f, c) ∧
      render_canvas f ascii_lines bg_color text_color = Ok bmp ∧
      can_write w output_path = true ∧ png_encode bmp = Ok data ∧
      r = Ok true ∧ w' = write_file w output_path data) ∨
   (∃ e, r = Raise (RuntimeError "save_ascii_image" e) ∧ w' = w) ∨
   (∃ f bmp e,
      _get_font ImageFont_truetype ImageFont_load_default w font_size font_cache
      = (Ok f, c) ∧
      render_canvas f ascii_lines bg_color text_color = Ok bmp ∧
      can_write w output_path = true ∧ png_encode bmp = Raise e ∧
      os_path_exists w output_path = true ∧
      r = Raise (RuntimeError "save_ascii_image" e) ∧
      w' = write_file w output_path (png_partial bmp))).
Proof.
  unfold save_ascii_image.
  destruct (_get_font _ _ w font_size font_cache) as [rf c0] eqn:Hf.
  pose proof (get_font_grows _ _ _ _ _ _ _ Hf) as Hsub.
  destruct rf as [f|e]; [|intros [= <- <- <-]; split; [done|]; right; left; by eexists].
  destruct (render_canvas f ascii_lines bg_color text_color) as [bmp|e] eqn:Hb;
    [|intros [= <- <- <-]; split; [done|]; right; left; by eexists].
  destruct (Image_save png_encode png_partial can_write w bmp output_path) as [rs ws] eqn:Hs.
  apply Image_save_cases in Hs
    as [(data & Hcw & Henc & -> & ->)|[(Hcw & -> & ->)|(e & Hcw & Henc & -> & ->)]];
    intros [= <- <- <-]; (split; [done|]).
  - left. by exists f, bmp, data.
  - right. left. by eexists.
  - destruct (os_path_exists w output_path) eqn:Hex.
    + right. right. by exists f, bmp, e.
    + right. left. by eexists.
Qed.

(** X10.  [save_ascii_image] touches no file but [output_path] and no
    directory, and the font cache only grows.  When it returns, the file
    holds the encoded bitmap of a non-empty grid, drawn with the font now
    cached for the size.  When it raises, it raises one [RuntimeError];
    the file system is then as it was, unless the failure came from the
    PNG encoder while a file was already at [output_path]: that file has
    been opened for writing before the encoder ran, and holds only what
    the encoder wrote before it gave up. *)
Theorem save_image_outcomes w font_cache ascii_lines output_path font_size
    bg_color text_color r c w' :
  save_ascii_image ImageFont_truetype ImageFont_load_default png_encode png_partial can_write
    w font_cache ascii_lines output_path font_size bg_color text_color = (r, c, w') →
  font_cache ⊆ c ∧
  fs_dirs w' = fs_dirs w ∧
  (∀ p, p ≠ output_path → fs_files w' !! p = fs_files w !! p) ∧
  match r with
  | Ok b =>
      b = true ∧ ascii_lines ≠ [] ∧
      ∃ f bmp data,
        c !! pretty font_size = Some f ∧
        render_canvas f ascii_lines bg_color text_color = Ok bmp ∧
        png_encode bmp = Ok data ∧ fs_files w' !! output_path = Some data
  | Raise e =>
      ∃ cause, e = RuntimeError "save_ascii_image" cause ∧
        (w' = w ∨
         ∃ f bmp,
           c !! pretty font_size = Some f ∧
           render_canvas f ascii_lines bg_color text_color = Ok bmp ∧
           can_write w output_path = true ∧ png_encode bmp = Raise cause ∧
           os_path_exists w output_path = true ∧
           w' = write_file w output_path (png_partial bmp) ∧
           fs_files w' !! output_path = Some (png_partial bmp))
  end.
Proof.
  intros [Hsub [(f & bmp & data & Hf & Hb & Hcw & Henc & -> & ->)|
                [(e & -> & ->)|(f & bmp & e & Hf & Hb & Hcw & Henc & Hex & -> & ->)]]]%
    save_ascii_image_cases.
  - split; [done|]. split; [done|]. split.
    { intros p Hp. by apply lookup_insert_ne. }
    split; [done|]. split.
    { intros ->. by rewrite render_canvas_empty in Hb. }
    exists f, bmp, data. split; [by eapply get_font_stored|].
    split; [done|]. split; [done|]. apply lookup_insert_eq.
  - split; [done|]. split; [done|]. split; [done|]. exists e. split; [done | by left].
  - split; [done|]. split; [done|]. split.
    { intros p Hp. by apply lookup_insert_ne. }
    exists e. split; [done|]. right. exists f, bmp.
    split; [by eapply get_font_stored|]. split; [done|]. split; [done|].
    split; [done|]. split; [done|]. split; [done|]. apply lookup_insert_eq.
Qed.

End Saving.

Lemma save_image_outcomes_witness :
  ∃ c w',
    save_ascii_image no_truetype (Ok builtin_font) png_encode_strict png_partial_header
      can_write_all old_png_world ∅ [[]] "old.png" 8 (3, 3, 3) (255, 255, 255)
    = (Raise (RuntimeError "save_ascii_image" empty_bitmap_error), c, w') ∧
    fs_files old_png_world !! "old.png" = Some "OLD" ∧
    fs_files w' !! "old.png" = Some "PNG-header" ∧
    fs_dirs w' = fs_dirs old_png_world.
Proof.
  assert (save_ascii_image no_truetype (Ok builtin_font) png_encode_strict
            png_partial_header can_write_all old_png_world ∅ [[]] "old.png" 8
            (3, 3, 3) (255, 255, 255)
          = (Raise (RuntimeError "save_ascii_image" empty_bitmap_error),
             <["8" := builtin_font]> ∅,
             write_file old_png_world "old.png" "PNG-header")) as H by reflexivity.
  eexists _, _. split; [exact H|]. split; [reflexivity|]. split; [reflexivity|].
  destruct (save_image_outcomes _ _ _ _ _ _ _ _ _ _ _ _ _ _ _ H) as (_ & Hd & _).
  exact Hd.
Defined.

Lemma text_file_of_grid_witness :
  ∃ w', save_ascii_text can_write_all empty_world
          [list_ascii_of_string "@@"; list_ascii_of_string "  "] "out.txt" = (Ok true, w') ∧
        String.length (join_lines [list_ascii_of_string "@@"; list_ascii_of_string "  "])
        = 5%nat.
Proof.
  destruct (proj1 (text_file_of_grid can_write_all empty_world
                     [list_ascii_of_string "@@"; list_ascii_of_string "  "] "out.txt" 2
                     ltac:(repeat constructor)) eq_refl)
    as (w' & Hs & _ & Hlen & _).
  exists w'. split; [exact Hs | exact Hlen].
Defined.

(** ** The window *)

Lemma config_buttons_twice st st' u :
  AsciiArtUI.winfo_children
    (AsciiArtUI.config_buttons st' (AsciiArtUI.config_buttons st u))
  = AsciiArtUI.winfo_children (AsciiArtUI.config_buttons st' u).
Proof.
  unfold AsciiArtUI.config_buttons. cbn [AsciiArtUI.winfo_children].
  rewrite map_map. apply map_ext. intros [cls s children].
  unfold AsciiArtUI.isinstance_button. by destruct cls.
Qed.

(** X11.  [start_generation] on the window that [create_widgets] builds:
    the loop that is meant to disable the buttons visits only the children
    of the window, which is the one main frame, so every widget stays as
    it was and all five buttons stay enabled.  The worker is started
    exactly when the input path is not empty and exists; then the status
    bar shows "processing" and no box is shown; otherwise one warning box
    is shown and the status bar is unchanged. *)
Theorem start_generation_disables_nothing u w u' started :
  AsciiArtUI.winfo_children u = AsciiArtUI.create_widgets →
  AsciiArtUI.start_generation u w = (u', started) →
  AsciiArtUI.winfo_children u' = AsciiArtUI.create_widgets ∧
  flat_map AsciiArtUI.button_states (AsciiArtUI.winfo_children u')
  = replicate 5 AsciiArtUI.NORMAL ∧
  AsciiArtUI.vars u' = AsciiArtUI.vars u ∧
  (started = true ↔
   input_path (AsciiArtUI.vars u) ≠ "" ∧
   os_path_exists w (input_path (AsciiArtUI.vars u)) = true) ∧
  if started
  then AsciiArtUI.status_var u' = AsciiArtUI.Status_processing ∧
       AsciiArtUI.dialogs u' = AsciiArtUI.dialogs u
  else AsciiArtUI.status_var u' = AsciiArtUI.status_var u ∧
       AsciiArtUI.dialogs u' =
       AsciiArtUI.dialogs u ++ [AsciiArtUI.Showwarning_invalid_image].
Proof.
  intros Hw. unfold AsciiArtUI.start_generation. cbv zeta.
  destruct (bool_decide (input_path (AsciiArtUI.vars u) = "")) eqn:Hempty;
    [|destruct (os_path_exists w (input_path (AsciiArtUI.vars u))) eqn:Hex];
    cbn [orb negb]; intros [= <- <-]; cbn; rewrite Hw.
  - apply bool_decide_eq_true in Hempty.
    repeat split; try done. by intros [? _].
  - apply bool_decide_eq_false in Hempty. repeat split; done.
  - repeat split; try done. by intros [_ ?].
Qed.

Lemma start_generation_disables_nothing_witness :
  snd (AsciiArtUI.start_generation photo_window photo_world) = true ∧
  flat_map AsciiArtUI.button_states
    (AsciiArtUI.winfo_children (fst (AsciiArtUI.start_generation photo_window photo_world)))
  = replicate 5 AsciiArtUI.NORMAL.
Proof.
  split; [reflexivity|].
  apply (start_generation_disables_nothing photo_window photo_world
           (fst (AsciiArtUI.start_generation photo_window photo_world)) true
           eq_refl eq_refl).
Defined.

Section Window_facts.
Variable lanczos : resampler.
Variable powf : spec_float → spec_float → spec_float.
Variable ImageFont_truetype : string → Z → result font.
Variable ImageFont_load_default : result font.
Variable png_encode : bitmap → result string.
Variable png_partial : bitmap → string.
Variable can_write : world → string → bool.
Variable Image_decode : string → result image.
Variable path_stem : string → string.
Variable os_path_join : string → string → string.
Variable can_mkdir : world → string → bool.
Variable path_heads : string → list string.

(** Every way through the [try] block. *)
Lemma generate_ascii_try_cases u font_cache w r u1 c1 w1 :
  AsciiArtUI.generate_ascii_try lanczos powf ImageFont_truetype ImageFont_load_default
    png_encode png_partial can_write Image_decode path_stem os_path_join can_mkdir
    path_heads u font_cache w
  = (r, u1, c1, w1) →
  let s := AsciiArtUI.vars u in
  let valid := negb (bool_decide (input_path s = ""))
               && os_path_exists w (input_path s) in
  let made := AsciiArtUI.ensure_output_dir can_mkdir path_heads w (output_dir s) in
  let w0 := snd made in
  let txt_path := os_path_join (output_dir s) (path_stem (input_path s) +:+ "_ascii.txt") in
  let png_path := os_path_join (output_dir s) (path_stem (input_path s) +:+ "_ascii.png") in
  let conv := generate_ascii_art lanczos powf (Image_open Image_decode w0) (input_path s)
                (width_var s) (contrast_var s) (gamma_var s) in
  (valid = false ∧ r = Ok () ∧
   u1 = AsciiArtUI.set_status AsciiArtUI.Status_invalid_input u ∧
   c1 = font_cache ∧ w1 = w) ∨
  (valid = true ∧
   ∃ e, fst made = Raise e ∧ r = Raise e ∧ u1 = u ∧ c1 = font_cache ∧ w1 = w0) ∨
  (valid = true ∧ fst made = Ok () ∧
   ((∃ e, conv = Raise e ∧ r = Raise e ∧ u1 = u ∧ c1 = font_cache ∧ w1 = w0) ∨
    (∃ lines rt wt,
       conv = Ok lines ∧
       let up := if preview_var s
                 then AsciiArtUI.show_preview (join_lines (take 100 lines)) u
                 else u in
       (if save_text_var s then save_ascii_text can_write w0 lines txt_path
        else (Ok true, w0)) = (rt, wt) ∧
       ((∃ e, rt = Raise e ∧ r = Raise e ∧ u1 = up ∧ c1 = font_cache ∧ w1 = wt) ∨
        (∃ b ri,
           rt = Ok b ∧
           (if save_image_var s
            then save_ascii_image ImageFont_truetype ImageFont_load_default png_encode
                   png_partial can_write wt font_cache lines png_path (font_size_var s)
                   (3, 3, 3) (255, 255, 255)
            else (Ok true, font_cache, wt)) = (ri, c1, w1) ∧
           ((∃ e, ri = Raise e ∧ r = Raise e ∧ u1 = up) ∨
            (∃ b', ri = Ok b' ∧ r = Ok () ∧
                   u1 = AsciiArtUI.set_status
                          (AsciiArtUI.Status_done (output_dir s)) up))))))).
Proof.
  unfold AsciiArtUI.generate_ascii_try. cbv zeta.
  destruct (bool_decide (input_path (AsciiArtUI.vars u) = "")) eqn:Hempty; cbn [orb negb andb].
  { intros [= <- <- <- <-]. left. done. }
  destruct (os_path_exists w (input_path (AsciiArtUI.vars u))) eqn:Hex; cbn [orb negb andb].
  2:{ intros [= <- <- <- <-]. left. done. }
  destruct (AsciiArtUI.ensure_output_dir can_mkdir path_heads w
              (output_dir (AsciiArtUI.vars u))) as [made w0] eqn:Hmk.
  cbn [fst snd].
  destruct made as [[]|e0].
  2:{ intros [= <- <- <- <-]. right. left. split; [done|]. by exists e0. }
  intros H. right. right. split; [done|]. split; [done|]. revert H.
  destruct (generate_ascii_art _ _ _ _ _ _ _) as [lines|e].
  2:{ intros [= <- <- <- <-]. left. by exists e. }
  destruct (if save_text_var (AsciiArtUI.vars u) then _ else _) as [rt wt] eqn:Ht.
  intros H. right. exists lines, rt, wt. split; [done|]. split; [done|]. revert H.
  destruct rt as [b|e].
  2:{ intros [= <- <- <- <-]. left. by exists e. }
  destruct (if save_image_var (AsciiArtUI.vars u) then _ else _) as [[ri ci] wi] eqn:Hi.
  intros H. right. exists b, ri. split; [done|]. revert H.
  destruct ri as [b'|e]; intros [= <- <- <- <-].
  - split; [done|]. right. by exists b'.
  - split; [done|]. left. by exists e.
Qed.

Lemma generate_ascii_try_keeps u font_cache w r u1 c1 w1 :
  AsciiArtUI.generate_ascii_try lanczos powf ImageFont_truetype ImageFont_load_default
    png_encode png_partial can_write Image_decode path_stem os_path_join can_mkdir
    path_heads u font_cache w
  = (r, u1, c1, w1) →
  AsciiArtUI.vars u1 = AsciiArtUI.vars u ∧
  AsciiArtUI.winfo_children u1 = AsciiArtUI.winfo_children u ∧
  AsciiArtUI.dialogs u1 = AsciiArtUI.dialogs u.
Proof.
  intros H. apply generate_ascii_try_cases in H. cbv zeta in H.
  destruct H as [(_ & _ & -> & _)|[(_ & e & _ & _ & -> & _)|(_ & _ & H)]]; [done|done|].
  destruct H as [(e & _ & _ & -> & _)|(lines & rt & wt & _ & _ & H)]; [done|].
  destruct H as [(e & _ & _ & -> & _)|(b & ri & _ & _ & [(e & _ & _ & ->)|(b' & _ & _ & ->)])];
    by destruct (preview_var (AsciiArtUI.vars u)).
Qed.

Lemma generate_ascii_unfold u font_cache w u' c' w' :
  AsciiArtUI.generate_ascii lanczos powf ImageFont_truetype ImageFont_load_default
    png_encode png_partial can_write Image_decode path_stem os_path_join can_mkdir
    path_heads u font_cache w
  = (u', c', w') →
  ∃ r u1,
    AsciiArtUI.generate_ascii_try lanczos powf ImageFont_truetype ImageFont_load_default
      png_encode png_partial can_write Image_decode path_stem os_path_join can_mkdir
      path_heads u font_cache w
    = (r, u1, c', w') ∧
    u' = AsciiArtUI.config_buttons AsciiArtUI.NORMAL
           match r with
           | Ok _ => u1
           | Raise e => AsciiArtUI.show (AsciiArtUI.Showerror e)
                          (AsciiArtUI.set_status (AsciiArtUI.Status_error e) u1)
           end.
Proof.
  unfold AsciiArtUI.generate_ascii.
  destruct (AsciiArtUI.generate_ascii_try _ _ _ _ _ _ _ _ _ _ _ _ u font_cache w)
    as [[[r u1] c1] w1].
  intros [= <- <- <-]. by exists r, u1.
Qed.

(** X12.  A run that [start_generation] started ends, on every path
    through the worker (early return, exception or success), with every
    button among the children of the window enabled and every other
    widget as it was; the worker changes none of the Tk variables. *)
Theorem run_restores_buttons u w u1 font_cache w1 u2 c2 w2 :
  AsciiArtUI.start_generation u w = (u1, true) →
  AsciiArtUI.generate_ascii lanczos powf ImageFont_truetype ImageFont_load_default
    png_encode png_partial can_write Image_decode path_stem os_path_join can_mkdir
    path_heads u1 font_cache w1
  = (u2, c2, w2) →
  AsciiArtUI.vars u2 = AsciiArtUI.vars u ∧
  length (AsciiArtUI.winfo_children u2) = length (AsciiArtUI.winfo_children u) ∧
  ∀ i x, AsciiArtUI.winfo_children u !! i = Some x →
    AsciiArtUI.winfo_children u2 !! i
    = Some (if AsciiArtUI.isinstance_button x
            then AsciiArtUI.config_state AsciiArtUI.NORMAL x else x).
Proof.
  intros Hstart (r & u' & Htry & ->)%generate_ascii_unfold.
  apply generate_ascii_try_keeps in Htry as (Hv & Hw & _).
  assert (u1 = AsciiArtUI.set_status AsciiArtUI.Status_processing
                 (AsciiArtUI.config_buttons AsciiArtUI.DISABLED u)) as ->.
  { revert Hstart. unfold AsciiArtUI.start_generation. cbv zeta.
    by destruct (_ || _); intros [= <-]. }
  assert (AsciiArtUI.winfo_children
            (AsciiArtUI.config_buttons AsciiArtUI.NORMAL
               match r with
               | Ok _ => u'
               | Raise e => AsciiArtUI.show (AsciiArtUI.Showerror e)
                              (AsciiArtUI.set_status (AsciiArtUI.Status_error e) u')
               end)
          = map (λ x, if AsciiArtUI.isinstance_button x
                      then AsciiArtUI.config_state AsciiArtUI.NORMAL x else x)
                (AsciiArtUI.winfo_children u)) as Hch.
  { transitivity (AsciiArtUI.winfo_children
                    (AsciiArtUI.config_buttons AsciiArtUI.NORMAL
                       (AsciiArtUI.config_buttons AsciiArtUI.DISABLED u)));
      [|apply config_buttons_twice].
    destruct r; cbn [AsciiArtUI.config_buttons AsciiArtUI.winfo_children
                     AsciiArtUI.show AsciiArtUI.set_status]; by rewrite Hw. }
  split; [by destruct r|]. rewrite Hch. split; [by rewrite length_map|].
  intros i x Hx. by rewrite list_lookup_fmap, Hx.
Qed.

(** X13.  How the worker reports: it ends with the status "invalid input"
    exactly on the early return, where nothing else has changed; with the
    status "done" only after the conversion returned a grid and every
    requested save succeeded, and then no box is shown; and otherwise with
    the status "error", the exception in the status bar and in exactly one
    error box.  No other status is ever left behind. *)
Theorem worker_reports u font_cache w u' c' w' :
  AsciiArtUI.generate_ascii lanczos powf ImageFont_truetype ImageFont_load_default
    png_encode png_partial can_write Image_decode path_stem os_path_join can_mkdir
    path_heads u font_cache w
  = (u', c', w') →
  let s := AsciiArtUI.vars u in
  let valid := negb (bool_decide (input_path s = ""))
               && os_path_exists w (input_path s) in
  let w0 := snd (AsciiArtUI.ensure_output_dir can_mkdir path_heads w (output_dir s)) in
  match AsciiArtUI.status_var u' with
  | AsciiArtUI.Status_invalid_input =>
      valid = false ∧ AsciiArtUI.dialogs u' = AsciiArtUI.dialogs u ∧
      w' = w ∧ c' = font_cache ∧
      AsciiArtUI.preview_text u' = AsciiArtUI.preview_text u
  | AsciiArtUI.Status_done d =>
      d = output_dir s ∧ valid = true ∧
      AsciiArtUI.dialogs u' = AsciiArtUI.dialogs u ∧
      ∃ lines,
        generate_ascii_art lanczos powf (Image_open Image_decode w0) (input_path s)
          (width_var s) (contrast_var s) (gamma_var s) = Ok lines
  | AsciiArtUI.Status_error e =>
      valid = true ∧
      AsciiArtUI.dialogs u' = AsciiArtUI.dialogs u ++ [AsciiArtUI.Showerror e]
  | _ => False
  end.
Proof.
  intros (r & u1 & Htry & ->)%generate_ascii_unfold.
  pose proof (generate_ascii_try_keeps _ _ _ _ _ _ _ Htry) as (_ & _ & Hd).
  apply generate_ascii_try_cases in Htry. cbv zeta in Htry. cbv zeta.
  destruct Htry as [(Hv & -> & -> & -> & ->)|[(Hv & e & _ & -> & -> & _)|(Hv & _ & H)]];
    [done|done|].
  destruct H as [(e & _ & -> & -> & _)|(lines & rt & wt & Hconv & _ & H)]; [done|].
  destruct H as [(e & _ & -> & Hu & _)|(b & ri & _ & _ & [(e & _ & -> & Hu)|(b' & _ & -> & Hu)])];
    cbn; rewrite ?Hd; try done.
  rewrite Hu. cbn. split; [done|]. split; [done|]. split; [|by exists lines].
  rewrite <- Hd, Hu. done.
Qed.

(** X14.  The preview: once the conversion has returned a grid and the
    preview box is ticked, the preview holds the first 100 lines of the
    grid joined by line feeds and is locked again, whether or not the
    saves that follow succeed; when the conversion raises, or the box is
    not ticked, the preview is left as it was. *)
Theorem worker_preview u font_cache w u' c' w' :
  AsciiArtUI.generate_ascii lanczos powf ImageFont_truetype ImageFont_load_default
    png_encode png_partial can_write Image_decode path_stem os_path_join can_mkdir
    path_heads u font_cache w
  = (u', c', w') →
  let s := AsciiArtUI.vars u in
  let made := AsciiArtUI.ensure_output_dir can_mkdir path_heads w (output_dir s) in
  input_path s ≠ "" → os_path_exists w (input_path s) = true →
  fst made = Ok () →
  match generate_ascii_art lanczos powf (Image_open Image_decode (snd made)) (input_path s)
          (width_var s) (contrast_var s) (gamma_var s) with
  | Ok lines =>
      if preview_var s
      then AsciiArtUI.preview_text u' = join_lines (take 100 lines) ∧
           AsciiArtUI.preview_state u' = AsciiArtUI.DISABLED
      else AsciiArtUI.preview_text u' = AsciiArtUI.preview_text u ∧
           AsciiArtUI.preview_state u' = AsciiArtUI.preview_state u
  | Raise _ =>
      AsciiArtUI.preview_text u' = AsciiArtUI.preview_text u ∧
      AsciiArtUI.preview_state u' = AsciiArtUI.preview_state u
  end.
Proof.
  intros (r & u1 & Htry & ->)%generate_ascii_unfold. cbv zeta.
  intros Hne Hex Hdir.
  apply generate_ascii_try_cases in Htry. cbv zeta in Htry.
  assert (bool_decide (input_path (AsciiArtUI.vars u) = "") = false) as Hb
    by (by apply bool_decide_eq_false_2).
  rewrite Hb, Hex in Htry. cbn [negb andb] in Htry.
  destruct Htry as [(? & _)|[(_ & e & Hd1 & _)|(_ & _ & H)]]; [done| |].
  { congruence. }
  destruct H as [(e & -> & -> & -> & _)|(lines & rt & wt & -> & _ & H)]; [done|].
  destruct H as [(e & _ & -> & -> & _)|(b & ri & _ & _ & [(e & _ & -> & ->)|(b' & _ & -> & ->)])];
    by destruct (preview_var (AsciiArtUI.vars u)).
Qed.

(** X15.  The files and directories of a run.  The worker touches no file
    but the two outputs; it creates no directory but the output directory
    and the missing directories above it, and none when the output
    directory exists; the font cache only grows.  Files change only after
    the conversion returned a grid.  The text file is written before the
    bitmap is attempted: when the grid is there, the text box is ticked
    and the text file can be written, it holds the joined lines at the end
    even if rendering or saving the bitmap fails (the two paths being
    different). *)
Theorem worker_files u font_cache w u' c' w' :
  AsciiArtUI.generate_ascii lanczos powf ImageFont_truetype ImageFont_load_default
    png_encode png_partial can_write Image_decode path_stem os_path_join can_mkdir
    path_heads u font_cache w
  = (u', c', w') →
  let s := AsciiArtUI.vars u in
  let made := AsciiArtUI.ensure_output_dir can_mkdir path_heads w (output_dir s) in
  let w0 := snd made in
  let txt_path := os_path_join (output_dir s) (path_stem (input_path s) +:+ "_ascii.txt") in
  let png_path := os_path_join (output_dir s) (path_stem (input_path s) +:+ "_ascii.png") in
  let conv := generate_ascii_art lanczos powf (Image_open Image_decode w0) (input_path s)
                (width_var s) (contrast_var s) (gamma_var s) in
  font_cache ⊆ c' ∧
  (∀ d, d ∈ fs_dirs w → d ∈ fs_dirs w') ∧
  (∀ d, d ∈ fs_dirs w' →
        d = output_dir s ∨ d ∈ path_heads (output_dir s) ∨ d ∈ fs_dirs w) ∧
  (os_path_exists w (output_dir s) = true → fs_dirs w' = fs_dirs w) ∧
  (input_path s ≠ "" → os_path_exists w (input_path s) = true → fst made = Ok () →
   os_path_exists w' (output_dir s) = true) ∧
  (∀ p, p ≠ txt_path → p ≠ png_path → fs_files w' !! p = fs_files w !! p) ∧
  (fs_files w' ≠ fs_files w → ∃ lines, conv = Ok lines) ∧
  (∀ lines,
     input_path s ≠ "" → os_path_exists w (input_path s) = true →
     fst made = Ok () →
     conv = Ok lines → save_text_var s = true → can_write w0 txt_path = true →
     txt_path ≠ png_path →
     fs_files w' !! txt_path = Some (join_lines lines)).
Proof.
  intros (r & u1 & Htry & _)%generate_ascii_unfold. cbv zeta.
  apply generate_ascii_try_cases in Htry. cbv zeta in Htry.
  set (s := AsciiArtUI.vars u) in *.
  destruct (AsciiArtUI.ensure_output_dir can_mkdir path_heads w (output_dir s))
    as [made w0] eqn:Hmk.
  cbn [fst snd] in *.
  set (txt_path := os_path_join (output_dir s) (path_stem (input_path s) +:+ "_ascii.txt"))
    in *.
  set (png_path := os_path_join (output_dir s) (path_stem (input_path s) +:+ "_ascii.png"))
    in *.
  pose proof (ensure_output_dir_frame _ _ _ _ _ _ Hmk) as (Hf0 & Hd0 & Hd0' & Hdex & Hdok).
  assert (os_path_exists w (output_dir s) = true → fs_dirs w0 = fs_dirs w) as Hsame.
  { intros Hex. by destruct (Hdex Hex) as [_ ->]. }
  assert (bool_decide (input_path s = "") = false →
          os_path_exists w (input_path s) = true →
          negb (bool_decide (input_path s = "")) && os_path_exists w (input_path s) = false →
          False) as Hvalid.
  { intros -> ->. done. }
  assert (input_path s ≠ "" → bool_decide (input_path s = "") = false) as Hbd.
  { intros Hne. by apply bool_decide_eq_false_2. }
  destruct Htry as [(Hv & _ & _ & -> & ->)|[(Hv & e & He & _ & _ & -> & ->)|(Hv & Hmade & H)]].
  { split; [done|]. split; [done|]. split; [by intros d Hd; right; right|].
    split; [done|]. split.
    { intros Hne Hex. exfalso. apply Hvalid; [by apply Hbd | done | done]. }
    split; [done|]. split; [done|].
    intros lines Hne Hex. exfalso. apply Hvalid; [by apply Hbd | done | done]. }
  { split; [done|]. split; [done|]. split; [done|]. split; [done|].
    split; [intros _ _ Hok; congruence|].
    split; [intros p _ _; by rewrite Hf0|]. split; [by rewrite Hf0|].
    intros lines _ _ Hok. congruence. }
  destruct H as [(e & Hconv & _ & _ & -> & ->)|(lines & rt & wt & Hconv & Ht & H)].
  { split; [done|]. split; [done|]. split; [done|]. split; [done|].
    split; [intros; by apply Hdok|].
    split; [intros p _ _; by rewrite Hf0|]. split; [by rewrite Hf0|].
    intros lines _ _ _ Hl. congruence. }
  assert (fs_dirs wt = fs_dirs w0 ∧
          (∀ p, p ≠ txt_path → fs_files wt !! p = fs_files w0 !! p) ∧
          (∀ p, is_Some (fs_files w0 !! p) → is_Some (fs_files wt !! p)) ∧
          (∀ b, rt = Ok b → save_text_var s = true → can_write w0 txt_path = true →
                fs_files wt !! txt_path = Some (join_lines lines)))
    as (Hdt & Hft & Hkt & Htxt).
  { cbv zeta in Ht. destruct (save_text_var s).
    - destruct (save_ascii_text_cases can_write w0 lines txt_path) as [[Hcw E]|[Hcw E]];
        rewrite E in Ht; injection Ht as <- <-.
      + split; [done|]. split; [|split].
        * intros p Hp. by apply lookup_insert_ne.
        * intros p Hp. cbn. destruct (decide (txt_path = p)) as [<-|Hne].
          -- rewrite lookup_insert_eq. by eexists.
          -- by rewrite lookup_insert_ne.
        * intros. apply lookup_insert_eq.
      + split; [done|]. split; [done|]. split; [done|]. intros; congruence.
    - injection Ht as <- <-. done. }
  assert (font_cache ⊆ c' ∧ fs_dirs w' = fs_dirs wt ∧
          (∀ p, p ≠ png_path → fs_files w' !! p = fs_files wt !! p) ∧
          (∀ p, is_Some (fs_files wt !! p) → is_Some (fs_files w' !! p)))
    as (Hc & Hdi & Hfi & Hki).
  { destruct H as [(e & _ & _ & _ & -> & ->)|(b & ri & _ & Hi & _)]; [done|].
    destruct (save_image_var s).
    - apply save_ascii_image_cases in Hi
        as [Hsub [(f & bmp & data & _ & _ & _ & _ & _ & ->)|
                  [(e & _ & ->)|(f & bmp & e & _ & _ & _ & _ & _ & _ & ->)]]].
      + split; [done|]. split; [done|]. split.
        * intros p Hp. by apply lookup_insert_ne.
        * intros p Hp. cbn. destruct (decide (png_path = p)) as [<-|Hne].
          -- rewrite lookup_insert_eq. by eexists.
          -- by rewrite lookup_insert_ne.
      + done.
      + split; [done|]. split; [done|]. split.
        * intros p Hp. by apply lookup_insert_ne.
        * intros p Hp. cbn. destruct (decide (png_path = p)) as [<-|Hne].
          -- rewrite lookup_insert_eq. by eexists.
          -- by rewrite lookup_insert_ne.
    - injection Hi as <- <- <-. done. }
  split; [done|]. split; [intros d Hd; rewrite Hdi, Hdt; by apply Hd0|].
  split; [intros d Hd; apply Hd0'; by rewrite <- Hdt, <- Hdi|].
  split; [intros Hex; by rewrite Hdi, Hdt, Hsame|].
  split.
  { intros _ _ _. specialize (Hdok Hmade). unfold os_path_exists in *.
    apply orb_true_iff in Hdok as [Hfile|Hdir]; apply orb_true_iff.
    - left. apply bool_decide_eq_true. apply bool_decide_eq_true in Hfile.
      by apply Hki, Hkt.
    - right. by rewrite Hdi, Hdt. }
  split; [|split].
  - intros p Hp1 Hp2. by rewrite Hfi, Hft, Hf0.
  - intros _. by exists lines.
  - intros lines' _ _ _ Hl Hst Hcw Hne.
    rewrite Hconv in Hl. injection Hl as <-.
    rewrite Hfi by done.
    destruct H as [(e & -> & _)|(b & ri & -> & _)].
    + cbv zeta in Ht. rewrite Hst in Ht.
      destruct (save_ascii_text_cases can_write w0 lines txt_path) as [[_ E]|[E _]];
        [|congruence]. rewrite E in Ht. done.
    + by eapply Htxt.
Qed.

End Window_facts.

Lemma run_restores_buttons_witness :
  AsciiArtUI.start_generation (run_window 10) photo_world
  = (fst (AsciiArtUI.start_generation (run_window 10) photo_world), true) ∧
  AsciiArtUI.vars
    (fst (fst (demo_run (fst (AsciiArtUI.start_generation (run_window 10) photo_world))
                        photo_world)))
  = run_settings 10.
Proof.
  split; [reflexivity|]. unfold demo_run.
  destruct (AsciiArtUI.generate_ascii _ _ _ _ _ _ _ _ _ _ _ _ _ _ _) as [[u2 c2] w2] eqn:E.
  destruct (run_restores_buttons nearest_filter powf_upto2 no_truetype (Ok builtin_font)
              png_encode_any png_partial_header can_write_all (λ _, Ok gray_100x50) (λ p, p)
              (λ d f, d +:+ "/" +:+ f) (λ _ _, true) (λ _, [])
              (run_window 10) photo_world
              (fst (AsciiArtUI.start_generation (run_window 10) photo_world))
              ∅ photo_world u2 c2 w2 eq_refl E) as (Hv & _).
  exact Hv.
Defined.

Lemma worker_reports_witness :
  AsciiArtUI.status_var (fst (fst (demo_run (run_window 10) photo_world)))
  = AsciiArtUI.Status_done "out" ∧
  AsciiArtUI.dialogs (fst (fst (demo_run (run_window 10) photo_world))) = [].
Proof.
  unfold demo_run.
  destruct (AsciiArtUI.generate_ascii _ _ _ _ _ _ _ _ _ _ _ _ _ _ _) as [[u2 c2] w2] eqn:E.
  assert (AsciiArtUI.status_var u2 = AsciiArtUI.Status_done "out") as Hst.
  { change u2 with (fst (fst (u2, c2, w2))). rewrite <- E. vm_compute. reflexivity. }
  pose proof (worker_reports nearest_filter powf_upto2 no_truetype (Ok builtin_font)
                png_encode_any png_partial_header can_write_all (λ _, Ok gray_100x50) (λ p, p)
                (λ d f, d +:+ "/" +:+ f) (λ _ _, true) (λ _, [])
                (run_window 10) ∅ photo_world u2 c2 w2 E) as H.
  cbv zeta in H. rewrite Hst in H. destruct H as (_ & _ & Hd & _).
  split; [exact Hst | exact Hd].
Defined.

Lemma worker_preview_witness :
  AsciiArtUI.preview_text (fst (fst (demo_run (run_window 10) photo_world)))
  = join_lines (replicate 2 (replicate 10 "n"%char)).
Proof.
  unfold demo_run.
  destruct (AsciiArtUI.generate_ascii _ _ _ _ _ _ _ _ _ _ _ _ _ _ _) as [[u2 c2] w2] eqn:E.
  pose proof (worker_preview nearest_filter powf_upto2 no_truetype (Ok builtin_font)
                png_encode_any png_partial_header can_write_all (λ _, Ok gray_100x50) (λ p, p)
                (λ d f, d +:+ "/" +:+ f) (λ _ _, true) (λ _, [])
                (run_window 10) ∅ photo_world u2 c2 w2 E
                ltac:(discriminate) eq_refl eq_refl) as H.
  cbv zeta in H.
  assert (generate_ascii_art nearest_filter powf_upto2
            (Image_open (λ _, Ok gray_100x50)
               (snd (AsciiArtUI.ensure_output_dir (λ _ _, true) (λ _, []) photo_world
                       (output_dir (AsciiArtUI.vars (run_window 10))))))
            (input_path (AsciiArtUI.vars (run_window 10)))
            (width_var (AsciiArtUI.vars (run_window 10)))
            (contrast_var (AsciiArtUI.vars (run_window 10)))
            (gamma_var (AsciiArtUI.vars (run_window 10)))
          = Ok (replicate 2 (replicate 10 "n"%char))) as Hconv
    by (vm_compute; reflexivity).
  rewrite Hconv in H. exact (proj1 H).
Defined.

Lemma worker_files_witness :
  fs_files (snd nested_run) !! "out/art/photo.png_ascii.txt"
  = Some (join_lines (replicate 2 (replicate 10 "n"%char))) ∧
  fs_files (snd nested_run) !! "photo.png" = Some "data" ∧
  os_path_exists photo_world "out" = false ∧
  os_path_exists (snd nested_run) "out" = true ∧
  os_path_exists (snd nested_run) "out/art" = true.
Proof.
  unfold nested_run.
  destruct (AsciiArtUI.generate_ascii _ _ _ _ _ _ _ _ _ _ _ _ _ _ _) as [[u2 c2] w2] eqn:E.
  pose proof (worker_files nearest_filter powf_upto2 no_truetype (Ok builtin_font)
                png_encode_any png_partial_header can_write_all (λ _, Ok gray_100x50) (λ p, p)
                (λ d f, d +:+ "/" +:+ f) (λ _ _, true) nested_heads
                nested_window ∅ photo_world u2 c2 w2 E) as H.
  cbv zeta in H. destruct H as (_ & _ & _ & _ & Hdir & Hframe & _ & Htxt).
  assert (generate_ascii_art nearest_filter powf_upto2
            (Image_open (λ _, Ok gray_100x50)
               (snd (AsciiArtUI.ensure_output_dir (λ _ _, true) nested_heads photo_world
                       (output_dir (AsciiArtUI.vars nested_window)))))
            (input_path (AsciiArtUI.vars nested_window))
            (width_var (AsciiArtUI.vars nested_window))
            (contrast_var (AsciiArtUI.vars nested_window))
            (gamma_var (AsciiArtUI.vars nested_window))
          = Ok (replicate 2 (replicate 10 "n"%char))) as Hconv
    by (vm_compute; reflexivity).
  split; [|split; [|split; [|split]]].
  - refine (Htxt (replicate 2 (replicate 10 "n"%char)) _ eq_refl eq_refl
              Hconv eq_refl eq_refl _).
    + discriminate.
    + vm_compute. discriminate.
  - refine (eq_trans (Hframe "photo.png" _ _) eq_refl).
    + vm_compute. discriminate.
    + vm_compute. discriminate.
  - vm_compute. reflexivity.
  - change w2 with (snd (u2, c2, w2)). rewrite <- E. vm_compute. reflexivity.
  - refine (Hdir _ eq_refl eq_refl). discriminate.
Defined.

(** ** The script of test.py *)

Section Script_facts.
Variable lanczos : resampler.
Variable powf : spec_float → spec_float → spec_float.
Variable ImageFont_truetype : string → Z → result font.
Variable ImageFont_load_default : result font.
Variable png_encode : bitmap → result string.
Variable png_partial : bitmap → string.
Variable can_write : world → string → bool.
Variable Image_decode : string → result image.



End Script_facts.

